(** * Calendar event view-model: permissions, attendee diff and save flow

    A shallow embedding of [CalendarEventViewModel] (the class that backs the
    calendar event dialog) together with the two collaborator interfaces it
    talks to, the calendar model (store) and the update distributor (mails).

    - JavaScript arrays are lists, [find] / [filter] / [map] / [includes] are
      the list functions of the same name.
    - A [Date] is the instant it denotes, in milliseconds since the epoch.
    - A JS [number] keeps its NaN and its infinities; finite values are
      rationals.
    - A [Map] is an insertion-ordered association list.
    - Promises are computations that append the calls they issue to a trace and
      settle as fulfilled or rejected; the collaborators decide how each call
      settles.
    - Helpers of other modules (date arithmetic, time parsing, entity
      factories) are fields of the [CalendarUtils] interface. *)

From Stdlib Require Import List String Ascii ZArith QArith Qround Bool Lia Sorted DecimalString.
Import ListNotations.
Open Scope string_scope.
Open Scope list_scope.
Open Scope Z_scope.

Set Implicit Arguments.

(** ** JavaScript values *)

Definition Id := string.
Definition Date := Z.

Inductive JsNumber :=
| NaN
| PosInfinity
| NegInfinity
| Finite (q : Q).

(** [isNaN(n)] *)
Definition isNaN (n : JsNumber) : bool :=
  match n with NaN => true | _ => false end.

(** [a < b] on numbers: false as soon as one side is NaN. *)
Definition jsLt (a b : JsNumber) : bool :=
  match a, b with
  | NaN, _ | _, NaN => false
  | PosInfinity, _ => false
  | _, NegInfinity => false
  | NegInfinity, _ => true
  | _, PosInfinity => true
  | Finite x, Finite y => negb (Qle_bool y x)
  end.

(** Truthiness of a number: NaN and zero are falsy. *)
Definition truthyNumber (n : JsNumber) : bool :=
  match n with
  | NaN => false
  | Finite q => negb (Qeq_bool q 0)
  | _ => true
  end.

(** [n + 1] *)
Definition jsSucc (n : JsNumber) : JsNumber :=
  match n with
  | Finite q => Finite (q + 1)
  | other => other
  end.

Definition jsOne : JsNumber := Finite 1.

(** [date.getTime()] *)
Definition getTime (d : Date) : JsNumber := Finite (inject_Z d).

(** Truthiness of a nullable string: null and the empty string are falsy. *)
Definition truthy (o : option string) : option string :=
  match o with
  | Some s => if String.eqb s "" then None else Some s
  | None => None
  end.

(** [array.includes(x)] on strings *)
Definition includes (l : list string) (x : string) : bool :=
  existsb (String.eqb x) l.

Definition isEmpty {A} (l : list A) : bool :=
  match l with [] => true | _ => false end.

(** [Map<Id, V>]: entries in insertion order. *)
Definition JsMap (V : Type) := list (Id * V).

Definition Map_get {V} (m : JsMap V) (k : Id) : option V :=
  option_map snd (find (fun kv => String.eqb (fst kv) k) m).

Definition Map_values {V} (m : JsMap V) : list V := map snd m.

(** ** Constants of TutanotaConstants used by the view-model *)

Inductive CalendarAttendeeStatusEnum := NEEDS_ACTION | ACCEPTED | DECLINED | TENTATIVE.
Inductive EndTypeEnum := Never | Count | UntilDate.
Inductive RepeatPeriodEnum := DAILY | WEEKLY | MONTHLY | ANNUALLY.
Inductive ShareCapabilityEnum := Read | Write | Invite.
Inductive TimeFormatEnum := TWENTY_FOUR_HOURS | TWELVE_HOURS.
Inductive GroupTypeEnum := CalendarGroup | OtherGroup.

Definition status_eqb (a b : CalendarAttendeeStatusEnum) : bool :=
  match a, b with
  | NEEDS_ACTION, NEEDS_ACTION | ACCEPTED, ACCEPTED
  | DECLINED, DECLINED | TENTATIVE, TENTATIVE => true
  | _, _ => false
  end.

Inductive EventTypeEnum := OWN | SHARED_RO | SHARED_RW | INVITE.

Definition eventType_eqb (a b : EventTypeEnum) : bool :=
  match a, b with
  | OWN, OWN | SHARED_RO, SHARED_RO | SHARED_RW, SHARED_RW | INVITE, INVITE => true
  | _, _ => false
  end.

(** The two translation keys [onOkPressed] reports. *)
Inductive TranslationKeyType := timeFormatInvalid_msg | startAfterEnd_label.

(** ** Entities *)

Module EncryptedMailAddress.
Record t := create { name : option string; address : string }.
End EncryptedMailAddress.

Module MailAddress.
Record t := create { name : option string; address : string }.
End MailAddress.

Module CalendarEventAttendee.
Record t := create { address : EncryptedMailAddress.t; status : CalendarAttendeeStatusEnum }.
Definition setStatus (a : t) (s : CalendarAttendeeStatusEnum) : t :=
    create (address a) s.
End CalendarEventAttendee.

Module RepeatRule.
Record t := create {
    frequency : RepeatPeriodEnum;
    interval : string;
    endType : EndTypeEnum;
    endValue : option string;
    timeZone : string }.
Definition setEndType (r : t) (e : EndTypeEnum) : t :=
    create (frequency r) (interval r) e (endValue r) (timeZone r).
Definition setEndValue (r : t) (v : option string) : t :=
    create (frequency r) (interval r) (endType r) v (timeZone r).
End RepeatRule.

Module AlarmInfo.
Record t := create { alarmIdentifier : string; trigger : string }.
End AlarmInfo.

Module CalendarEvent.
Record t := create {
    _id : option (Id * Id);
    _ownerGroup : option Id;
    summary : string;
    description : string;
    location : string;
    startTime : Date;
    endTime : Date;
    uid : option string;
    sequence : string;
    organizer : option string;
    attendees : list CalendarEventAttendee.t;
    repeatRule : option RepeatRule.t;
    alarmInfos : list (Id * Id);
    isCopy : bool }.

Definition setAttendees (e : t) (l : list CalendarEventAttendee.t) : t :=
    create (_id e) (_ownerGroup e) (summary e) (description e) (location e)
      (startTime e) (endTime e) (uid e) (sequence e) (organizer e) l
      (repeatRule e) (alarmInfos e) (isCopy e).
Definition setRepeatRule (e : t) (r : option RepeatRule.t) : t :=
    create (_id e) (_ownerGroup e) (summary e) (description e) (location e)
      (startTime e) (endTime e) (uid e) (sequence e) (organizer e) (attendees e)
      r (alarmInfos e) (isCopy e).
Definition setSequence (e : t) (s : string) : t :=
    create (_id e) (_ownerGroup e) (summary e) (description e) (location e)
      (startTime e) (endTime e) (uid e) s (organizer e) (attendees e)
      (repeatRule e) (alarmInfos e) (isCopy e).
Definition setOrganizer (e : t) (o : option string) : t :=
    create (_id e) (_ownerGroup e) (summary e) (description e) (location e)
      (startTime e) (endTime e) (uid e) (sequence e) o (attendees e)
      (repeatRule e) (alarmInfos e) (isCopy e).
Definition setUid (e : t) (u : option string) : t :=
    create (_id e) (_ownerGroup e) (summary e) (description e) (location e)
      (startTime e) (endTime e) u (sequence e) (organizer e) (attendees e)
      (repeatRule e) (alarmInfos e) (isCopy e).
  (** The five plain fields [onOkPressed] writes in a row. *)
Definition setDetails (e : t) (start : Date) (descr summ loc : string) (end_ : Date) : t :=
    create (_id e) (_ownerGroup e) summ descr loc start end_ (uid e) (sequence e)
      (organizer e) (attendees e) (repeatRule e) (alarmInfos e) (isCopy e).
End CalendarEvent.

Module GroupMembership.
Record t := create { group : Id; capability : option ShareCapabilityEnum }.
End GroupMembership.

Module User.
Record t := create { _id : Id; memberships : list GroupMembership.t }.
End User.

Module Group.
Record t := create { _id : Id; type : GroupTypeEnum; user : option Id }.
End Group.

Module MailAddressAlias.
Record t := create { mailAddress : string; enabled : bool }.
End MailAddressAlias.

Module GroupInfo.
Record t := create { mailAddress : option string; mailAddressAliases : list MailAddressAlias.t }.
End GroupInfo.

Module CalendarGroupRoot.
Record t := create { _id : Id }.
End CalendarGroupRoot.

Module CalendarInfo.
Record t := create {
    groupRoot : CalendarGroupRoot.t;
    group : Group.t;
    shared : bool }.
End CalendarInfo.

Module MailboxDetail.
Record t := create { mailGroupInfo : GroupInfo.t; mailGroup : Group.t }.
End MailboxDetail.

Module IUserController.
Record t := create {
    user : User.t;
    defaultSender : string;
    userGroupInfo : GroupInfo.t;
    timeFormat : TimeFormatEnum }.
End IUserController.

Record ParsedTime := { hours : Z; minutes : Z }.

(** [clone] is a deep copy: on values it is the identity. *)
Definition clone {A} (a : A) : A := a.

(** ** Helpers that live in other modules

    [CalendarUtils], [MailUtils], [DateUtils], [CalendarModel], the entity
    factories, luxon and the built-in conversions between strings, numbers and
    dates are used through this interface only. *)

Class CalendarUtils := {
  parseTime : string -> option ParsedTime;
  timeString : Date -> bool -> string;
  timeStringInZone : Date -> bool -> string -> string;
  getStartOfDayWithZone : Date -> string -> Date;
  getStartOfNextDayWithZone : Date -> string -> Date;
  getAllDayDateUTCFromZone : Date -> string -> Date;
  getAllDayDateForTimezone : Date -> string -> Date;
  getEventStart : CalendarEvent.t -> string -> Date;
  getEventEnd : CalendarEvent.t -> string -> Date;
  isAllDayEvent : CalendarEvent.t -> bool;
  incrementDate : Date -> Z -> Date;
  incrementByRepeatPeriod : Date -> RepeatPeriodEnum -> Z -> string -> Date;
  createRepeatRuleWithValues : RepeatPeriodEnum -> JsNumber -> RepeatRule.t;
  createCalendarEvent : CalendarEvent.t;
  (** the name [createEncryptedMailAddress] gives an address made without one *)
  defaultMailAddressName : option string;
  generateUid : CalendarEvent.t -> Date -> string;
  filterInt : string -> JsNumber;
  hasCapabilityOnGroup : User.t -> Group.t -> ShareCapabilityEnum -> bool;
  getDefaultSenderFromUser : IUserController.t -> string;
  getEnabledMailAddressesWithUser : MailboxDetail.t -> GroupInfo.t -> list string;
  (** [DateTime.fromJSDate(d, {zone}).set({hour, minute}).toJSDate()] *)
  setHourMinute : Date -> string -> Z -> Z -> Date;
  (** [date.setMinutes(date.getMinutes() + n)] on a copy *)
  plusMinutes : Date -> Z -> Date;
  (** [String(n)], [Number(s)], [new Date(n)] *)
  numberToString : JsNumber -> string;
  stringToNumber : string -> JsNumber;
  dateOfNumber : JsNumber -> Date
}.

(** ** The view-model *)

Record RepeatSettings := {
  frequency : RepeatPeriodEnum;
  interval : JsNumber;
  endType : EndTypeEnum;
  endValue : JsNumber }.

Record CalendarEventViewModel := {
  summary : string;
  calendars : list CalendarInfo.t;
  selectedCalendar : option CalendarInfo.t;
  startDate : Date;
  endDate : Date;
  startTime : string;
  endTime : string;
  allDay : bool;
  repeat : option RepeatSettings;
  attendees : list CalendarEventAttendee.t;
  organizer : option string;
  possibleOrganizers : list string;
  location : string;
  note : string;
  amPmFormat : bool;
  existingEvent : option CalendarEvent.t;
  _oldStartTime : option string;
  readOnly : bool;
  _zone : string;
  alarms : list AlarmInfo.t;
  going : CalendarAttendeeStatusEnum;
  _user : User.t;
  _eventType : EventTypeEnum;
  _mailAddresses : list string }.

Definition setAttendees (vm : CalendarEventViewModel) (l : list CalendarEventAttendee.t) :=
  {| summary := summary vm; calendars := calendars vm; selectedCalendar := selectedCalendar vm;
     startDate := startDate vm; endDate := endDate vm; startTime := startTime vm;
     endTime := endTime vm; allDay := allDay vm; repeat := repeat vm; attendees := l;
     organizer := organizer vm; possibleOrganizers := possibleOrganizers vm;
     location := location vm; note := note vm; amPmFormat := amPmFormat vm;
     existingEvent := existingEvent vm; _oldStartTime := _oldStartTime vm;
     readOnly := readOnly vm; _zone := _zone vm; alarms := alarms vm; going := going vm;
     _user := _user vm; _eventType := _eventType vm; _mailAddresses := _mailAddresses vm |}.

Definition setGoing (vm : CalendarEventViewModel) (g : CalendarAttendeeStatusEnum) :=
  {| summary := summary vm; calendars := calendars vm; selectedCalendar := selectedCalendar vm;
     startDate := startDate vm; endDate := endDate vm; startTime := startTime vm;
     endTime := endTime vm; allDay := allDay vm; repeat := repeat vm; attendees := attendees vm;
     organizer := organizer vm; possibleOrganizers := possibleOrganizers vm;
     location := location vm; note := note vm; amPmFormat := amPmFormat vm;
     existingEvent := existingEvent vm; _oldStartTime := _oldStartTime vm;
     readOnly := readOnly vm; _zone := _zone vm; alarms := alarms vm; going := g;
     _user := _user vm; _eventType := _eventType vm; _mailAddresses := _mailAddresses vm |}.

Definition setRepeat (vm : CalendarEventViewModel) (r : option RepeatSettings) :=
  {| summary := summary vm; calendars := calendars vm; selectedCalendar := selectedCalendar vm;
     startDate := startDate vm; endDate := endDate vm; startTime := startTime vm;
     endTime := endTime vm; allDay := allDay vm; repeat := r; attendees := attendees vm;
     organizer := organizer vm; possibleOrganizers := possibleOrganizers vm;
     location := location vm; note := note vm; amPmFormat := amPmFormat vm;
     existingEvent := existingEvent vm; _oldStartTime := _oldStartTime vm;
     readOnly := readOnly vm; _zone := _zone vm; alarms := alarms vm; going := going vm;
     _user := _user vm; _eventType := _eventType vm; _mailAddresses := _mailAddresses vm |}.

(** The existing event is one object shared between the caller and the
    view-model: a write through the reference is a write to this field. *)
Definition setExistingEvent (vm : CalendarEventViewModel) (e : option CalendarEvent.t) :=
  {| summary := summary vm; calendars := calendars vm; selectedCalendar := selectedCalendar vm;
     startDate := startDate vm; endDate := endDate vm; startTime := startTime vm;
     endTime := endTime vm; allDay := allDay vm; repeat := repeat vm; attendees := attendees vm;
     organizer := organizer vm; possibleOrganizers := possibleOrganizers vm;
     location := location vm; note := note vm; amPmFormat := amPmFormat vm;
     existingEvent := e; _oldStartTime := _oldStartTime vm;
     readOnly := readOnly vm; _zone := _zone vm; alarms := alarms vm; going := going vm;
     _user := _user vm; _eventType := _eventType vm; _mailAddresses := _mailAddresses vm |}.

(** Address of an attendee, [a.address.address]. *)
Definition addressOf (a : CalendarEventAttendee.t) : string :=
  EncryptedMailAddress.address (CalendarEventAttendee.address a).

(** [attendees.find(a => a.address.address === address)] *)
Definition findByAddress (l : list CalendarEventAttendee.t) (address : string) :=
  find (fun a => String.eqb (addressOf a) address) l.

(** [attendees.find(a => mailAddresses.includes(a.address.address))] *)
Definition findOwn (mailAddresses : list string) (l : list CalendarEventAttendee.t) :=
  find (fun a => includes mailAddresses (addressOf a)) l.

Definition isSome {A} (o : option A) : bool :=
  match o with Some _ => true | None => false end.

Definition ownOrInvite (t : EventTypeEnum) : bool :=
  eventType_eqb t OWN || eventType_eqb t INVITE.

(** [!this.existingEvent || !this.existingEvent.isCopy] *)
Definition notACopy (existing : option CalendarEvent.t) : bool :=
  match existing with
  | None => true
  | Some e => negb (CalendarEvent.isCopy e)
  end.

Section ViewModel.
Context {utils : CalendarUtils}.

  (** *** Constructor *)

  (** Lines 150-167: the event type. *)
Definition eventTypeFor (user : User.t) (calendarMap : JsMap CalendarInfo.t)
             (existing : option CalendarEvent.t) : EventTypeEnum :=
    match existing with
    | None => OWN
    | Some ev =>
        let calendarInfoForEvent :=
          match truthy (CalendarEvent._ownerGroup ev) with
          | Some g => Map_get calendarMap g
          | None => None
          end in
        match calendarInfoForEvent with
        | Some info =>
            if CalendarInfo.shared info then
              if hasCapabilityOnGroup user (CalendarInfo.group info) Write
              then SHARED_RW else SHARED_RO
            else
              if CalendarEvent.isCopy ev then INVITE else OWN
        | None => INVITE
        end
    end.

  (** Lines 169-171. [assertNotNull(existingEvent)] is only reached for
      SHARED_RW, an event type that is only given to an existing event; the
      failed assertion is the [None] below. *)
Definition readOnlyFor (t : EventTypeEnum) (existing : option CalendarEvent.t) : option bool :=
    if negb (eventType_eqb t OWN) && negb (eventType_eqb t INVITE) then
      if negb (eventType_eqb t SHARED_RW) then Some true
      else match existing with
           | Some ev => Some (negb (isEmpty (CalendarEvent.attendees ev)))
           | None => None
           end
    else Some false.

Definition canModifyOrganizerFor (t : EventTypeEnum) (existing : option CalendarEvent.t)
             (l : list CalendarEventAttendee.t) : bool :=
    ownOrInvite t && notACopy existing && isEmpty l.

  (** [Number(x)] on a nullable string: [Number(null)] is 0. *)
Definition numberOf (o : option string) : JsNumber :=
    match o with
    | Some s => stringToNumber s
    | None => Finite 0
    end.

  (** Lines 194-212: the repeat settings shown for an existing rule. *)
Definition repeatFor (existingRule : RepeatRule.t) (isAllDay : bool) (zone : string)
    : RepeatSettings :=
    let shownEndValue :=
      match RepeatRule.endType existingRule with
      | Count => numberOf (RepeatRule.endValue existingRule)
      | UntilDate =>
          let rawEndDate := dateOfNumber (numberOf (RepeatRule.endValue existingRule)) in
          let localDate :=
            if isAllDay then getAllDayDateForTimezone rawEndDate zone else rawEndDate in
          getTime (incrementByRepeatPeriod localDate DAILY (-1) zone)
      | Never => jsOne
      end in
    {| frequency := RepeatRule.frequency existingRule;
       interval := stringToNumber (RepeatRule.interval existingRule);
       endType := RepeatRule.endType existingRule;
       endValue := shownEndValue |}.

  (** [calendars.get(key)] with a nullable key: no entry has the key null. *)
Definition Map_get_nullable {V} (m : JsMap V) (k : option Id) : option V :=
    match k with
    | Some g => Map_get m g
    | None => None
    end.

  (** The constructor. The distributor and the calendar model it stores are the
      collaborators of the call traces below; the alarms of an existing event
      arrive later, through [addAlarm], once [loadAlarms] has answered. The
      result is [None] exactly when [assertNotNull] throws. *)
Definition new_CalendarEventViewModel
             (userController : IUserController.t) (mailboxDetail : MailboxDetail.t)
             (date : Date) (zone : string) (calendarMap : JsMap CalendarInfo.t)
             (existing : option CalendarEvent.t) : option CalendarEventViewModel :=
    let calendarList := Map_values calendarMap in
    let attendeeList :=
      match existing with
      | Some ev => map clone (CalendarEvent.attendees ev)
      | None => []
      end in
    let existingOrganizer :=
      match existing with
      | Some ev => truthy (CalendarEvent.organizer ev)
      | None => None
      end in
    let organizerAddress :=
      match existingOrganizer with
      | Some o => o
      | None => getDefaultSenderFromUser userController
      end in
    let amPm :=
      match IUserController.timeFormat userController with
      | TWELVE_HOURS => true
      | TWENTY_FOUR_HOURS => false
      end in
    let mailAddresses :=
      getEnabledMailAddressesWithUser mailboxDetail
        (IUserController.userGroupInfo userController) in
    let goingStatus :=
      match findOwn mailAddresses attendeeList with
      | Some ownAttendee => CalendarEventAttendee.status ownAttendee
      | None => NEEDS_ACTION
      end in
    let user := IUserController.user userController in
    let eventType := eventTypeFor user calendarMap existing in
    match readOnlyFor eventType existing with
    | None => None
    | Some isReadOnly =>
        let organizers :=
          match existingOrganizer with
          | Some o =>
              if negb (canModifyOrganizerFor eventType existing attendeeList)
              then [o] else mailAddresses
          | None => mailAddresses
          end in
        Some
          match existing with
          | Some ev =>
              let isAllDay := isAllDayEvent ev in
              {| summary := CalendarEvent.summary ev;
                 calendars := calendarList;
                 selectedCalendar :=
                   match Map_get_nullable calendarMap (CalendarEvent._ownerGroup ev) with
                   | Some calendarForGroup => Some calendarForGroup
                   | None => hd_error calendarList
                   end;
                 startDate := getStartOfDayWithZone (getEventStart ev zone) zone;
                 endDate :=
                   if isAllDay then incrementDate (getEventEnd ev zone) (-1)
                   else getStartOfDayWithZone (getEventEnd ev zone) zone;
                 startTime := timeStringInZone (getEventStart ev zone) amPm zone;
                 endTime := timeStringInZone (getEventEnd ev zone) amPm zone;
                 allDay := isAllDay;
                 repeat :=
                   match CalendarEvent.repeatRule ev with
                   | Some existingRule => Some (repeatFor existingRule isAllDay zone)
                   | None => None
                   end;
                 attendees := attendeeList;
                 organizer := Some organizerAddress;
                 possibleOrganizers := organizers;
                 location := CalendarEvent.location ev;
                 note := CalendarEvent.description ev;
                 amPmFormat := amPm;
                 existingEvent := existing;
                 _oldStartTime := None;
                 readOnly := isReadOnly;
                 _zone := zone;
                 alarms := [];
                 going := goingStatus;
                 _user := user;
                 _eventType := eventType;
                 _mailAddresses := mailAddresses |}
          | None =>
              let endTimeDate := plusMinutes date 30 in
              {| summary := "";
                 calendars := calendarList;
                 selectedCalendar := hd_error calendarList;
                 startDate := getStartOfDayWithZone date zone;
                 endDate := getStartOfDayWithZone date zone;
                 startTime := timeString date amPm;
                 endTime := timeString endTimeDate amPm;
                 allDay := true;
                 repeat := None;
                 attendees := attendeeList;
                 organizer := Some organizerAddress;
                 possibleOrganizers := organizers;
                 location := "";
                 note := "";
                 amPmFormat := amPm;
                 existingEvent := existing;
                 _oldStartTime := None;
                 readOnly := isReadOnly;
                 _zone := zone;
                 alarms := [];
                 going := goingStatus;
                 _user := user;
                 _eventType := eventType;
                 _mailAddresses := mailAddresses |}
          end
    end.

  (** *** Methods *)

Definition _findOwnAttendee (vm : CalendarEventViewModel) :=
    findOwn (_mailAddresses vm) (attendees vm).

  (** [addAttendee]: [push] unless the address is already there. *)
Definition addAttendee (vm : CalendarEventViewModel) (mailAddress : string) :=
    match findByAddress (attendees vm) mailAddress with
    | Some _ => vm
    | None =>
        let attendee :=
          CalendarEventAttendee.create
            (EncryptedMailAddress.create defaultMailAddressName mailAddress) NEEDS_ACTION in
        setAttendees vm (attendees vm ++ [attendee])
    end.

  (** [findAndRemove(array, finder)]: [splice] at the first match. *)
Fixpoint findAndRemove {A} (l : list A) (finder : A -> bool) : list A :=
    match l with
    | [] => []
    | x :: rest => if finder x then rest else x :: findAndRemove rest finder
    end.

Definition removeAttendee (vm : CalendarEventViewModel) (address : string) :=
    setAttendees vm
      (findAndRemove (attendees vm) (fun a => String.eqb (addressOf a) address)).

Definition canModifyGuests (vm : CalendarEventViewModel) : bool :=
    ownOrInvite (_eventType vm) && notACopy (existingEvent vm).

Definition _viewingOwnEvent (vm : CalendarEventViewModel) : bool :=
    match existingEvent vm with
    | None => true
    | Some ev =>
        negb (CalendarEvent.isCopy ev)
        && match CalendarEvent.organizer ev with
           | None => true
           | Some o => includes (_mailAddresses vm) o
           end
    end.

Definition canModifyOwnAttendance (vm : CalendarEventViewModel) : bool :=
    ownOrInvite (_eventType vm) && (_viewingOwnEvent vm || isSome (_findOwnAttendee vm)).

Definition canModifyOrganizer (vm : CalendarEventViewModel) : bool :=
    canModifyOrganizerFor (_eventType vm) (existingEvent vm) (attendees vm).

Definition canModifyAlarms (vm : CalendarEventViewModel) : bool :=
    eventType_eqb (_eventType vm) OWN
    || eventType_eqb (_eventType vm) INVITE
    || eventType_eqb (_eventType vm) SHARED_RW.

  (** The first attendee satisfying [p] gets the status [s]. *)
Fixpoint setStatusOfFirst (p : CalendarEventAttendee.t -> bool)
           (s : CalendarAttendeeStatusEnum) (l : list CalendarEventAttendee.t) :=
    match l with
    | [] => []
    | a :: rest =>
        if p a then CalendarEventAttendee.setStatus a s :: rest
        else a :: setStatusOfFirst p s rest
    end.

  (** [selectGoing]; [None] when [firstThrow] throws on an empty address list. *)
Definition selectGoing (vm : CalendarEventViewModel) (status : CalendarAttendeeStatusEnum)
    : option CalendarEventViewModel :=
    if canModifyOwnAttendance vm then
      let vm1 := setGoing vm status in
      match _findOwnAttendee vm1 with
      | Some _ =>
          Some (setAttendees vm1
                  (setStatusOfFirst (fun a => includes (_mailAddresses vm1) (addressOf a))
                     status (attendees vm1)))
      | None =>
          match _mailAddresses vm1 with
          | first :: _ =>
              Some (setAttendees vm1
                      (CalendarEventAttendee.create
                         (EncryptedMailAddress.create defaultMailAddressName first) status
                         :: attendees vm1))
          | [] => None
          end
      end
    else Some vm.

(** [onRepeatPeriodSelected]: defaults, overridden by the settings there are,
    overridden by the new frequency. *)
Definition onRepeatPeriodSelected (vm : CalendarEventViewModel)
           (repeatPeriod : option RepeatPeriodEnum) :=
  match repeatPeriod with
  | None => setRepeat vm None
  | Some period =>
      setRepeat vm
        (Some match repeat vm with
              | Some r =>
                  {| frequency := period; interval := interval r;
                     endType := endType r; endValue := endValue r |}
              | None =>
                  {| frequency := period; interval := jsOne;
                     endType := Never; endValue := jsOne |}
              end)
  end.

(** [onRepeatEndTypeChanged]; [today] is what [new Date()] answers. *)
Definition onRepeatEndTypeChanged (today : Date) (vm : CalendarEventViewModel)
           (newEndType : EndTypeEnum) :=
  match repeat vm with
  | Some r =>
      setRepeat vm
        (Some {| frequency := frequency r; interval := interval r;
                 endType := newEndType;
                 endValue :=
                   match newEndType with
                   | UntilDate =>
                       getTime (incrementByRepeatPeriod today MONTHLY 1 (_zone vm))
                   | _ => jsOne
                   end |})
  | None => vm
  end.

(** [onEndOccurencesSelected] *)
Definition onEndOccurencesSelected (vm : CalendarEventViewModel) (newEndValue : JsNumber) :=
  match repeat vm with
  | Some r =>
      match endType r with
      | Count =>
          setRepeat vm
            (Some {| frequency := frequency r; interval := interval r;
                     endType := endType r; endValue := newEndValue |})
      | _ => vm
      end
  | None => vm
  end.

Definition _distributionAddresses (guests : list CalendarEventAttendee.t)
    : list EncryptedMailAddress.t :=
    map CalendarEventAttendee.address guests.

End ViewModel.


(** ** Collaborators and promises *)

(** One call on the calendar model or on the update distributor, with the
    arguments as they are when the call is made. *)
Inductive Call :=
| CalendarModel_createEvent (event : CalendarEvent.t) (newAlarms : list AlarmInfo.t)
    (zone : string) (groupRoot : CalendarGroupRoot.t)
| CalendarModel_updateEvent (event : CalendarEvent.t) (newAlarms : list AlarmInfo.t)
    (zone : string) (groupRoot : CalendarGroupRoot.t) (existing : CalendarEvent.t)
| CalendarModel_deleteEvent (event : CalendarEvent.t)
| Distributor_sendInvite (event : CalendarEvent.t) (recipients : list EncryptedMailAddress.t)
| Distributor_sendUpdate (event : CalendarEvent.t) (recipients : list EncryptedMailAddress.t)
| Distributor_sendCancellation (event : CalendarEvent.t)
    (recipients : list EncryptedMailAddress.t)
| Distributor_sendResponse (event : CalendarEvent.t) (sender : MailAddress.t)
    (status : CalendarAttendeeStatusEnum).

Inductive Failure := NotFoundError | TypeError | OtherError (message : string).

Inductive Settled (A : Type) :=
| Fulfilled (value : A)
| Rejected (reason : Failure).
Arguments Fulfilled {A} value.
Arguments Rejected {A} reason.

(** How the promise returned by a call settles, given the calls made before. *)
Definition Collaborators := list Call -> Call -> Settled unit.

(** A promise: run against the collaborators from the trace so far, it yields
    the extended trace and the way it settles. *)
Definition Promise (A : Type) := Collaborators -> list Call -> list Call * Settled A.

Definition Promise_resolve {A} (a : A) : Promise A :=
  fun _ trace => (trace, Fulfilled a).

Definition Promise_reject {A} (e : Failure) : Promise A :=
  fun _ trace => (trace, Rejected e).

(** The promise a collaborator returns for a call. *)
Definition perform (c : Call) : Promise unit :=
  fun world trace => (trace ++ [c], world trace c).

(** A call whose promise is dropped: it is made, nobody waits for it and its
    rejection reaches nobody. *)
Definition performDetached (c : Call) : Promise unit :=
  fun _ trace => (trace ++ [c], Fulfilled tt).

(** [p.then(f)] *)
Definition Promise_then {A B} (p : Promise A) (f : A -> Promise B) : Promise B :=
  fun world trace =>
    match p world trace with
    | (trace', Fulfilled a) => f a world trace'
    | (trace', Rejected e) => (trace', Rejected e)
    end.

(** [p.catch(NotFoundError, handler)] *)
Definition Promise_catchNotFound {A} (p : Promise A) (handler : Promise A) : Promise A :=
  fun world trace =>
    match p world trace with
    | (trace', Rejected NotFoundError) => handler world trace'
    | settled => settled
    end.

Notation "p '>>then' f" := (Promise_then p f) (at level 61, left associativity).

(** What the [askForUpdates] closure has captured. The event it holds shares
    its attendee array with the view-model, and the existing event is the
    view-model's: both are read when the closure runs. *)
Record PendingSave := {
  pendingEvent : CalendarEvent.t;
  pendingAlarms : list AlarmInfo.t;
  pendingGroupRoot : CalendarGroupRoot.t;
  pendingExisting : list CalendarEventAttendee.t;
  pendingNew : list CalendarEventAttendee.t;
  pendingRemoved : list CalendarEventAttendee.t }.

Inductive EventCreateResult :=
| ok (askForUpdates : option PendingSave)
| error (key : TranslationKeyType).

(** Outcome of the synchronous part of [onOkPressed] up to the attendee diff. *)
Inductive Assembly :=
| Invalid (key : TranslationKeyType)
| Throws (reason : Failure)
| Assembled (newEvent : CalendarEvent.t) (groupRoot : CalendarGroupRoot.t).

Section Save.
Context {utils : CalendarUtils}.

(** Lines 424-445: start and end instant, or the time format error. *)
Definition computeTimes (vm : CalendarEventViewModel) : TranslationKeyType + Date * Date :=
  let zone := _zone vm in
  if allDay vm then
    inr (getAllDayDateUTCFromZone (startDate vm) zone,
         getAllDayDateUTCFromZone (getStartOfNextDayWithZone (endDate vm) zone) zone)
  else
    match parseTime (startTime vm), parseTime (endTime vm) with
    | Some parsedStartTime, Some parsedEndTime =>
        inr (setHourMinute (startDate vm) zone (hours parsedStartTime) (minutes parsedStartTime),
             setHourMinute (endDate vm) zone (hours parsedEndTime) (minutes parsedEndTime))
    | _, _ => inl timeFormatInvalid_msg
    end.

(** Lines 457-488: the repeat rule of the new event; [newEvent] is the event
    as it is when [getEventStart] looks at it. *)
Definition assembleRepeatRule (vm : CalendarEventViewModel) (newEvent : CalendarEvent.t)
  : TranslationKeyType + option RepeatRule.t :=
  match repeat vm with
  | None => inr None
  | Some settings =>
      let interval_ :=
        if truthyNumber (interval settings) then interval settings else jsOne in
      let stopType := endType settings in
      let repeatRule :=
        RepeatRule.setEndType
          (createRepeatRuleWithValues (frequency settings) interval_) stopType in
      match stopType with
      | Count =>
          let count := endValue settings in
          if isNaN count || jsLt count jsOne then
            inr (Some (RepeatRule.setEndType repeatRule Never))
          else
            inr (Some (RepeatRule.setEndValue repeatRule (Some (numberToString count))))
      | UntilDate =>
          let repeatEndDate :=
            getStartOfNextDayWithZone (dateOfNumber (endValue settings)) (_zone vm) in
          if repeatEndDate <?
             getEventStart (CalendarEvent.setRepeatRule newEvent (Some repeatRule)) (_zone vm)
          then inl startAfterEnd_label
          else
            let stored :=
              if allDay vm then getAllDayDateUTCFromZone repeatEndDate (_zone vm)
              else repeatEndDate in
            inr (Some (RepeatRule.setEndValue repeatRule
                         (Some (numberToString (getTime stored)))))
      | Never => inr (Some repeatRule)
      end
  end.

(** Lines 422-501: validation and the assembled event. [now] is what
    [Date.now()] answers. *)
Definition assembleEvent (now : Date) (vm : CalendarEventViewModel) : Assembly :=
  let newEvent0 :=
    match existingEvent vm with
    | Some ev => clone ev
    | None => createCalendarEvent
    end in
  match computeTimes vm with
  | inl key => Invalid key
  | inr (start, end_) =>
      if end_ <=? start then Invalid startAfterEnd_label
      else
        let newEvent1 :=
          CalendarEvent.setDetails newEvent0 start (note vm) (summary vm) (location vm) end_ in
        match selectedCalendar vm with
        | None => Throws TypeError
        | Some calendar =>
            let groupRoot := CalendarInfo.groupRoot calendar in
            let existingUid :=
              match existingEvent vm with
              | Some ev => truthy (CalendarEvent.uid ev)
              | None => None
              end in
            let newEvent2 :=
              CalendarEvent.setUid newEvent1
                (Some match existingUid with
                      | Some u => u
                      | None => generateUid newEvent1 now
                      end) in
            match assembleRepeatRule vm newEvent2 with
            | inl key => Invalid key
            | inr rule =>
                let newEvent3 := CalendarEvent.setRepeatRule newEvent2 rule in
                let newEvent4 := CalendarEvent.setAttendees newEvent3 (attendees vm) in
                let newEvent5 :=
                  match existingEvent vm with
                  | Some ev =>
                      CalendarEvent.setSequence newEvent4
                        (numberToString (jsSucc (filterInt (CalendarEvent.sequence ev))))
                  | None => newEvent4
                  end in
                Assembled (CalendarEvent.setOrganizer newEvent5 (organizer vm)) groupRoot
            end
        end
  end.

(** Lines 505-514: the [forEach] over the current attendees, pushing onto
    [existingAttendees] or [newAttendees]. *)
Definition splitCurrent (mailAddresses : list string)
           (prior current : list CalendarEventAttendee.t)
  : list CalendarEventAttendee.t * list CalendarEventAttendee.t :=
  fold_left
    (fun acc a =>
       if includes mailAddresses (addressOf a) then acc
       else if isSome (findByAddress prior (addressOf a))
            then (fst acc ++ [a], snd acc)
            else (fst acc, snd acc ++ [a]))
    current ([], []).

Record AttendeeDiff := {
  existingAttendees : list CalendarEventAttendee.t;
  newAttendees : list CalendarEventAttendee.t;
  removedAttendees : list CalendarEventAttendee.t }.

(** Lines 503-522: the diff of the organizer's save. *)
Definition attendeeDiff (mailAddresses : list string)
           (existing : option CalendarEvent.t) (current : list CalendarEventAttendee.t)
  : AttendeeDiff :=
  match existing with
  | Some ev =>
      let prior := CalendarEvent.attendees ev in
      let split := splitCurrent mailAddresses prior current in
      {| existingAttendees := fst split;
         newAttendees := snd split;
         removedAttendees :=
           filter (fun ea => negb (includes mailAddresses (addressOf ea))
                             && negb (isSome (findByAddress current (addressOf ea))))
                  prior |}
  | None =>
      {| existingAttendees := [];
         newAttendees :=
           filter (fun a => negb (includes mailAddresses (addressOf a))) current;
         removedAttendees := [] |}
  end.

(** Lines 525-535: the own response of an invited viewer. The attendee found
    is an element of the existing event's array, so the assignment to its
    status is a write to the existing event. *)
Definition ownResponse (vm : CalendarEventViewModel) (newEvent : CalendarEvent.t)
  : CalendarEventViewModel * Promise unit :=
  match existingEvent vm with
  | Some ev =>
      match findOwn (_mailAddresses vm) (CalendarEvent.attendees ev) with
      | Some ownAttendee =>
          if negb (status_eqb (going vm) NEEDS_ACTION)
             && negb (status_eqb (CalendarEventAttendee.status ownAttendee) (going vm))
          then
            let mutated :=
              CalendarEvent.setAttendees ev
                (setStatusOfFirst (fun a => includes (_mailAddresses vm) (addressOf a))
                   (going vm) (CalendarEvent.attendees ev)) in
            (setExistingEvent vm (Some mutated),
             performDetached
               (Distributor_sendResponse newEvent
                  (MailAddress.create
                     (EncryptedMailAddress.name (CalendarEventAttendee.address ownAttendee))
                     (addressOf ownAttendee))
                  (going vm)))
          else (vm, Promise_resolve tt)
      | None => (vm, Promise_resolve tt)
      end
  | None => (vm, Promise_resolve tt)
  end.

(** The event a closure sees through its reference: the attendee array is the
    view-model's. *)
Definition seenThrough (vm : CalendarEventViewModel) (newEvent : CalendarEvent.t) :=
  CalendarEvent.setAttendees newEvent (attendees vm).

(** Lines 538-544 *)
Definition doCreateEvent (vm : CalendarEventViewModel) (newEvent : CalendarEvent.t)
           (newAlarms : list AlarmInfo.t) (groupRoot : CalendarGroupRoot.t) : Promise unit :=
  match existingEvent vm with
  | None =>
      perform (CalendarModel_createEvent (seenThrough vm newEvent) newAlarms (_zone vm) groupRoot)
  | Some existing =>
      perform (CalendarModel_updateEvent (seenThrough vm newEvent) newAlarms (_zone vm)
                 groupRoot existing)
  end.

(** Lines 550-563: the closure handed out as [askForUpdates], applied to the
    answer; [vm] is the view-model as it is when the closure runs. *)
Definition askForUpdates (vm : CalendarEventViewModel) (p : PendingSave)
           (sendOutUpdate : bool) : Promise unit :=
  let newEvent := seenThrough vm (pendingEvent p) in
  doCreateEvent vm (pendingEvent p) (pendingAlarms p) (pendingGroupRoot p)
  >>then (fun _ =>
    if sendOutUpdate && negb (isEmpty (pendingExisting p))
    then perform (Distributor_sendUpdate newEvent (_distributionAddresses (pendingExisting p)))
    else Promise_resolve tt)
  >>then (fun _ =>
    if sendOutUpdate && negb (isEmpty (pendingNew p))
    then perform (Distributor_sendInvite newEvent (_distributionAddresses (pendingNew p)))
    else Promise_resolve tt)
  >>then (fun _ =>
    if sendOutUpdate && negb (isEmpty (pendingRemoved p))
    then performDetached
           (Distributor_sendCancellation newEvent (_distributionAddresses (pendingRemoved p)))
    else Promise_resolve tt).

(** Lines 546-577: ask for updates, or just create the event. *)
Definition dispatch (vm : CalendarEventViewModel) (newEvent : CalendarEvent.t)
           (newAlarms : list AlarmInfo.t) (groupRoot : CalendarGroupRoot.t)
           (d : AttendeeDiff) : Promise EventCreateResult :=
  if (_viewingOwnEvent vm && negb (isEmpty (existingAttendees d)))
     || negb (isEmpty (removedAttendees d))
  then
    Promise_resolve
      (ok (Some {| pendingEvent := newEvent;
                   pendingAlarms := newAlarms;
                   pendingGroupRoot := groupRoot;
                   pendingExisting := existingAttendees d;
                   pendingNew := newAttendees d;
                   pendingRemoved := removedAttendees d |}))
  else
    doCreateEvent vm newEvent newAlarms groupRoot
    >>then (fun _ =>
      if negb (isEmpty (newAttendees d))
      then perform (Distributor_sendInvite (seenThrough vm newEvent)
                      (_distributionAddresses (newAttendees d)))
      else Promise_resolve tt)
    >>then (fun _ => Promise_resolve (ok None)).

(** [onOkPressed]: the view-model after the synchronous part, and the promise
    returned. A synchronous throw is the rejected promise. *)
Definition onOkPressed (now : Date) (vm : CalendarEventViewModel)
  : CalendarEventViewModel * Promise EventCreateResult :=
  match assembleEvent now vm with
  | Invalid key => (vm, Promise_resolve (error key))
  | Throws e => (vm, Promise_reject e)
  | Assembled newEvent groupRoot =>
      let newAlarms := alarms vm in
      if _viewingOwnEvent vm then
        (vm, dispatch vm newEvent newAlarms groupRoot
               (attendeeDiff (_mailAddresses vm) (existingEvent vm) (attendees vm)))
      else
        let (vm', response) := ownResponse vm newEvent in
        (vm', response >>then (fun _ =>
                dispatch vm' newEvent newAlarms groupRoot
                  {| existingAttendees := []; newAttendees := []; removedAttendees := [] |}))
  end.

(** [deleteEvent]: [Some true] is the [true] of the branch without an event,
    [None] the undefined the promise chain resolves to. *)
Definition deleteEvent (vm : CalendarEventViewModel) : Promise (option bool) :=
  match existingEvent vm with
  | Some event =>
      let awaitCancellation :=
        if eventType_eqb (_eventType vm) OWN && negb (isEmpty (CalendarEvent.attendees event))
        then perform (Distributor_sendCancellation event
                        (map CalendarEventAttendee.address (CalendarEvent.attendees event)))
        else Promise_resolve tt in
      Promise_catchNotFound
        (awaitCancellation
         >>then (fun _ => perform (CalendarModel_deleteEvent event))
         >>then (fun _ => Promise_resolve None))
        (Promise_resolve None)
  | None => Promise_resolve (Some true)
  end.

End Save.


(** * The rest of the view-model *)

(** Helpers of other modules used by the methods below. *)
Class DialogUtils := {
  (** [timeStringFromParts(hours, minutes, amPm)] *)
  timeStringFromParts : Z -> Z -> bool -> string;
  (** [date.getFullYear()] *)
  getFullYear : Date -> Z;
  (** [date.setFullYear(year)] on a copy *)
  setFullYear : Date -> Z -> Date;
  getDiffInDays : Date -> Date -> JsNumber;
  (** [DateTime.fromJSDate(d, {zone}).plus({days}).toJSDate()] *)
  plusDays : Date -> string -> JsNumber -> Date;
  generateEventElementId : Date -> string
}.

Definition TIMESTAMP_ZERO_YEAR : Z := 1970.

(** The view-model with new values for the fields the dialog edits. *)
Definition withForm (vm : CalendarEventViewModel) (summary' : string)
           (selectedCalendar' : option CalendarInfo.t) (startDate' endDate' : Date)
           (startTime' endTime' : string) (allDay' : bool) (location' note' : string)
           (oldStartTime' : option string) (alarms' : list AlarmInfo.t) :=
  {| summary := summary'; calendars := calendars vm; selectedCalendar := selectedCalendar';
     startDate := startDate'; endDate := endDate'; startTime := startTime';
     endTime := endTime'; allDay := allDay'; repeat := repeat vm; attendees := attendees vm;
     organizer := organizer vm; possibleOrganizers := possibleOrganizers vm;
     location := location'; note := note'; amPmFormat := amPmFormat vm;
     existingEvent := existingEvent vm; _oldStartTime := oldStartTime';
     readOnly := readOnly vm; _zone := _zone vm; alarms := alarms'; going := going vm;
     _user := _user vm; _eventType := _eventType vm; _mailAddresses := _mailAddresses vm |}.

Definition setTimes (vm : CalendarEventViewModel) (startTime' endTime' : string)
           (oldStartTime' : option string) :=
  withForm vm (summary vm) (selectedCalendar vm) (startDate vm) (endDate vm)
    startTime' endTime' (allDay vm) (location vm) (note vm) oldStartTime' (alarms vm).

Definition setDates (vm : CalendarEventViewModel) (startDate' endDate' : Date) :=
  withForm vm (summary vm) (selectedCalendar vm) startDate' endDate'
    (startTime vm) (endTime vm) (allDay vm) (location vm) (note vm) (_oldStartTime vm)
    (alarms vm).

Definition setAlarms (vm : CalendarEventViewModel) (alarms' : list AlarmInfo.t) :=
  withForm vm (summary vm) (selectedCalendar vm) (startDate vm) (endDate vm)
    (startTime vm) (endTime vm) (allDay vm) (location vm) (note vm) (_oldStartTime vm)
    alarms'.

(** The four streams, written by the components of the dialog. *)
Definition setStreams (vm : CalendarEventViewModel) (summary' location' : string)
           (allDay' : bool) (selectedCalendar' : option CalendarInfo.t) :=
  withForm vm summary' selectedCalendar' (startDate vm) (endDate vm)
    (startTime vm) (endTime vm) allDay' location' (note vm) (_oldStartTime vm) (alarms vm).

Section Form.
Context {utils : CalendarUtils} {dialogUtils : DialogUtils}.

(** [changeDescription] *)
Definition changeDescription (vm : CalendarEventViewModel) (description : string) :=
  withForm vm (summary vm) (selectedCalendar vm) (startDate vm) (endDate vm)
    (startTime vm) (endTime vm) (allDay vm) (location vm) description (_oldStartTime vm)
    (alarms vm).

(** [_adjustEndTime]: keep the duration when the start time moves. *)
Definition _adjustEndTime (vm : CalendarEventViewModel) : CalendarEventViewModel :=
  let parsedOldStartTime :=
    match truthy (_oldStartTime vm) with
    | Some old => parseTime old
    | None => None
    end in
  match parseTime (startTime vm), parseTime (endTime vm), parsedOldStartTime with
  | Some parsedStartTime, Some parsedEndTime, Some parsedOld =>
      let endTotalMinutes := hours parsedEndTime * 60 + minutes parsedEndTime in
      let startTotalMinutes := hours parsedStartTime * 60 + minutes parsedStartTime in
      let diff := Z.abs (endTotalMinutes - hours parsedOld * 60 - minutes parsedOld) in
      let newEndTotalMinutes := startTotalMinutes + diff in
      let newEndHours :=
        if 23 <? newEndTotalMinutes / 60 then 23 else newEndTotalMinutes / 60 in
      let newEndMinutes := Z.rem newEndTotalMinutes 60 in
      setTimes vm (startTime vm)
        (timeStringFromParts newEndHours newEndMinutes (amPmFormat vm))
        (Some (startTime vm))
  | _, _, _ => vm
  end.

(** [onStartTimeSelected] *)
Definition onStartTimeSelected (vm : CalendarEventViewModel) (value : string) :=
  let vm1 := setTimes vm value (endTime vm) (_oldStartTime vm) in
  if startDate vm1 =? endDate vm1 then _adjustEndTime vm1 else vm1.

(** [onEndTimeSelected] *)
Definition onEndTimeSelected (vm : CalendarEventViewModel) (value : string) :=
  setTimes vm (startTime vm) value (_oldStartTime vm).

(** [onStartDateSelected]; [today] is what [new Date()] answers. *)
Definition onStartDateSelected (today : Date) (vm : CalendarEventViewModel)
           (date : option Date) :=
  match date with
  | None => vm
  | Some d =>
      if getFullYear d <? TIMESTAMP_ZERO_YEAR then
        setDates vm (setFullYear d (getFullYear today)) (endDate vm)
      else
        let diff := getDiffInDays d (startDate vm) in
        setDates vm d (plusDays (endDate vm) (_zone vm) diff)
  end.

(** [onEndDateSelected] *)
Definition onEndDateSelected (vm : CalendarEventViewModel) (date : option Date) :=
  match date with
  | None => vm
  | Some d => setDates vm (startDate vm) d
  end.

(** [onRepeatEndDateSelected] *)
Definition onRepeatEndDateSelected (vm : CalendarEventViewModel) (newEndDate : option Date) :=
  match newEndDate, repeat vm with
  | Some d, Some r =>
      match endType r with
      | UntilDate =>
          setRepeat vm
            (Some {| frequency := frequency r; interval := interval r;
                     endType := endType r; endValue := getTime d |})
      | _ => vm
      end
  | _, _ => vm
  end.

(** [onRepeatIntervalChanged] *)
Definition onRepeatIntervalChanged (vm : CalendarEventViewModel) (newInterval : JsNumber) :=
  match repeat vm with
  | Some r =>
      setRepeat vm
        (Some {| frequency := frequency r; interval := newInterval;
                 endType := endType r; endValue := endValue r |})
  | None => vm
  end.

(** [createCalendarAlarm] *)
Definition createCalendarAlarm (identifier trigger : string) : AlarmInfo.t :=
  AlarmInfo.create identifier trigger.

(** [addAlarm]; [now] is what [Date.now()] answers. *)
Definition addAlarm (now : Date) (vm : CalendarEventViewModel) (trigger : string) :=
  setAlarms vm (alarms vm ++ [createCalendarAlarm (generateEventElementId now) trigger]).

(** The loop of [changeAlarm]: at the first alarm with the identifier, set the
    trigger or splice the alarm out; [None] when the loop ends without a
    match. *)
Fixpoint changeFirstAlarm (identifier : string) (trigger : option string)
         (l : list AlarmInfo.t) : option (list AlarmInfo.t) :=
  match l with
  | [] => None
  | a :: rest =>
      if String.eqb (AlarmInfo.alarmIdentifier a) identifier then
        match truthy trigger with
        | Some t => Some (AlarmInfo.create (AlarmInfo.alarmIdentifier a) t :: rest)
        | None => Some rest
        end
      else option_map (cons a) (changeFirstAlarm identifier trigger rest)
  end.

(** [changeAlarm] *)
Definition changeAlarm (vm : CalendarEventViewModel) (identifier : string)
           (trigger : option string) :=
  match changeFirstAlarm identifier trigger (alarms vm) with
  | Some newAlarms => setAlarms vm newAlarms
  | None => vm
  end.

(** The view-models one gets from the constructor through the methods of the
    class and the streams. *)
Inductive Reachable : CalendarEventViewModel -> Prop :=
| reach_new uc mb date zone calendarMap existing vm :
    new_CalendarEventViewModel uc mb date zone calendarMap existing = Some vm ->
    Reachable vm
| reach_streams vm summary' location' allDay' selectedCalendar' :
    Reachable vm -> Reachable (setStreams vm summary' location' allDay' selectedCalendar')
| reach_onStartTimeSelected vm value :
    Reachable vm -> Reachable (onStartTimeSelected vm value)
| reach_onEndTimeSelected vm value :
    Reachable vm -> Reachable (onEndTimeSelected vm value)
| reach_addAttendee vm mailAddress :
    Reachable vm -> Reachable (addAttendee vm mailAddress)
| reach_removeAttendee vm address :
    Reachable vm -> Reachable (removeAttendee vm address)
| reach_onStartDateSelected today vm date :
    Reachable vm -> Reachable (onStartDateSelected today vm date)
| reach_onEndDateSelected vm date :
    Reachable vm -> Reachable (onEndDateSelected vm date)
| reach_onRepeatPeriodSelected vm period :
    Reachable vm -> Reachable (onRepeatPeriodSelected vm period)
| reach_onEndOccurencesSelected vm value :
    Reachable vm -> Reachable (onEndOccurencesSelected vm value)
| reach_onRepeatEndDateSelected vm date :
    Reachable vm -> Reachable (onRepeatEndDateSelected vm date)
| reach_onRepeatIntervalChanged vm value :
    Reachable vm -> Reachable (onRepeatIntervalChanged vm value)
| reach_onRepeatEndTypeChanged today vm newEndType :
    Reachable vm -> Reachable (onRepeatEndTypeChanged today vm newEndType)
| reach_addAlarm now vm trigger :
    Reachable vm -> Reachable (addAlarm now vm trigger)
| reach_changeAlarm vm identifier trigger :
    Reachable vm -> Reachable (changeAlarm vm identifier trigger)
| reach_changeDescription vm description :
    Reachable vm -> Reachable (changeDescription vm description)
| reach_selectGoing vm status vm' :
    Reachable vm -> selectGoing vm status = Some vm' -> Reachable vm'
| reach_onOkPressed now vm :
    Reachable vm -> Reachable (fst (onOkPressed now vm)).

End Form.


(** * The mail distributor *)

Inductive CalendarMethodEnum := REQUEST | REPLY | CANCEL.

(** A recipient as the mail editor takes it. *)
Module Recipient.
Record t := create { name : option string; address : string }.
End Recipient.

(** Helpers the distributor uses: translations, the calendar file and the two
    HTML bodies. The bodies are templates over the event; nothing below
    depends on their text, so they stay behind this interface. *)
Class DistributorUtils := {
  DataFile : Type;
  (** [lang.get(key, replacements)] *)
  lang_get : string -> list (string * string) -> string;
  makeInvitationCalendarFile : CalendarEvent.t -> CalendarMethodEnum -> Date -> string -> DataFile;
  getTimeZone : string;
  makeInviteEmailBody : CalendarEvent.t -> string -> string;
  makeResponseEmailBody :
    CalendarEvent.t -> string -> MailAddress.t -> CalendarAttendeeStatusEnum -> string
}.

Section Distributor.
Context {distributorUtils : DistributorUtils}.

(** A mail as it leaves the editor: what [initWithTemplate] was given, the
    files attached and the method the [beforeSent] hook reports for the first
    of them. [confidential] is [None] where the argument is left out. *)
Record Mail := {
  mailboxDetails : MailboxDetail.t;
  to : list Recipient.t;
  bcc : list Recipient.t;
  subject : string;
  body : string;
  confidential : option bool;
  attachments : list DataFile;
  calendarFileMethod : CalendarMethodEnum }.

(** What a method of the distributor does, in order. *)
Inductive MailStep :=
| GetUserMailboxDetails
| Send (mail : Mail).

(** [recipients.map(({name, address}) => ({name, address}))] *)
Definition asBcc (recipients : list EncryptedMailAddress.t) : list Recipient.t :=
  map (fun r => Recipient.create (EncryptedMailAddress.name r) (EncryptedMailAddress.address r))
      recipients.

(** [sendCalendarFile] after [initWithTemplate] *)
Definition sendCalendarFile (details : MailboxDetail.t) (to_ bcc_ : list Recipient.t)
           (subject_ body_ : string) (confidential_ : option bool)
           (file : DataFile) (method : CalendarMethodEnum) : MailStep :=
  Send {| mailboxDetails := details; to := to_; bcc := bcc_;
          subject := subject_; body := body_; confidential := confidential_;
          attachments := [file]; calendarFileMethod := method |}.

(** [sendInvite]; [mailbox] is how [getUserMailboxDetails()] settles, [today]
    what [new Date()] answers. *)
Definition sendInvite (mailbox : Settled MailboxDetail.t) (today : Date)
           (existingEvent : CalendarEvent.t) (recipients : list EncryptedMailAddress.t)
  : list MailStep * Settled unit :=
  match mailbox with
  | Rejected e => ([GetUserMailboxDetails], Rejected e)
  | Fulfilled details =>
      match CalendarEvent.organizer existingEvent with
      | None =>
          ([GetUserMailboxDetails],
           Rejected (OtherError "Cannot send invite if organizer is not sent"))
      | Some _ =>
          let message :=
            lang_get "eventInviteMail_msg"
              [("{event}", CalendarEvent.summary existingEvent)] in
          let inviteFile :=
            makeInvitationCalendarFile existingEvent REQUEST today getTimeZone in
          ([GetUserMailboxDetails;
            sendCalendarFile details [] (asBcc recipients) message
              (makeInviteEmailBody existingEvent message) (Some false)
              inviteFile REQUEST],
           Fulfilled tt)
      end
  end.

(** [sendUpdate] *)
Definition sendUpdate (mailbox : Settled MailboxDetail.t) (today : Date)
           (event : CalendarEvent.t) (recipients : list EncryptedMailAddress.t)
  : list MailStep * Settled unit :=
  match mailbox with
  | Rejected e => ([GetUserMailboxDetails], Rejected e)
  | Fulfilled details =>
      ([GetUserMailboxDetails;
        sendCalendarFile details [] (asBcc recipients)
          (lang_get "eventUpdated_msg" [("{event}", CalendarEvent.summary event)])
          (makeInviteEmailBody event "") None
          (makeInvitationCalendarFile event REQUEST today getTimeZone) REQUEST],
       Fulfilled tt)
  end.

(** [sendCancellation] *)
Definition sendCancellation (mailbox : Settled MailboxDetail.t) (today : Date)
           (event : CalendarEvent.t) (recipients : list EncryptedMailAddress.t)
  : list MailStep * Settled unit :=
  match mailbox with
  | Rejected e => ([GetUserMailboxDetails], Rejected e)
  | Fulfilled details =>
      ([GetUserMailboxDetails;
        sendCalendarFile details [] (asBcc recipients)
          (lang_get "eventCancelled_msg" [("{event}", CalendarEvent.summary event)])
          (makeInviteEmailBody event "") None
          (makeInvitationCalendarFile event CANCEL today getTimeZone) CANCEL],
       Fulfilled tt)
  end.

(** [sendResponse] *)
Definition sendResponse (mailbox : Settled MailboxDetail.t) (today : Date)
           (event : CalendarEvent.t) (sender : MailAddress.t)
           (status : CalendarAttendeeStatusEnum)
  : list MailStep * Settled unit :=
  match CalendarEvent.organizer event with
  | None =>
      ([], Rejected (OtherError "Cannot send calendar invitation response without organizer"))
  | Some organizerAddress =>
      match mailbox with
      | Rejected e => ([GetUserMailboxDetails], Rejected e)
      | Fulfilled details =>
          let message :=
            lang_get "repliedToEventInvite_msg"
              [("{sender}",
                match truthy (MailAddress.name sender) with
                | Some senderName => senderName
                | None => MailAddress.address sender
                end)] in
          ([GetUserMailboxDetails;
            sendCalendarFile details [Recipient.create (Some "") organizerAddress] []
              message (makeResponseEmailBody event message sender status) (Some false)
              (makeInvitationCalendarFile event REPLY today getTimeZone) REPLY],
           Fulfilled tt)
      end
  end.

(** The mails among the steps. *)
Definition mailsSent (steps : list MailStep) : list Mail :=
  flat_map (fun step => match step with Send mail => [mail] | GetUserMailboxDetails => [] end)
           steps.

(** What the distributor does for a call the view-model makes on it. *)
Definition distribute (mailbox : Settled MailboxDetail.t) (today : Date) (c : Call)
  : list MailStep * Settled unit :=
  match c with
  | Distributor_sendInvite event recipients => sendInvite mailbox today event recipients
  | Distributor_sendUpdate event recipients => sendUpdate mailbox today event recipients
  | Distributor_sendCancellation event recipients =>
      sendCancellation mailbox today event recipients
  | Distributor_sendResponse event sender status =>
      sendResponse mailbox today event sender status
  | _ => ([], Fulfilled tt)
  end.

End Distributor.


(** * Opening an event from a file *)

Inductive FileOutcome :=
| CannotOpenEvent
| ShowCalendarEventDialog (date : Date) (calendarInfo : JsMap CalendarInfo.t)
    (mailboxDetails : MailboxDetail.t) (event : CalendarEvent.t).

(** [event.isCopy = value] *)
Definition withIsCopy (e : CalendarEvent.t) (value : bool) : CalendarEvent.t :=
  CalendarEvent.create (CalendarEvent._id e) (CalendarEvent._ownerGroup e)
    (CalendarEvent.summary e) (CalendarEvent.description e) (CalendarEvent.location e)
    (CalendarEvent.startTime e) (CalendarEvent.endTime e) (CalendarEvent.uid e)
    (CalendarEvent.sequence e) (CalendarEvent.organizer e) (CalendarEvent.attendees e)
    (CalendarEvent.repeatRule e) (CalendarEvent.alarmInfos e) value.

Section Invites.
(** The file as downloaded, and [parseCalendarFile]: [None] when it throws,
    else the events of the file with their alarms. *)
Variable FileData : Type.
Variable parseCalendarFile : FileData -> option (list (CalendarEvent.t * list AlarmInfo.t)).

(** [getParsedEvent] *)
Definition getParsedEvent (fileData : FileData) : option (CalendarEvent.t * string) :=
  match parseCalendarFile fileData with
  | Some contents =>
      match contents with
      | parsedEventWithAlarms :: _ =>
          match truthy (CalendarEvent.uid (fst parsedEventWithAlarms)) with
          | Some u => Some (fst parsedEventWithAlarms, u)
          | None => None
          end
      | [] => None
      end
  | None => None
  end.

(** [showEventDetailsFromFile], once the file is downloaded: [getEventByUid]
    is the lookup of the worker, [calendarInfo] and [mailboxDetails] what the
    two other promises are fulfilled with. *)
Definition showEventDetailsFromFile (fileData : FileData)
           (getEventByUid : string -> option CalendarEvent.t)
           (calendarInfo : JsMap CalendarInfo.t) (mailboxDetails : MailboxDetail.t)
  : FileOutcome :=
  match getParsedEvent fileData with
  | None => CannotOpenEvent
  | Some (parsedEvent, uid) =>
      match getEventByUid uid with
      | Some existingEvent =>
          ShowCalendarEventDialog (CalendarEvent.startTime existingEvent) calendarInfo
            mailboxDetails existingEvent
      | None =>
          ShowCalendarEventDialog (CalendarEvent.startTime parsedEvent) calendarInfo
            mailboxDetails (withIsCopy parsedEvent true)
      end
  end.

End Invites.


(** * Mails about shared calendars *)

Module RecipientInfo.
Record t := create { name : option string; mailAddress : string }.
End RecipientInfo.

(** The mail [_sendNotificationEmail] hands to the editor and sends. *)
Module NotificationMail.
Record t := create {
  to : list Recipient.t;
  bcc : list Recipient.t;
  subject : string;
  body : string;
  confidential : bool;
  sender : string }.
End NotificationMail.

Section Sharing.
(** [mailModel.getUserMailboxDetails()], the two helpers of MailUtils,
    [lang.get] with its optional replacements and [getCalendarName]. *)
Variable userMailboxDetails : MailboxDetail.t.
Variable getEnabledMailAddresses : MailboxDetail.t -> list string.
Variable getDefaultSender : MailboxDetail.t -> string.
Variable translate : string -> option (list (string * string)) -> string.
Variable getCalendarName : string -> string.

(** [list.map(({name, mailAddress}) => ({name, address: mailAddress}))] *)
Definition asRecipients (l : list RecipientInfo.t) : list Recipient.t :=
  map (fun r => Recipient.create (RecipientInfo.name r) (RecipientInfo.mailAddress r)) l.

(** [_sendNotificationEmail] *)
Definition _sendNotificationEmail (sharedGroupName : string)
           (recipients bccRecipients : list RecipientInfo.t) (subjectKey bodyKey : string)
           (senderMailAddress : string) (replacements : option (list (string * string)))
  : NotificationMail.t :=
  let sender_ :=
    if includes (getEnabledMailAddresses userMailboxDetails) senderMailAddress
    then senderMailAddress
    else getDefaultSender userMailboxDetails in
  NotificationMail.create (asRecipients recipients) (asRecipients bccRecipients)
    (translate subjectKey None) (translate bodyKey replacements) true sender_.

(** [sendShareNotificationEmail]; [sharedGroupInfoName] is
    [sharedGroupInfo.name]. *)
Definition sendShareNotificationEmail (sharedGroupInfoName : string)
           (recipients : list RecipientInfo.t) : NotificationMail.t :=
  let senderMailAddress := getDefaultSender userMailboxDetails in
  _sendNotificationEmail sharedGroupInfoName [] recipients
    "shareCalendarInvitationEmailSubject" "shareCalendarInvitationEmailBody"
    senderMailAddress
    (Some [("{inviter}", senderMailAddress);
           ("{calendarName}", getCalendarName sharedGroupInfoName)]).

(** [sendAcceptNotificationEmail] *)
Definition sendAcceptNotificationEmail (sharedGroupName : string)
           (recipient : RecipientInfo.t) (senderMailAddress : string) : NotificationMail.t :=
  _sendNotificationEmail sharedGroupName [recipient] []
    "acceptCalendarEmailSubject" "acceptCalendarEmailBody" senderMailAddress
    (Some [("{invitee}", senderMailAddress);
           ("{calendarName}", sharedGroupName);
           ("{recipientName}", RecipientInfo.mailAddress recipient)]).

(** [sendRejectNotificationEmail] *)
Definition sendRejectNotificationEmail (sharedGroupName : string)
           (recipient : RecipientInfo.t) (senderMailAddress : string) : NotificationMail.t :=
  _sendNotificationEmail sharedGroupName [recipient] []
    "rejectCalendarEmailSubject" "rejectCalendarEmailBody" senderMailAddress None.

(** [sendDeletionNotificationEmail] *)
Definition sendDeletionNotificationEmail (sharedGroupName : string)
           (recipients : list RecipientInfo.t) (senderMailAddress : string)
  : NotificationMail.t :=
  _sendNotificationEmail sharedGroupName recipients []
    "deleteCalendarEmailSubject" "deleteCalendarEmailBody" senderMailAddress None.

End Sharing.


(** * The buttons of the dialog *)

Inductive DialogState :=
| DialogOpen
| DialogClosed
| DialogError (key : TranslationKeyType).

Section Dialog.
Context {utils : CalendarUtils}.

(** [okAction]: [editorValue] is what the description editor holds, [answer]
    what the user answers to [Dialog.confirm]. The result is the view-model,
    the calls made and what became of the dialog; a rejected promise leaves
    it open. *)
Definition okAction (now : Date) (vm : CalendarEventViewModel) (editorValue : string)
           (answer : bool) (world : Collaborators) (trace : list Call)
  : CalendarEventViewModel * list Call * DialogState :=
  let saved := onOkPressed now (changeDescription vm editorValue) in
  match snd saved world trace with
  | (trace1, Fulfilled (ok (Some pending))) =>
      match askForUpdates (fst saved) pending answer world trace1 with
      | (trace2, Fulfilled _) => (fst saved, trace2, DialogClosed)
      | (trace2, Rejected _) => (fst saved, trace2, DialogOpen)
      end
  | (trace1, Fulfilled (ok None)) => (fst saved, trace1, DialogClosed)
  | (trace1, Fulfilled (error key)) => (fst saved, trace1, DialogError key)
  | (trace1, Rejected _) => (fst saved, trace1, DialogOpen)
  end.

End Dialog.


(** * Vocabulary of the properties *)

(** An owner group id, when there is one, is a generated id: never the empty
    string (which JavaScript treats like a missing id). *)
Definition ownerGroupWellFormed (existing : option CalendarEvent.t) : Prop :=
  forall ev, existing = Some ev -> CalendarEvent._ownerGroup ev <> Some "".

(** The calendar that owns an event among the calendars of the viewer. *)
Definition owningCalendar (calendarMap : JsMap CalendarInfo.t) (ev : CalendarEvent.t)
  : option CalendarInfo.t :=
  match CalendarEvent._ownerGroup ev with
  | Some g => Map_get calendarMap g
  | None => None
  end.

(** The attendees saved last: those of the existing event, none without one. *)
Definition priorAttendees (existing : option CalendarEvent.t) : list CalendarEventAttendee.t :=
  match existing with
  | Some ev => CalendarEvent.attendees ev
  | None => []
  end.

(** [a]'s address is one of the addresses of [l]. *)
Definition addressIn (l : list CalendarEventAttendee.t) (a : CalendarEventAttendee.t) : Prop :=
  In (addressOf a) (map addressOf l).

(** No attendee of [l1] shares its address with an attendee of [l2]. *)
Definition addressDisjoint (l1 l2 : list CalendarEventAttendee.t) : Prop :=
  forall a b, In a l1 -> In b l2 -> addressOf a <> addressOf b.

(** A count that is less than 1. *)
Definition lessThanOne (n : JsNumber) : Prop :=
  match n with
  | Finite q => (q < 1)%Q
  | NegInfinity => True
  | NaN | PosInfinity => False
  end.

(** The calls that persist an event. *)
Definition isPersist (c : Call) : bool :=
  match c with
  | CalendarModel_createEvent _ _ _ _ | CalendarModel_updateEvent _ _ _ _ _ => true
  | _ => false
  end.

(** The calls that send mail. *)
Definition isMail (c : Call) : bool :=
  match c with
  | Distributor_sendInvite _ _ | Distributor_sendUpdate _ _
  | Distributor_sendCancellation _ _ | Distributor_sendResponse _ _ _ => true
  | _ => false
  end.

(** Position of a mail in the order update, invite, cancellation. *)
Definition mailRank (c : Call) : Z :=
  match c with
  | Distributor_sendUpdate _ _ => 1
  | Distributor_sendInvite _ _ => 2
  | Distributor_sendCancellation _ _ => 3
  | _ => 0
  end.

(** The call [doCreateEvent] makes. *)
Definition persistCall (vm : CalendarEventViewModel) (newEvent : CalendarEvent.t)
           (newAlarms : list AlarmInfo.t) (groupRoot : CalendarGroupRoot.t) : Call :=
  match existingEvent vm with
  | None => CalendarModel_createEvent (seenThrough vm newEvent) newAlarms (_zone vm) groupRoot
  | Some existing =>
      CalendarModel_updateEvent (seenThrough vm newEvent) newAlarms (_zone vm) groupRoot existing
  end.

(** The mails a confirmed save owes, in the order they are owed: the update
    to the retained guests, the invite to the new ones, the cancellation to
    the removed ones, each only if it has a recipient. *)
Definition mailsDue (newEvent : CalendarEvent.t) (d : AttendeeDiff) : list Call :=
  (if isEmpty (existingAttendees d) then []
   else [Distributor_sendUpdate newEvent (_distributionAddresses (existingAttendees d))])
  ++ (if isEmpty (newAttendees d) then []
      else [Distributor_sendInvite newEvent (_distributionAddresses (newAttendees d))])
  ++ (if isEmpty (removedAttendees d) then []
      else [Distributor_sendCancellation newEvent
              (_distributionAddresses (removedAttendees d))]).

(** The diff lists a closure captured. *)
Definition pendingDiff (p : PendingSave) : AttendeeDiff :=
  {| existingAttendees := pendingExisting p;
     newAttendees := pendingNew p;
     removedAttendees := pendingRemoved p |}.

(** The first failure of a delete flow, with not-found swallowed. *)
Definition swallowNotFound (s : Settled unit) : Settled (option bool) :=
  match s with
  | Fulfilled _ => Fulfilled None
  | Rejected NotFoundError => Fulfilled None
  | Rejected e => Rejected e
  end.


(** The event a call carries. *)
Definition eventOfCall (c : Call) : CalendarEvent.t :=
  match c with
  | CalendarModel_createEvent event _ _ _ => event
  | CalendarModel_updateEvent event _ _ _ _ => event
  | CalendarModel_deleteEvent event => event
  | Distributor_sendInvite event _ => event
  | Distributor_sendUpdate event _ => event
  | Distributor_sendCancellation event _ => event
  | Distributor_sendResponse event _ _ => event
  end.


(** * Scenarios

    A concrete instance of the helper interface (every zone is UTC, numbers
    are printed as whole numbers) and the fixtures of the view-model's test
    suite. *)

Module Scenario.

Definition day : Z := 86400000.

Definition startOfDay (d : Date) : Date := d - d mod day.

Definition decimal (n : Z) : string := NilZero.string_of_int (Z.to_int n).

Definition twoDigits (n : Z) : string :=
  if n <? 10 then String.append "0" (decimal n) else decimal n.

Definition timeOfDay (d : Date) : string :=
  String.append (twoDigits ((d mod day) / 3600000))
    (String.append ":" (twoDigits (((d mod day) mod 3600000) / 60000))).

Definition parseWhole (s : string) : JsNumber :=
  match NilZero.int_of_string s with
  | Some i => Finite (inject_Z (Z.of_int i))
  | None => NaN
  end.

Definition parseTime24 (s : string) : option ParsedTime :=
  if (String.length s =? 5)%nat then
    match String.get 2 s,
          NilZero.int_of_string (substring 0 2 s),
          NilZero.int_of_string (substring 3 2 s) with
    | Some ":"%char, Some h, Some m =>
        if (0 <=? Z.of_int h) && (Z.of_int h <=? 23)
           && (0 <=? Z.of_int m) && (Z.of_int m <=? 59)
        then Some {| hours := Z.of_int h; minutes := Z.of_int m |}
        else None
    | _, _, _ => None
    end
  else None.

Definition printNumber (n : JsNumber) : string :=
  match n with
  | NaN => "NaN"
  | PosInfinity => "Infinity"
  | NegInfinity => "-Infinity"
  | Finite q => decimal (Qfloor q)
  end.

Definition capabilityRank (c : ShareCapabilityEnum) : Z :=
  match c with Read => 0 | Write => 1 | Invite => 2 end.

Definition hasCapability (user : User.t) (group : Group.t) (required : ShareCapabilityEnum)
  : bool :=
  match Group.type group with
  | CalendarGroup =>
      match Group.user group with
      | Some owner => String.eqb owner (User._id user)
      | None => false
      end
      || match find (fun gm => String.eqb (GroupMembership.group gm) (Group._id group))
                 (User.memberships user) with
         | Some gm =>
             match GroupMembership.capability gm with
             | Some c => capabilityRank required <=? capabilityRank c
             | None => false
             end
         | None => false
         end
  | OtherGroup => false
  end.

Definition periodLength (p : RepeatPeriodEnum) : Z :=
  match p with
  | DAILY => day
  | WEEKLY => 7 * day
  | MONTHLY => 30 * day
  | ANNUALLY => 365 * day
  end.

Definition blankEvent : CalendarEvent.t :=
  CalendarEvent.create None None "" "" "" 0 0 None "0" None [] None [] false.

#[local] Instance utils : CalendarUtils := {|
  parseTime := parseTime24;
  timeString := fun d _ => timeOfDay d;
  timeStringInZone := fun d _ _ => timeOfDay d;
  getStartOfDayWithZone := fun d _ => startOfDay d;
  getStartOfNextDayWithZone := fun d _ => startOfDay d + day;
  getAllDayDateUTCFromZone := fun d _ => d;
  getAllDayDateForTimezone := fun d _ => d;
  getEventStart := fun e _ => CalendarEvent.startTime e;
  getEventEnd := fun e _ => CalendarEvent.endTime e;
  isAllDayEvent := fun e =>
    (CalendarEvent.startTime e mod day =? 0) && (CalendarEvent.endTime e mod day =? 0);
  incrementDate := fun d n => d + n * day;
  incrementByRepeatPeriod := fun d p n _ => d + n * periodLength p;
  createRepeatRuleWithValues := fun f i => RepeatRule.create f (printNumber i) Never None "UTC";
  createCalendarEvent := blankEvent;
  defaultMailAddressName := None;
  generateUid := fun _ now => String.append (decimal now) "@tutanota.com";
  filterInt := parseWhole;
  hasCapabilityOnGroup := hasCapability;
  getDefaultSenderFromUser := IUserController.defaultSender;
  getEnabledMailAddressesWithUser := fun _ info =>
    match GroupInfo.mailAddress info with Some a => [a] | None => [] end
    ++ map MailAddressAlias.mailAddress
         (filter MailAddressAlias.enabled (GroupInfo.mailAddressAliases info));
  setHourMinute := fun d _ h m => startOfDay d + h * 3600000 + m * 60000;
  plusMinutes := fun d n => d + n * 60000;
  numberToString := printNumber;
  stringToNumber := parseWhole;
  dateOfNumber := fun n => match n with Finite q => Qfloor q | _ => 0 end
|}.

Definition calendarGroupId : Id := "0".
Definition mailAddress : string := "address@tutanota.com".
Definition userId : Id := "12356".
Definition zone : string := "UTC".

(** 2020-05-25 13:40 *)
Definition now : Date := 1590414000000.

Definition makeCalendars (shared : bool) : JsMap CalendarInfo.t :=
  [(calendarGroupId,
    CalendarInfo.create (CalendarGroupRoot.create "groupRoot")
      (Group.create calendarGroupId CalendarGroup None) shared)].

Definition makeUserController (memberships : list GroupMembership.t) : IUserController.t :=
  IUserController.create (User.create userId memberships) mailAddress
    (GroupInfo.create (Some mailAddress) []) TWENTY_FOUR_HOURS.

Definition makeMailboxDetail : MailboxDetail.t :=
  MailboxDetail.create (GroupInfo.create None [])
    (Group.create "mailGroup" OtherGroup (Some userId)).

Definition makeAttendee (address : string) (status : CalendarAttendeeStatusEnum) :=
  CalendarEventAttendee.create (EncryptedMailAddress.create None address) status.

Definition init (userController : IUserController.t) (calendarMap : JsMap CalendarInfo.t)
           (existing : option CalendarEvent.t) : option CalendarEventViewModel :=
  new_CalendarEventViewModel userController makeMailboxDetail now zone calendarMap existing.

(** The value of an option known to hold one. *)
Definition valueOf {A} (o : option A) : isSome o = true -> A :=
  match o with
  | Some a => fun _ => a
  | None => fun H => match Bool.diff_false_true H with end
  end.

(** An invitation from somebody else, kept as a copy: the viewer has not
    answered yet, another guest has declined. 2020-06-01 to 2020-06-02. *)
Definition invitation : CalendarEvent.t :=
  CalendarEvent.create (Some ("listId", "eventId")) None "" "" ""
    1590969600000 1591056000000 None "0" (Some "another-address@example.com")
    [makeAttendee mailAddress NEEDS_ACTION;
     makeAttendee "another-attendee@example.com" DECLINED]
    None [] true.

(** The view-model opened on the invitation, after the viewer chose to accept. *)
Definition invitedVm : CalendarEventViewModel :=
  Eval vm_compute in
    valueOf (match init (makeUserController []) (makeCalendars false) (Some invitation) with
             | Some vm => selectGoing vm ACCEPTED
             | None => None
             end) eq_refl.

Definition assembledEvent (a : Assembly) : CalendarEvent.t :=
  match a with
  | Assembled newEvent _ => newEvent
  | _ => blankEvent
  end.

Definition invitedEvent : CalendarEvent.t :=
  Eval vm_compute in assembledEvent (assembleEvent now invitedVm).

(** The viewer's own event with two guests. 2020-05-05 16:00 to 2020-05-06 20:00. *)
Definition ownEvent : CalendarEvent.t :=
  CalendarEvent.create (Some ("listId", "eventId")) (Some calendarGroupId) "" "" ""
    1588694400000 1588795200000 None "0" (Some mailAddress)
    [makeAttendee "old-attendee@example.com" NEEDS_ACTION;
     makeAttendee "remove-attendee@example.com" NEEDS_ACTION]
    None [] false.

Definition ownVm : CalendarEventViewModel :=
  Eval vm_compute in
    valueOf (init (makeUserController []) (makeCalendars false) (Some ownEvent)) eq_refl.

(** The same view-model after one guest was added and one removed. *)
Definition editedVm : CalendarEventViewModel :=
  Eval vm_compute in
    removeAttendee (addAttendee ownVm "new-attendee@example.com")
      "remove-attendee@example.com".

Definition editedEvent : CalendarEvent.t :=
  Eval vm_compute in assembledEvent (assembleEvent now editedVm).

Definition groupRoot : CalendarGroupRoot.t := CalendarGroupRoot.create "groupRoot".

(** A new event that repeats daily and ends after a count that is no number. *)
Definition countlessVm : CalendarEventViewModel :=
  Eval vm_compute in
    onEndOccurencesSelected
      (onRepeatEndTypeChanged now
         (onRepeatPeriodSelected
            (valueOf (init (makeUserController []) (makeCalendars false) None) eq_refl)
            (Some DAILY))
         Count)
      NaN.

(** Collaborators that fulfil every call. *)
Definition allFulfilled : Collaborators := fun _ _ => Fulfilled tt.

(** An event in a shared calendar. *)
Definition sharedEvent : CalendarEvent.t :=
  CalendarEvent.create (Some ("listId", "eventId")) (Some calendarGroupId) "existing event"
    "" "" 1590494400000 1590498000000 None "0" (Some "another-user@provider.com")
    [] None [] false.

Definition blankPending : PendingSave :=
  {| pendingEvent := blankEvent; pendingAlarms := []; pendingGroupRoot := groupRoot;
     pendingExisting := []; pendingNew := []; pendingRemoved := [] |}.

(** The closure the save of the edited own event hands out. *)
Definition editedPending : PendingSave :=
  Eval vm_compute in
    match snd (onOkPressed now editedVm) allFulfilled [] with
    | (_, Fulfilled (ok (Some pending))) => pending
    | _ => blankPending
    end.

(** The helpers of the dialog and of the distributor, as plain as the others. *)
#[local] Instance dialogUtils : DialogUtils := {|
  timeStringFromParts := fun h m _ =>
    String.append (twoDigits h) (String.append ":" (twoDigits m));
  getFullYear := fun d => 1970 + d / (365 * day);
  setFullYear := fun d y => d + (y - (1970 + d / (365 * day))) * (365 * day);
  getDiffInDays := fun a b => Finite (inject_Z ((a - b) / day));
  plusDays := fun d _ n => match n with Finite q => d + Qfloor q * day | _ => d end;
  generateEventElementId := decimal
|}.

#[local] Instance distributorUtils : DistributorUtils := {|
  DataFile := string;
  lang_get := fun key _ => key;
  makeInvitationCalendarFile := fun _ _ _ _ => "invite.ics";
  getTimeZone := "UTC";
  makeInviteEmailBody := fun _ message => message;
  makeResponseEmailBody := fun _ message _ _ => message
|}.

(** The view-model of a new event, and the same with a first guest. *)
Definition newVm : CalendarEventViewModel :=
  Eval vm_compute in
    valueOf (init (makeUserController []) (makeCalendars false) None) eq_refl.

Definition guestVm : CalendarEventViewModel :=
  Eval vm_compute in addAttendee newVm "new-attendee@example.com".

Definition guestEvent : CalendarEvent.t :=
  Eval vm_compute in assembledEvent (assembleEvent now guestVm).

(** The invited view-model once saved, and the event a second save assembles. *)
Definition savedInvitedVm : CalendarEventViewModel :=
  Eval vm_compute in fst (onOkPressed now invitedVm).

Definition savedInvitedEvent : CalendarEvent.t :=
  Eval vm_compute in assembledEvent (assembleEvent now savedInvitedVm).

(** The own event with an end time that is no time. *)
Definition badTimeVm : CalendarEventViewModel :=
  Eval vm_compute in onEndTimeSelected ownVm "25:99".

(** A new daily event that ends after three occurrences. *)
Definition countedVm : CalendarEventViewModel :=
  Eval vm_compute in
    onEndOccurencesSelected
      (onRepeatEndTypeChanged now (onRepeatPeriodSelected newVm (Some DAILY)) Count)
      (Finite 3).

(** The own event, 16:00 to 20:00, with the start moved to 17:00 and the old
    start time remembered. *)
Definition movedVm : CalendarEventViewModel :=
  Eval vm_compute in setTimes ownVm "17:00" "20:00" (Some "16:00").

(** A store that is out of reach, and a distributor that fails to cancel. *)
Definition storeFails : Collaborators :=
  fun _ c => if isPersist c then Rejected (OtherError "offline") else Fulfilled tt.

Definition cancellationFails : Collaborators :=
  fun _ c =>
    match c with
    | Distributor_sendCancellation _ _ => Rejected (OtherError "not sent")
    | _ => Fulfilled tt
    end.

(** A file with one event that has a uid, and a worker that knows no event. *)
Definition fileEvent : CalendarEvent.t :=
  CalendarEvent.create None None "from a file" "" "" 1590494400000 1590498000000
    (Some "uid-1") "0" (Some "another-user@provider.com") [] None [] false.

Definition parseFile (fileData : string) : option (list (CalendarEvent.t * list AlarmInfo.t)) :=
  if String.eqb fileData "" then None else Some [(fileEvent, [])].

Definition sharedCalendar : CalendarInfo.t :=
  CalendarInfo.create (CalendarGroupRoot.create "groupRoot")
    (Group.create calendarGroupId CalendarGroup None) true.

End Scenario.


(** * Properties *)

Lemma status_eqb_eq a b : status_eqb a b = true <-> a = b.
Proof. destruct a, b; simpl; split; intro H; try reflexivity; discriminate H. Qed.

Section Permissions.
Context {utils : CalendarUtils}.

Lemma truthy_wellFormed (g : option string) :
  g <> Some "" ->
  truthy g = g.
Proof.
  destruct g as [s|]; simpl; intros Hne; [|reflexivity].
  destruct (String.eqb_spec s ""); [subst; contradiction|reflexivity].
Qed.

Lemma eventType_eqb_eq a b : eventType_eqb a b = true <-> a = b.
Proof. destruct a, b; simpl; split; intro H; try reflexivity; discriminate H. Qed.

(** [assertNotNull] never fails: SHARED_RW is only given to an existing event. *)
Lemma readOnlyFor_defined user calendarMap existing :
  exists b, readOnlyFor (eventTypeFor user calendarMap existing) existing = Some b.
Proof.
  unfold readOnlyFor. destruct existing as [ev|]; simpl.
  - destruct (negb _ && negb _); [|eauto]. destruct (negb _); eauto.
  - eauto.
Qed.

(** The fields the constructor computes for the permission rules. *)
Lemma new_CalendarEventViewModel_fields uc mb date zone calendarMap existing vm :
  new_CalendarEventViewModel uc mb date zone calendarMap existing = Some vm ->
  _eventType vm = eventTypeFor (IUserController.user uc) calendarMap existing
  /\ readOnlyFor (_eventType vm) existing = Some (readOnly vm)
  /\ existingEvent vm = existing
  /\ _user vm = IUserController.user uc.
Proof.
  unfold new_CalendarEventViewModel.
  destruct (readOnlyFor _ existing) as [b|] eqn:Hro; [|discriminate].
  intros Hvm. injection Hvm as <-.
  destruct existing; simpl; rewrite ?Hro; auto.
Qed.

Lemma new_CalendarEventViewModel_succeeds uc mb date zone calendarMap existing :
  exists vm, new_CalendarEventViewModel uc mb date zone calendarMap existing = Some vm.
Proof.
  unfold new_CalendarEventViewModel.
  destruct (readOnlyFor_defined (IUserController.user uc) calendarMap existing) as [b ->].
  eauto.
Qed.

(** C1. The constructor classifies the event by first match: no existing event
    is OWN; an existing event whose owning calendar is not among the viewer's
    calendars is INVITE; in a shared calendar it is SHARED_RW with the Write
    capability on the calendar's group and SHARED_RO without; in a personal
    calendar it is INVITE for a copy and OWN otherwise. *)
Theorem eventType_first_match uc mb date zone calendarMap existing :
  ownerGroupWellFormed existing ->
  exists vm,
    new_CalendarEventViewModel uc mb date zone calendarMap existing = Some vm
    /\ _eventType vm =
       match existing with
       | None => OWN
       | Some ev =>
           match owningCalendar calendarMap ev with
           | None => INVITE
           | Some calendar =>
               if CalendarInfo.shared calendar then
                 if hasCapabilityOnGroup (IUserController.user uc)
                      (CalendarInfo.group calendar) Write
                 then SHARED_RW else SHARED_RO
               else if CalendarEvent.isCopy ev then INVITE else OWN
           end
       end.
Proof.
  intros Hwf.
  destruct (new_CalendarEventViewModel_succeeds uc mb date zone calendarMap existing)
    as [vm Hvm].
  exists vm. split; [exact Hvm|].
  apply new_CalendarEventViewModel_fields in Hvm as (-> & _).
  destruct existing as [ev|]; [|reflexivity].
  unfold eventTypeFor, owningCalendar.
  rewrite (truthy_wellFormed (Hwf ev eq_refl)).
  destruct (CalendarEvent._ownerGroup ev); reflexivity.
Qed.

(** C2. [readOnly] holds exactly for SHARED_RO, and for SHARED_RW when the
    existing event has attendees at construction; so it is false for OWN, for
    INVITE and for SHARED_RW on an event without guests. *)
Theorem readOnly_iff_shared_ro_or_rw_with_guests uc mb date zone calendarMap existing :
  exists vm,
    new_CalendarEventViewModel uc mb date zone calendarMap existing = Some vm
    /\ (readOnly vm = true <->
        _eventType vm = SHARED_RO
        \/ (_eventType vm = SHARED_RW
            /\ exists ev, existing = Some ev /\ CalendarEvent.attendees ev <> []))
    /\ (_eventType vm = OWN \/ _eventType vm = INVITE -> readOnly vm = false)
    /\ (forall ev, _eventType vm = SHARED_RW -> existing = Some ev ->
                   CalendarEvent.attendees ev = [] -> readOnly vm = false).
Proof.
  destruct (new_CalendarEventViewModel_succeeds uc mb date zone calendarMap existing)
    as [vm Hvm].
  exists vm. split; [exact Hvm|].
  apply new_CalendarEventViewModel_fields in Hvm as (_ & Hro & _).
  unfold readOnlyFor in Hro.
  repeat split.
  - intros Htrue. rewrite Htrue in Hro.
    destruct (_eventType vm); simpl in Hro; try discriminate; auto.
    right. split; [reflexivity|].
    destruct existing as [ev|]; [|discriminate].
    exists ev. split; [reflexivity|].
    destruct (CalendarEvent.attendees ev); [discriminate|discriminate].
  - intros [Hty | (Hty & ev & -> & Hne)]; rewrite Hty in Hro; simpl in Hro.
    + congruence.
    + destruct (CalendarEvent.attendees ev); [contradiction|]. simpl in Hro. congruence.
  - intros [Hty | Hty]; rewrite Hty in Hro; simpl in Hro; congruence.
  - intros ev Hty -> Hnil. rewrite Hty, Hnil in Hro. simpl in Hro. congruence.
Qed.

End Permissions.


(** ** Attendee diff *)

Section Diff.
Context {utils : CalendarUtils}.

Lemma includes_In l x : includes l x = true <-> In x l.
Proof.
  unfold includes. rewrite existsb_exists. split.
  - intros (y & Hin & Heq). apply String.eqb_eq in Heq. now subst.
  - intros Hin. exists x. split; [exact Hin|apply String.eqb_refl].
Qed.

Lemma includes_not_In l x : includes l x = false <-> ~ In x l.
Proof.
  rewrite <- includes_In. destruct (includes l x); split; congruence.
Qed.

Lemma findByAddress_In l x : isSome (findByAddress l x) = true <-> In x (map addressOf l).
Proof.
  unfold findByAddress. induction l as [|a l IH]; simpl.
  - split; [discriminate|contradiction].
  - destruct (String.eqb_spec (addressOf a) x) as [Heq|Hne]; simpl.
    + split; auto.
    + rewrite IH. split; [auto|]. intros [H|H]; [contradiction|exact H].
Qed.

Lemma findByAddress_not_In l x :
  isSome (findByAddress l x) = false <-> ~ In x (map addressOf l).
Proof.
  rewrite <- findByAddress_In. destruct (isSome _); split; congruence.
Qed.

(** The [forEach] with its two [push]es, from any pair of accumulators. *)
Lemma splitCurrent_fold own prior current :
  forall ex nw,
    fold_left
      (fun acc a =>
         if includes own (addressOf a) then acc
         else if isSome (findByAddress prior (addressOf a))
              then (fst acc ++ [a], snd acc)
              else (fst acc, snd acc ++ [a]))
      current (ex, nw) =
    (ex ++ filter (fun a => negb (includes own (addressOf a))
                            && isSome (findByAddress prior (addressOf a))) current,
     nw ++ filter (fun a => negb (includes own (addressOf a))
                            && negb (isSome (findByAddress prior (addressOf a)))) current).
Proof.
  induction current as [|a rest IH]; intros ex nw; simpl.
  - now rewrite !app_nil_r.
  - destruct (includes own (addressOf a)); simpl.
    + apply IH.
    + destruct (isSome (findByAddress prior (addressOf a))); simpl;
        rewrite IH; simpl; now rewrite <- app_assoc.
Qed.

(** The [forEach] computes two filters. *)
Lemma splitCurrent_filter own prior current :
  splitCurrent own prior current =
  (filter (fun a => negb (includes own (addressOf a))
                    && isSome (findByAddress prior (addressOf a))) current,
   filter (fun a => negb (includes own (addressOf a))
                    && negb (isSome (findByAddress prior (addressOf a)))) current).
Proof.
  unfold splitCurrent. now rewrite splitCurrent_fold.
Qed.

Lemma existingAttendees_spec own existing current a :
  In a (existingAttendees (attendeeDiff own existing current)) <->
  In a current /\ ~ In (addressOf a) own /\ addressIn (priorAttendees existing) a.
Proof.
  unfold attendeeDiff, addressIn. destruct existing as [ev|]; simpl.
  - rewrite splitCurrent_filter. simpl.
    rewrite filter_In, andb_true_iff, negb_true_iff, includes_not_In, findByAddress_In.
    tauto.
  - tauto.
Qed.

Lemma newAttendees_spec own existing current a :
  In a (newAttendees (attendeeDiff own existing current)) <->
  In a current /\ ~ In (addressOf a) own /\ ~ addressIn (priorAttendees existing) a.
Proof.
  unfold attendeeDiff, addressIn. destruct existing as [ev|]; simpl.
  - rewrite splitCurrent_filter. simpl.
    rewrite filter_In, andb_true_iff, !negb_true_iff, includes_not_In, findByAddress_not_In.
    tauto.
  - rewrite filter_In, negb_true_iff, includes_not_In. tauto.
Qed.

Lemma removedAttendees_spec own existing current a :
  In a (removedAttendees (attendeeDiff own existing current)) <->
  In a (priorAttendees existing) /\ ~ In (addressOf a) own /\ ~ addressIn current a.
Proof.
  unfold attendeeDiff, addressIn. destruct existing as [ev|]; simpl.
  - rewrite filter_In, andb_true_iff, !negb_true_iff, includes_not_In, findByAddress_not_In.
    tauto.
  - tauto.
Qed.

Lemma In_addressIn l a : In a l -> addressIn l a.
Proof. intros H. unfold addressIn. now apply in_map. Qed.

(** C5. The organizer's attendee diff: attendees with one of the viewer's own
    addresses are in none of the three lists; the other current attendees are
    retained when their address is in the prior list and new otherwise; the
    other prior attendees whose address is not in the current list are removed;
    the three lists are pairwise address-disjoint; with an empty prior list
    nothing is retained and nothing is removed. *)
Theorem attendeeDiff_partition own existing current :
  let d := attendeeDiff own existing current in
  let prior := priorAttendees existing in
  (forall a, In (addressOf a) own ->
             ~ In a (existingAttendees d) /\ ~ In a (newAttendees d)
             /\ ~ In a (removedAttendees d))
  /\ (forall a, In a current -> ~ In (addressOf a) own ->
                (addressIn prior a -> In a (existingAttendees d))
                /\ (~ addressIn prior a -> In a (newAttendees d)))
  /\ (forall a, In a prior -> ~ In (addressOf a) own -> ~ addressIn current a ->
                In a (removedAttendees d))
  /\ (forall a, In a (existingAttendees d) -> In a current /\ addressIn prior a)
  /\ (forall a, In a (newAttendees d) -> In a current /\ ~ addressIn prior a)
  /\ (forall a, In a (removedAttendees d) -> In a prior /\ ~ addressIn current a)
  /\ addressDisjoint (existingAttendees d) (newAttendees d)
  /\ addressDisjoint (existingAttendees d) (removedAttendees d)
  /\ addressDisjoint (newAttendees d) (removedAttendees d)
  /\ (prior = [] -> existingAttendees d = [] /\ removedAttendees d = []).
Proof.
  intros d prior. subst d prior.
  repeat match goal with |- _ /\ _ => split end.
  - intros a Hown.
    rewrite existingAttendees_spec, newAttendees_spec, removedAttendees_spec. tauto.
  - intros a Hin Hown.
    rewrite existingAttendees_spec, newAttendees_spec. tauto.
  - intros a Hin Hown Hgone. rewrite removedAttendees_spec. tauto.
  - intros a. rewrite existingAttendees_spec. tauto.
  - intros a. rewrite newAttendees_spec. tauto.
  - intros a. rewrite removedAttendees_spec. tauto.
  - intros a b Ha Hb Heq.
    apply existingAttendees_spec in Ha. apply newAttendees_spec in Hb.
    unfold addressIn in *. rewrite Heq in Ha. tauto.
  - intros a b Ha Hb Heq.
    apply existingAttendees_spec in Ha. apply removedAttendees_spec in Hb.
    destruct Ha as (Ha & _). apply In_addressIn in Ha.
    unfold addressIn in *. rewrite Heq in Ha. tauto.
  - intros a b Ha Hb Heq.
    apply newAttendees_spec in Ha. apply removedAttendees_spec in Hb.
    destruct Ha as (Ha & _). apply In_addressIn in Ha.
    unfold addressIn in *. rewrite Heq in Ha. tauto.
  - intros Hnil. split.
    + destruct (existingAttendees (attendeeDiff own existing current)) as [|a l] eqn:E;
        [reflexivity|].
      assert (Ha : In a (existingAttendees (attendeeDiff own existing current)))
        by (rewrite E; now left).
      apply existingAttendees_spec in Ha. unfold addressIn in Ha.
      rewrite Hnil in Ha. simpl in Ha. tauto.
    + destruct (removedAttendees (attendeeDiff own existing current)) as [|a l] eqn:E;
        [reflexivity|].
      assert (Ha : In a (removedAttendees (attendeeDiff own existing current)))
        by (rewrite E; now left).
      apply removedAttendees_spec in Ha. rewrite Hnil in Ha. simpl in Ha. tauto.
Qed.

End Diff.


(** ** Validation and assembly *)

Section Validation.
Context {utils : CalendarUtils}.

Lemma jsLt_one n : jsLt n jsOne = true <-> lessThanOne n.
Proof.
  destruct n as [| | |q]; simpl; try (split; [discriminate|contradiction]).
  - split; auto.
  - rewrite negb_true_iff. split.
    + intros Hle. apply Qnot_le_lt. intros Hq.
      apply Qle_bool_iff in Hq. congruence.
    + intros Hlt. destruct (Qle_bool 1 q) eqn:E; [|reflexivity].
      apply Qle_bool_iff in E. exfalso. exact (Qlt_not_le _ _ Hlt E).
Qed.

Lemma computeTimes_invalid_format vm :
  allDay vm = false ->
  parseTime (startTime vm) = None \/ parseTime (endTime vm) = None ->
  computeTimes vm = inl timeFormatInvalid_msg.
Proof.
  unfold computeTimes. intros -> [H|H]; rewrite H; [reflexivity|].
  destruct (parseTime (startTime vm)); reflexivity.
Qed.

(** Every error [computeTimes] reports is the time format error of a timed event. *)
Lemma computeTimes_error vm key :
  computeTimes vm = inl key ->
  key = timeFormatInvalid_msg /\ allDay vm = false
  /\ (parseTime (startTime vm) = None \/ parseTime (endTime vm) = None).
Proof.
  unfold computeTimes. destruct (allDay vm); [discriminate|].
  destruct (parseTime (startTime vm)); [destruct (parseTime (endTime vm))|];
    intros H; inversion H; auto.
Qed.

(** C9. Validation comes first. A timed save whose start or end time does not
    parse answers the time format error; a save whose computed end is not
    strictly after its computed start answers the start-after-end error. In
    both cases the view-model is the one the call started from and the
    returned promise is already settled: running it makes no call to the
    calendar model or to the distributor. *)
Theorem onOkPressed_validates_first now vm :
  (allDay vm = false ->
   parseTime (startTime vm) = None \/ parseTime (endTime vm) = None ->
   onOkPressed now vm = (vm, Promise_resolve (error timeFormatInvalid_msg)))
  /\ (forall start end_,
        computeTimes vm = inr (start, end_) -> end_ <= start ->
        onOkPressed now vm = (vm, Promise_resolve (error startAfterEnd_label)))
  /\ (forall key world trace,
        Promise_resolve (error key) world trace = (trace, Fulfilled (error key))).
Proof.
  repeat split.
  - intros Hday Hparse. unfold onOkPressed, assembleEvent.
    now rewrite (computeTimes_invalid_format vm Hday Hparse).
  - intros start end_ Htimes Hle. unfold onOkPressed, assembleEvent.
    rewrite Htimes. apply Z.leb_le in Hle. now rewrite Hle.
Qed.

(** The attendee array of the assembled event is the view-model's. *)
Lemma assembleEvent_attendees now vm newEvent groupRoot :
  assembleEvent now vm = Assembled newEvent groupRoot ->
  CalendarEvent.attendees newEvent = attendees vm.
Proof.
  unfold assembleEvent.
  destruct (computeTimes vm) as [key|[start end_]]; [discriminate|].
  destruct (end_ <=? start); [discriminate|].
  destruct (selectedCalendar vm); [|discriminate].
  destruct (assembleRepeatRule vm _); [discriminate|].
  intros H. injection H as <- _.
  destruct (existingEvent vm); reflexivity.
Qed.

Lemma setAttendees_same (e : CalendarEvent.t) :
  CalendarEvent.setAttendees e (CalendarEvent.attendees e) = e.
Proof. destruct e; reflexivity. Qed.

Lemma seenThrough_assembled now vm newEvent groupRoot :
  assembleEvent now vm = Assembled newEvent groupRoot ->
  seenThrough vm newEvent = newEvent.
Proof.
  intros H. unfold seenThrough.
  rewrite <- (assembleEvent_attendees _ _ H). apply setAttendees_same.
Qed.

(** Once the event is assembled, [onOkPressed] does not answer an error. *)
Lemma dispatch_not_error vm newEvent newAlarms groupRoot d world trace key :
  snd (dispatch vm newEvent newAlarms groupRoot d world trace) <> Fulfilled (error key).
Proof.
  unfold dispatch, doCreateEvent, Promise_then, Promise_resolve, perform.
  destruct (_ || _); simpl; [discriminate|].
  destruct (existingEvent vm); destruct (world trace _); simpl; try discriminate;
    destruct (negb _); simpl; try discriminate;
    destruct (world _ _); simpl; discriminate.
Qed.

Lemma onOkPressed_assembled_not_error now vm newEvent groupRoot world trace key :
  assembleEvent now vm = Assembled newEvent groupRoot ->
  snd (snd (onOkPressed now vm) world trace) <> Fulfilled (error key).
Proof.
  intros H. unfold onOkPressed. rewrite H.
  destruct (_viewingOwnEvent vm); simpl; [apply dispatch_not_error|].
  destruct (ownResponse vm newEvent) as [vm' response] eqn:E. simpl.
  unfold Promise_then.
  assert (Hr : exists t, response world trace = (t, Fulfilled tt)).
  { unfold ownResponse in E.
    destruct (existingEvent vm); [|injection E as <- <-; eexists; reflexivity].
    destruct (findOwn _ _); [|injection E as <- <-; eexists; reflexivity].
    destruct (_ && _); injection E as <- <-; eexists; reflexivity. }
  destruct Hr as [t ->]. apply dispatch_not_error.
Qed.

(** C10. A repeat rule that ends by count, with a count that is not a number
    or is less than 1, is no error: when the times are valid the event is
    assembled with a rule that never ends (frequency and interval as chosen),
    and the save goes on to the dispatch step, never answering an error. *)
Theorem count_below_one_saved_as_never now vm settings start end_ calendar :
  repeat vm = Some settings ->
  endType settings = Count ->
  endValue settings = NaN \/ lessThanOne (endValue settings) ->
  computeTimes vm = inr (start, end_) ->
  start < end_ ->
  selectedCalendar vm = Some calendar ->
  exists newEvent,
    assembleEvent now vm = Assembled newEvent (CalendarInfo.groupRoot calendar)
    /\ CalendarEvent.repeatRule newEvent =
       Some (RepeatRule.setEndType
               (createRepeatRuleWithValues (frequency settings)
                  (if truthyNumber (interval settings) then interval settings else jsOne))
               Never)
    /\ (forall world trace key,
          snd (snd (onOkPressed now vm) world trace) <> Fulfilled (error key)).
Proof.
  intros Hrepeat Hcount Hvalue Htimes Hlt Hcal.
  assert (Hbad : isNaN (endValue settings) || jsLt (endValue settings) jsOne = true).
  { destruct Hvalue as [-> | Hless]; [reflexivity|].
    apply jsLt_one in Hless. rewrite Hless. apply orb_true_r. }
  assert (Hrule : forall ev,
             assembleRepeatRule vm ev =
             inr (Some (RepeatRule.setEndType
                          (createRepeatRuleWithValues (frequency settings)
                             (if truthyNumber (interval settings)
                              then interval settings else jsOne))
                          Never))).
  { intros ev. unfold assembleRepeatRule. rewrite Hrepeat, Hcount, Hbad.
    destruct (createRepeatRuleWithValues _ _); reflexivity. }
  assert (Hleb : (end_ <=? start) = false) by (apply Z.leb_gt; exact Hlt).
  eexists. split; [|split].
  - unfold assembleEvent. rewrite Htimes, Hleb, Hcal, Hrule. reflexivity.
  - destruct (existingEvent vm); reflexivity.
  - intros world trace key. eapply onOkPressed_assembled_not_error.
    unfold assembleEvent. rewrite Htimes, Hleb, Hcal, Hrule. reflexivity.
Qed.

End Validation.


(** ** Save flow *)

Section SaveFlow.
Context {utils : CalendarUtils}.

Lemma doCreateEvent_perform vm newEvent newAlarms groupRoot :
  doCreateEvent vm newEvent newAlarms groupRoot =
  perform (persistCall vm newEvent newAlarms groupRoot).
Proof. unfold doCreateEvent, persistCall. destruct (existingEvent vm); reflexivity. Qed.

Lemma isPersist_persistCall vm newEvent newAlarms groupRoot :
  isPersist (persistCall vm newEvent newAlarms groupRoot) = true.
Proof. unfold persistCall. destruct (existingEvent vm); reflexivity. Qed.

Lemma isEmpty_false {A} (l : list A) : isEmpty l = false <-> l <> [].
Proof. destruct l; simpl; split; congruence. Qed.

(** The trace of the closure: the persist call, then a prefix of the mails
    due, all of them when every awaited call is fulfilled. Answered with
    [false], it sends nothing. *)
Lemma askForUpdates_trace vm p sendOutUpdate world trace :
  exists mails rest,
    fst (askForUpdates vm p sendOutUpdate world trace) =
    trace ++ persistCall vm (pendingEvent p) (pendingAlarms p) (pendingGroupRoot p) :: mails
    /\ (if sendOutUpdate
        then mailsDue (seenThrough vm (pendingEvent p)) (pendingDiff p) = mails ++ rest
        else mails = [])
    /\ ((forall t c, world t c = Fulfilled tt) -> rest = []).
Proof.
  unfold askForUpdates. rewrite doCreateEvent_perform.
  set (persist := persistCall _ _ _ _).
  unfold mailsDue, Promise_then, Promise_resolve, perform, performDetached, pendingDiff.
  simpl.
  destruct sendOutUpdate; simpl.
  - destruct (world trace persist) as [[]|e] eqn:E0; simpl.
    + destruct (isEmpty (pendingExisting p)); simpl.
      * destruct (isEmpty (pendingNew p)); simpl.
        -- destruct (isEmpty (pendingRemoved p)); simpl.
           ++ exists [], []. repeat split.
           ++ eexists [_], []. repeat split. now rewrite <- app_assoc.
        -- destruct (world (trace ++ [persist]) _) as [[]|e] eqn:E2; simpl.
           ++ destruct (isEmpty (pendingRemoved p)); simpl.
              ** eexists [_], []. repeat split. now rewrite <- app_assoc.
              ** eexists [_; _], []. repeat split. now rewrite <- !app_assoc.
           ++ eexists [_], _. repeat split; [now rewrite <- app_assoc|].
              intros Hall. rewrite Hall in E2. discriminate.
      * destruct (world (trace ++ [persist]) _) as [[]|e] eqn:E1; simpl.
        -- destruct (isEmpty (pendingNew p)); simpl.
           ++ destruct (isEmpty (pendingRemoved p)); simpl.
              ** eexists [_], []. repeat split. now rewrite <- app_assoc.
              ** eexists [_; _], []. repeat split. now rewrite <- !app_assoc.
           ++ destruct (world ((trace ++ [persist]) ++ _) _) as [[]|e] eqn:E2; simpl.
              ** destruct (isEmpty (pendingRemoved p)); simpl.
                 --- eexists [_; _], []. repeat split. now rewrite <- !app_assoc.
                 --- eexists [_; _; _], []. repeat split. now rewrite <- !app_assoc.
              ** eexists [_; _], _. repeat split; [now rewrite <- !app_assoc|].
                 intros Hall. rewrite Hall in E2. discriminate.
        -- eexists [_], _. repeat split; [now rewrite <- app_assoc|].
           intros Hall. rewrite Hall in E1. discriminate.
    + eexists [], _. repeat split.
      intros Hall. rewrite Hall in E0. discriminate.
  - exists [], []. destruct (world trace persist) as [[]|e]; repeat split.
Qed.

(** A prefix of the mails due is made of mails, in strictly rising rank. *)
Lemma mailsDue_prefix_sorted newEvent d mails rest :
  mailsDue newEvent d = mails ++ rest ->
  forallb isMail mails = true
  /\ StronglySorted (fun a b => mailRank a < mailRank b) mails.
Proof.
  unfold mailsDue.
  destruct (isEmpty (existingAttendees d)), (isEmpty (newAttendees d)),
    (isEmpty (removedAttendees d)); simpl; intros H;
    repeat (destruct mails as [|? mails]; simpl in H; try discriminate H;
            try (injection H as <- H));
    simpl; split; try reflexivity; repeat constructor.
Qed.

Lemma mails_not_persist (l : list Call) :
  forallb isMail l = true ->
  filter isPersist l = [].
Proof.
  induction l as [|c l IH]; simpl; [reflexivity|].
  intros H. apply andb_true_iff in H as (Hc & Hl).
  destruct c; simpl in *; try discriminate; auto.
Qed.

(** The view-model an organizer's [onOkPressed] leaves, and the promise. *)
Lemma onOkPressed_organizer now vm newEvent groupRoot :
  assembleEvent now vm = Assembled newEvent groupRoot ->
  _viewingOwnEvent vm = true ->
  onOkPressed now vm =
  (vm, dispatch vm newEvent (alarms vm) groupRoot
         (attendeeDiff (_mailAddresses vm) (existingEvent vm) (attendees vm))).
Proof. intros Ha Hown. unfold onOkPressed. now rewrite Ha, Hown. Qed.

(** C3. The organizer's save with a retained or a removed guest: the promise
    is fulfilled with a closure and nothing has been persisted or sent, the
    view-model is untouched. Run with either answer, the closure makes exactly
    one persist call, first; whatever else it calls is a mail, and answered
    with [false] it calls nothing else. *)
Theorem organizer_save_asks_before_persisting now vm newEvent groupRoot :
  assembleEvent now vm = Assembled newEvent groupRoot ->
  _viewingOwnEvent vm = true ->
  existingAttendees (attendeeDiff (_mailAddresses vm) (existingEvent vm) (attendees vm)) <> []
  \/ removedAttendees (attendeeDiff (_mailAddresses vm) (existingEvent vm) (attendees vm))
     <> [] ->
  exists pending,
    fst (onOkPressed now vm) = vm
    /\ (forall world trace,
          snd (onOkPressed now vm) world trace = (trace, Fulfilled (ok (Some pending))))
    /\ pendingEvent pending = newEvent
    /\ pendingDiff pending =
       attendeeDiff (_mailAddresses vm) (existingEvent vm) (attendees vm)
    /\ (forall vm' sendOutUpdate world trace,
          exists mails,
            fst (askForUpdates vm' pending sendOutUpdate world trace) =
            trace ++ persistCall vm' newEvent (alarms vm) groupRoot :: mails
            /\ isPersist (persistCall vm' newEvent (alarms vm) groupRoot) = true
            /\ filter isPersist mails = []
            /\ forallb isMail mails = true
            /\ (sendOutUpdate = false -> mails = [])).
Proof.
  intros Ha Hown Hdiff.
  rewrite (onOkPressed_organizer _ _ Ha Hown). unfold dispatch. rewrite Hown.
  set (d := attendeeDiff _ _ _) in *.
  assert (Hask : (true && negb (isEmpty (existingAttendees d)))
                 || negb (isEmpty (removedAttendees d)) = true).
  { destruct Hdiff as [H|H]; apply isEmpty_false in H; rewrite H; simpl;
      [reflexivity|apply orb_true_r]. }
  rewrite Hask. eexists. simpl.
  split; [reflexivity|]. split; [reflexivity|]. split; [reflexivity|].
  split; [destruct d; reflexivity|].
  intros vm' b world trace.
  destruct (askForUpdates_trace vm'
              {| pendingEvent := newEvent; pendingAlarms := alarms vm;
                 pendingGroupRoot := groupRoot;
                 pendingExisting := existingAttendees d;
                 pendingNew := newAttendees d;
                 pendingRemoved := removedAttendees d |} b world trace)
    as (mails & rest & Htrace & Hdue & _).
  simpl in Htrace. exists mails. split; [exact Htrace|].
  split; [apply isPersist_persistCall|].
  destruct b.
  - apply mailsDue_prefix_sorted in Hdue as (Hmail & _).
    split; [|split; [exact Hmail|discriminate]].
    apply mails_not_persist. exact Hmail.
  - subst mails. repeat split.
Qed.

(** A closure comes from the organizer's branch only, and holds the diff. *)
Lemma dispatch_pending vm newEvent newAlarms groupRoot d world trace trace' pending :
  dispatch vm newEvent newAlarms groupRoot d world trace
  = (trace', Fulfilled (ok (Some pending))) ->
  trace' = trace
  /\ pendingEvent pending = newEvent
  /\ pendingDiff pending = d
  /\ (_viewingOwnEvent vm && negb (isEmpty (existingAttendees d)))
     || negb (isEmpty (removedAttendees d)) = true.
Proof.
  unfold dispatch.
  destruct (_ || _).
  - unfold Promise_resolve. intros H. injection H as <- <-.
    destruct d; repeat split.
  - rewrite doCreateEvent_perform.
    unfold Promise_then, Promise_resolve, perform.
    destruct (world trace _); [|discriminate].
    destruct (negb _); [destruct (world _ _)|]; discriminate.
Qed.

Lemma ownResponse_fulfilled vm newEvent world trace :
  exists responses,
    snd (ownResponse vm newEvent) world trace = (trace ++ responses, Fulfilled tt).
Proof.
  unfold ownResponse.
  destruct (existingEvent vm); [|exists []; simpl; now rewrite app_nil_r].
  destruct (findOwn _ _); [|exists []; simpl; now rewrite app_nil_r].
  destruct (_ && _); [eexists [_]; reflexivity|exists []; simpl; now rewrite app_nil_r].
Qed.

Lemma onOkPressed_pending now vm world trace trace' pending :
  snd (onOkPressed now vm) world trace = (trace', Fulfilled (ok (Some pending))) ->
  exists newEvent groupRoot,
    assembleEvent now vm = Assembled newEvent groupRoot
    /\ _viewingOwnEvent vm = true
    /\ fst (onOkPressed now vm) = vm
    /\ trace' = trace
    /\ pendingEvent pending = newEvent
    /\ pendingDiff pending =
       attendeeDiff (_mailAddresses vm) (existingEvent vm) (attendees vm).
Proof.
  unfold onOkPressed.
  destruct (assembleEvent now vm) as [key|e|newEvent groupRoot] eqn:Ha;
    try discriminate.
  destruct (_viewingOwnEvent vm) eqn:Hown; simpl.
  - intros H. apply dispatch_pending in H as (-> & Hev & Hd & _).
    exists newEvent, groupRoot. repeat split; assumption.
  - destruct (ownResponse vm newEvent) as [vm' response] eqn:E. simpl.
    unfold Promise_then.
    destruct (ownResponse_fulfilled vm newEvent world trace) as [responses Hr].
    rewrite E in Hr. simpl in Hr. rewrite Hr.
    intros H. apply dispatch_pending in H as (_ & _ & _ & Hcond).
    simpl in Hcond. rewrite andb_false_r in Hcond. discriminate.
Qed.

(** C4. A confirmed save dispatches in a fixed order: after the persist call,
    the calls made are a prefix of the mails due, which are the update to the
    retained guests, then the invite to the new guests, then the cancellation
    to the removed guests; so their ranks rise strictly and no mail is sent
    before an earlier one that is due. When every awaited call is fulfilled,
    all the mails due are sent. *)
Theorem confirmed_save_mails_in_order now vm world0 trace0 trace1 pending vm' world trace :
  snd (onOkPressed now vm) world0 trace0 = (trace1, Fulfilled (ok (Some pending))) ->
  exists persist mails rest,
    fst (askForUpdates vm' pending true world trace) = trace ++ persist :: mails
    /\ isPersist persist = true
    /\ mailsDue (seenThrough vm' (pendingEvent pending))
         (attendeeDiff (_mailAddresses vm) (existingEvent vm) (attendees vm))
       = mails ++ rest
    /\ StronglySorted (fun a b => mailRank a < mailRank b) mails
    /\ ((forall t c, world t c = Fulfilled tt) -> rest = []).
Proof.
  intros Hok.
  apply onOkPressed_pending in Hok as (newEvent & groupRoot & _ & _ & _ & _ & _ & Hd).
  destruct (askForUpdates_trace vm' pending true world trace)
    as (mails & rest & Htrace & Hdue & Hall).
  rewrite Hd in Hdue.
  exists (persistCall vm' (pendingEvent pending) (pendingAlarms pending)
            (pendingGroupRoot pending)), mails, rest.
  split; [exact Htrace|]. split; [apply isPersist_persistCall|].
  split; [exact Hdue|]. split; [|exact Hall].
  exact (proj2 (mailsDue_prefix_sorted _ _ _ _ Hdue)).
Qed.

Lemma findOwn_None own l :
  findOwn own l = None <-> forall a, In a l -> ~ In (addressOf a) own.
Proof.
  unfold findOwn. split.
  - intros H a Hin Hown. apply includes_In in Hown.
    exact (eq_true_false_abs _ Hown (find_none _ _ H a Hin)).
  - intros H. destruct (find _ l) as [a|] eqn:E; [|reflexivity].
    apply find_some in E as (Hin & Hown). apply includes_In in Hown.
    now destruct (H a Hin).
Qed.

Lemma findOwn_Some own l a :
  findOwn own l = Some a -> In a l /\ In (addressOf a) own.
Proof.
  unfold findOwn. intros H. apply find_some in H as (Hin & Hown).
  split; [exact Hin|now apply includes_In].
Qed.

Lemma status_neq a b : negb (status_eqb a b) = true <-> a <> b.
Proof.
  rewrite negb_true_iff. split.
  - intros H Heq. apply status_eqb_eq in Heq. congruence.
  - intros H. destruct (status_eqb a b) eqn:E; [|reflexivity].
    apply status_eqb_eq in E. contradiction.
Qed.

(** C6. The save of an invited viewer. One response is sent, before anything
    else, exactly when the viewer is found among the attendees of the existing
    event, the status chosen is not needs-action and it differs from the status
    saved for that attendee; then the event is persisted by one update call;
    the promise is fulfilled with [ok] and no closure whenever that call is
    fulfilled, and rejected with its failure otherwise. *)
Theorem invited_save_responds_then_persists now vm newEvent groupRoot world trace :
  assembleEvent now vm = Assembled newEvent groupRoot ->
  _viewingOwnEvent vm = false ->
  exists ev ev' responses,
    existingEvent vm = Some ev
    /\ existingEvent (fst (onOkPressed now vm)) = Some ev'
    /\ snd (onOkPressed now vm) world trace =
       (trace ++ responses
          ++ [CalendarModel_updateEvent newEvent (alarms vm) (_zone vm) groupRoot ev'],
        match world (trace ++ responses)
                (CalendarModel_updateEvent newEvent (alarms vm) (_zone vm) groupRoot ev')
        with
        | Fulfilled _ => Fulfilled (ok None)
        | Rejected e => Rejected e
        end)
    /\ match findOwn (_mailAddresses vm) (CalendarEvent.attendees ev) with
       | Some own =>
           (going vm <> NEEDS_ACTION
            /\ CalendarEventAttendee.status own <> going vm
            /\ responses =
               [Distributor_sendResponse newEvent
                  (MailAddress.create
                     (EncryptedMailAddress.name (CalendarEventAttendee.address own))
                     (addressOf own))
                  (going vm)])
           \/ (~ (going vm <> NEEDS_ACTION
                  /\ CalendarEventAttendee.status own <> going vm)
               /\ responses = [])
       | None => responses = []
       end
    /\ (findOwn (_mailAddresses vm) (CalendarEvent.attendees ev) = None <->
        forall a, In a (CalendarEvent.attendees ev) ->
                  ~ In (addressOf a) (_mailAddresses vm)).
Proof.
  intros Ha Hown.
  assert (Hex : exists ev, existingEvent vm = Some ev).
  { unfold _viewingOwnEvent in Hown. destruct (existingEvent vm); [eauto|discriminate]. }
  destruct Hex as [ev Hev].
  assert (Hseen : forall e, seenThrough (setExistingEvent vm e) newEvent = newEvent).
  { intros e. exact (seenThrough_assembled _ _ Ha). }
  assert (Hrun : forall vm' responses,
             forall ev', existingEvent vm' = Some ev' ->
             _viewingOwnEvent vm' = false ->
             seenThrough vm' newEvent = newEvent ->
             _zone vm' = _zone vm ->
             dispatch vm' newEvent (alarms vm) groupRoot
               {| existingAttendees := []; newAttendees := []; removedAttendees := [] |}
               world (trace ++ responses)
             = (trace ++ responses
                  ++ [CalendarModel_updateEvent newEvent (alarms vm) (_zone vm) groupRoot ev'],
                match world (trace ++ responses)
                        (CalendarModel_updateEvent newEvent (alarms vm) (_zone vm)
                           groupRoot ev')
                with
                | Fulfilled _ => Fulfilled (ok None)
                | Rejected e => Rejected e
                end)).
  { intros vm' responses ev' Hev' Hown' Hs Hz.
    unfold dispatch. rewrite Hown'. simpl.
    unfold doCreateEvent. rewrite Hev', Hs, Hz.
    unfold Promise_then, Promise_resolve, perform. rewrite app_assoc.
    destruct (world _ _) as [[]|e]; reflexivity. }
  unfold onOkPressed. rewrite Ha, Hown.
  unfold ownResponse. rewrite Hev.
  destruct (findOwn (_mailAddresses vm) (CalendarEvent.attendees ev)) as [own|] eqn:Hfind.
  - destruct (negb (status_eqb (going vm) NEEDS_ACTION)) eqn:Hna;
      [destruct (negb (status_eqb (CalendarEventAttendee.status own) (going vm))) eqn:Hst|];
      simpl.
    + eexists ev, _, [_]. split; [reflexivity|]. split; [reflexivity|].
      split; [|split; [rewrite Hfind|apply findOwn_None]].
      * unfold Promise_then, performDetached. simpl.
        apply (Hrun (setExistingEvent vm _) [_]); auto.
        unfold _viewingOwnEvent in *. simpl. rewrite Hev in Hown. exact Hown.
      * left. apply status_neq in Hna, Hst. auto.
    + exists ev, ev, []. split; [reflexivity|]. split; [exact Hev|].
      split; [|split; [rewrite Hfind|apply findOwn_None]].
      * unfold Promise_then, Promise_resolve.
        rewrite <- (app_nil_r trace) at 1.
        apply (Hrun vm []); auto. exact (seenThrough_assembled _ _ Ha).
      * right. split; [|reflexivity]. intros (_ & Hne).
        apply status_neq in Hne. congruence.
    + exists ev, ev, []. split; [reflexivity|]. split; [exact Hev|].
      split; [|split; [rewrite Hfind|apply findOwn_None]].
      * unfold Promise_then, Promise_resolve.
        rewrite <- (app_nil_r trace) at 1.
        apply (Hrun vm []); auto. exact (seenThrough_assembled _ _ Ha).
      * right. split; [|reflexivity]. intros (Hne & _).
        apply status_neq in Hne. congruence.
  - exists ev, ev, []. split; [reflexivity|]. split; [exact Hev|].
    split; [|split; [now rewrite Hfind|apply findOwn_None]].
    simpl. unfold Promise_then, Promise_resolve.
    rewrite <- (app_nil_r trace) at 1.
    apply (Hrun vm []); auto. exact (seenThrough_assembled _ _ Ha).
Qed.

(** C7. [deleteEvent] on an existing event. When the event type is OWN and the
    existing event has attendees, one cancellation addressed to the addresses
    of all its attendees is sent first and the delete call follows once it is
    fulfilled; otherwise the delete call is made and nothing is sent. A
    not-found failure of either call is swallowed and the promise fulfilled;
    any other failure rejects it. *)
Theorem deleteEvent_cancels_then_deletes vm event world trace :
  existingEvent vm = Some event ->
  let cancellation :=
    Distributor_sendCancellation event
      (map CalendarEventAttendee.address (CalendarEvent.attendees event)) in
  let deletion := CalendarModel_deleteEvent event in
  (_eventType vm = OWN /\ CalendarEvent.attendees event <> [] ->
   deleteEvent vm world trace =
   match world trace cancellation with
   | Fulfilled _ =>
       (trace ++ [cancellation; deletion],
        swallowNotFound (world (trace ++ [cancellation]) deletion))
   | Rejected e => (trace ++ [cancellation], swallowNotFound (Rejected e))
   end)
  /\ (~ (_eventType vm = OWN /\ CalendarEvent.attendees event <> []) ->
      deleteEvent vm world trace =
      (trace ++ [deletion], swallowNotFound (world trace deletion))).
Proof.
  intros Hev cancellation deletion. unfold deleteEvent. rewrite Hev.
  fold cancellation. fold deletion.
  unfold Promise_catchNotFound, Promise_then, Promise_resolve, perform.
  split.
  - intros (Hty & Hne). rewrite Hty. apply isEmpty_false in Hne. rewrite Hne. simpl.
    destruct (world trace cancellation) as [[]|e]; simpl.
    + rewrite <- app_assoc. simpl.
      destruct (world (trace ++ [cancellation]) deletion) as [[]|[]]; reflexivity.
    + destruct e; reflexivity.
  - intros Hno.
    assert (Hcond : eventType_eqb (_eventType vm) OWN
                    && negb (isEmpty (CalendarEvent.attendees event)) = false).
    { destruct (eventType_eqb (_eventType vm) OWN) eqn:Hty; [|reflexivity].
      destruct (isEmpty (CalendarEvent.attendees event)) eqn:Hem; [reflexivity|].
      exfalso. apply Hno. split.
      - destruct (_eventType vm); simpl in Hty; congruence.
      - now apply isEmpty_false. }
    rewrite Hcond.
    destruct (world trace deletion) as [[]|[]]; reflexivity.
Qed.

(** The first attendee satisfying [p] is found again with its new status. *)
Lemma find_setStatusOfFirst p s l a :
  (forall x s', p (CalendarEventAttendee.setStatus x s') = p x) ->
  find p l = Some a ->
  find p (setStatusOfFirst p s l) = Some (CalendarEventAttendee.setStatus a s).
Proof.
  intros Hp. induction l as [|x l IH]; simpl; [discriminate|].
  destruct (p x) eqn:E; simpl.
  - intros H. injection H as <-. now rewrite Hp, E.
  - rewrite E. exact IH.
Qed.

(** What the save of an invited viewer does to the existing event when a
    response is due: the status of the viewer's attendee on the existing event
    itself is overwritten. *)
Lemma onOkPressed_writes_existingEvent now vm newEvent groupRoot ev own :
  assembleEvent now vm = Assembled newEvent groupRoot ->
  _viewingOwnEvent vm = false ->
  existingEvent vm = Some ev ->
  findOwn (_mailAddresses vm) (CalendarEvent.attendees ev) = Some own ->
  going vm <> NEEDS_ACTION ->
  CalendarEventAttendee.status own <> going vm ->
  exists ev',
    existingEvent (fst (onOkPressed now vm)) = Some ev'
    /\ findOwn (_mailAddresses vm) (CalendarEvent.attendees ev')
       = Some (CalendarEventAttendee.setStatus own (going vm))
    /\ ev' <> ev.
Proof.
  intros Ha Hown Hev Hfind Hna Hst.
  unfold onOkPressed. rewrite Ha, Hown. unfold ownResponse. rewrite Hev, Hfind.
  apply status_neq in Hna, Hst. rewrite Hna, Hst. simpl.
  eexists. split; [reflexivity|].
  assert (Hfound : findOwn (_mailAddresses vm)
                     (setStatusOfFirst (fun a => includes (_mailAddresses vm) (addressOf a))
                        (going vm) (CalendarEvent.attendees ev))
                   = Some (CalendarEventAttendee.setStatus own (going vm))).
  { apply find_setStatusOfFirst; [reflexivity|exact Hfind]. }
  split; [exact Hfound|].
  intros Heq. apply (f_equal CalendarEvent.attendees) in Heq. simpl in Heq.
  rewrite Heq, Hfind in Hfound. injection Hfound as Hsame.
  apply status_neq in Hst. apply Hst. rewrite Hsame at 1. reflexivity.
Qed.

(** The organizer's save and every answered error leave the existing event as
    it was. *)
Lemma onOkPressed_keeps_existingEvent now vm :
  _viewingOwnEvent vm = true \/ (exists key, assembleEvent now vm = Invalid key) ->
  fst (onOkPressed now vm) = vm.
Proof.
  unfold onOkPressed. intros [Hown | [key Hk]].
  - destruct (assembleEvent now vm); try reflexivity. now rewrite Hown.
  - now rewrite Hk.
Qed.

End SaveFlow.


(** ** Attendee operations *)

Section AttendeeOperations.
Context {utils : CalendarUtils}.

Lemma setAttendees_attendees vm : setAttendees vm (attendees vm) = vm.
Proof. destruct vm; reflexivity. Qed.

Lemma find_app_none {A} (p : A -> bool) l l' :
  find p l = None ->
  find p (l ++ l') = find p l'.
Proof.
  induction l as [|x l IH]; simpl; [reflexivity|].
  destruct (p x); [discriminate|exact IH].
Qed.

Lemma find_app_some {A} (p : A -> bool) l l' x :
  find p l = Some x ->
  find p (l ++ l') = Some x.
Proof.
  induction l as [|y l IH]; simpl; [discriminate|].
  destruct (p y); [trivial|exact IH].
Qed.

Lemma findAndRemove_none {A} (p : A -> bool) l :
  find p l = None ->
  findAndRemove l p = l.
Proof.
  induction l as [|x l IH]; simpl; [reflexivity|].
  destruct (p x); [discriminate|]. intros H. now rewrite IH.
Qed.

Lemma findAndRemove_last {A} (p : A -> bool) l x :
  find p l = None ->
  p x = true ->
  findAndRemove (l ++ [x]) p = l.
Proof.
  induction l as [|y l IH]; simpl; intros Hnone Hx.
  - now rewrite Hx.
  - destruct (p y); [discriminate|]. now rewrite IH.
Qed.

Lemma findByAddress_None l x : findByAddress l x = None <-> ~ In x (map addressOf l).
Proof.
  rewrite <- findByAddress_not_In. destruct (findByAddress l x); simpl; split; congruence.
Qed.

(** X1. [addAttendee] is idempotent, and the address is among the attendees
    afterwards. *)
Theorem addAttendee_idempotent vm mailAddress :
  addAttendee (addAttendee vm mailAddress) mailAddress = addAttendee vm mailAddress
  /\ In mailAddress (map addressOf (attendees (addAttendee vm mailAddress))).
Proof.
  unfold addAttendee.
  destruct (findByAddress (attendees vm) mailAddress) as [a|] eqn:E.
  - rewrite E. split; [reflexivity|].
    apply findByAddress_In. now rewrite E.
  - simpl. unfold findByAddress in *. rewrite (find_app_none _ _ _ E). simpl.
    unfold addressOf at 1. simpl. rewrite String.eqb_refl.
    split; [reflexivity|].
    rewrite map_app. apply in_or_app. right. now left.
Qed.

(** X2. [addAttendee] keeps the addresses of the attendees pairwise distinct. *)
Theorem addAttendee_keeps_addresses_distinct vm mailAddress :
  NoDup (map addressOf (attendees vm)) ->
  NoDup (map addressOf (attendees (addAttendee vm mailAddress))).
Proof.
  intros Hnd. unfold addAttendee.
  destruct (findByAddress (attendees vm) mailAddress) as [a|] eqn:E; [exact Hnd|].
  simpl. rewrite map_app. simpl. unfold addressOf at 2. simpl.
  apply findByAddress_None in E.
  clear -Hnd E. induction (map addressOf (attendees vm)) as [|x l IH]; simpl.
  - constructor; [intros []|constructor].
  - inversion Hnd as [|? ? Hx Hl]; subst. constructor.
    + intros Hin. apply in_app_or in Hin as [Hin|[Heq|[]]]; [contradiction|].
      subst. apply E. now left.
    + apply IH; [exact Hl|]. intros Hin. apply E. now right.
Qed.

(** X3. Removing an address right after adding it gives the view-model back,
    when the address was not among the attendees before. *)
Theorem removeAttendee_undoes_addAttendee vm mailAddress :
  ~ In mailAddress (map addressOf (attendees vm)) ->
  removeAttendee (addAttendee vm mailAddress) mailAddress = vm.
Proof.
  intros Hnew. apply findByAddress_None in Hnew.
  unfold addAttendee. rewrite Hnew. unfold removeAttendee. simpl.
  unfold findByAddress in Hnew.
  rewrite (findAndRemove_last _ _ _ Hnew).
  - destruct vm; reflexivity.
  - unfold addressOf. simpl. apply String.eqb_refl.
Qed.

Lemma findAndRemove_addresses l address :
  NoDup (map addressOf l) ->
  forall b,
    In b (map addressOf (findAndRemove l (fun a => String.eqb (addressOf a) address)))
    <-> In b (map addressOf l) /\ b <> address.
Proof.
  induction l as [|x l IH]; simpl; intros Hnd b; [tauto|].
  inversion Hnd as [|? ? Hx Hl]; subst.
  destruct (String.eqb_spec (addressOf x) address) as [Heq|Hne]; simpl.
  - subst. split.
    + intros Hin. split; [now right|]. intros ->. contradiction.
    + intros [[Hb|Hb] Hne]; [congruence|exact Hb].
  - rewrite (IH Hl). split.
    + intros [Hb|[Hb Hn]]; [subst; auto|auto].
    + intros [[Hb|Hb] Hn]; auto.
Qed.

Lemma findAndRemove_length {A} (p : A -> bool) l :
  List.length (findAndRemove l p) =
  match find p l with
  | Some _ => pred (List.length l)
  | None => List.length l
  end.
Proof.
  induction l as [|x l IH]; simpl; [reflexivity|].
  destruct (p x); simpl; [reflexivity|]. rewrite IH.
  destruct (find p l) eqn:E; [|reflexivity].
  destruct l; [discriminate|reflexivity].
Qed.

(** X4. [removeAttendee] on attendees with distinct addresses: the address is
    gone afterwards, every other address stays, and one entry at most is
    dropped (none when the address was not there). *)
Theorem removeAttendee_drops_the_address vm address :
  NoDup (map addressOf (attendees vm)) ->
  (forall b, In b (map addressOf (attendees (removeAttendee vm address)))
             <-> In b (map addressOf (attendees vm)) /\ b <> address)
  /\ (In address (map addressOf (attendees vm)) ->
      S (List.length (attendees (removeAttendee vm address))) = List.length (attendees vm))
  /\ (~ In address (map addressOf (attendees vm)) -> removeAttendee vm address = vm).
Proof.
  intros Hnd. unfold removeAttendee. simpl. split; [|split].
  - apply findAndRemove_addresses. exact Hnd.
  - intros Hin. rewrite findAndRemove_length.
    apply findByAddress_In in Hin. unfold findByAddress in Hin.
    destruct (find _ (attendees vm)) eqn:E; [|discriminate].
    destruct (attendees vm); [discriminate|reflexivity].
  - intros Hout. apply findByAddress_None in Hout. unfold findByAddress in Hout.
    rewrite (findAndRemove_none _ _ Hout). apply setAttendees_attendees.
Qed.

Lemma setStatusOfFirst_length p s l :
  List.length (setStatusOfFirst p s l) = List.length l.
Proof.
  induction l as [|a l IH]; simpl; [reflexivity|].
  destruct (p a); simpl; [reflexivity|now rewrite IH].
Qed.

Lemma setStatusOfFirst_addresses p s l :
  map addressOf (setStatusOfFirst p s l) = map addressOf l.
Proof.
  induction l as [|a l IH]; simpl; [reflexivity|].
  destruct (p a); simpl; [reflexivity|now rewrite IH].
Qed.

(** X5. [selectGoing] with the permission to change the own attendance and at
    least one mail address: it does not throw, [going] is the status chosen,
    the viewer is found among the attendees with that status, the existing
    event is not touched, and an attendee is added only when the viewer was
    not among them. *)
Theorem selectGoing_sets_own_status vm status :
  canModifyOwnAttendance vm = true ->
  _mailAddresses vm <> [] ->
  exists vm' own,
    selectGoing vm status = Some vm'
    /\ going vm' = status
    /\ _findOwnAttendee vm' = Some own
    /\ CalendarEventAttendee.status own = status
    /\ existingEvent vm' = existingEvent vm
    /\ List.length (attendees vm') =
       match _findOwnAttendee vm with
       | Some _ => List.length (attendees vm)
       | None => S (List.length (attendees vm))
       end.
Proof.
  intros Hcan Hmail. unfold selectGoing. rewrite Hcan.
  unfold _findOwnAttendee. simpl.
  destruct (findOwn (_mailAddresses vm) (attendees vm)) as [own|] eqn:Hfind.
  - eexists _, (CalendarEventAttendee.setStatus own status).
    split; [reflexivity|]. simpl. split; [reflexivity|].
    split; [|split; [reflexivity|split; [reflexivity|apply setStatusOfFirst_length]]].
    apply find_setStatusOfFirst; [reflexivity|exact Hfind].
  - destruct (_mailAddresses vm) as [|first rest] eqn:Hm; [contradiction|].
    eexists _, (CalendarEventAttendee.create
                  (EncryptedMailAddress.create defaultMailAddressName first) status).
    split; [reflexivity|]. simpl.
    split; [reflexivity|]. split; [|repeat split].
    unfold findOwn. simpl. rewrite Hm. unfold addressOf at 1. simpl.
    now rewrite String.eqb_refl.
Qed.

(** X6. Choosing twice never adds a second entry for the viewer: the second
    choice only replaces the status. *)
Theorem selectGoing_twice vm vm' first second :
  canModifyOwnAttendance vm = true ->
  selectGoing vm first = Some vm' ->
  _viewingOwnEvent vm' = _viewingOwnEvent vm
  /\ exists vm'',
       selectGoing vm' second = Some vm''
       /\ going vm'' = second
       /\ map addressOf (attendees vm'') = map addressOf (attendees vm').
Proof.
  intros Hcan Hsel. unfold selectGoing in Hsel. rewrite Hcan in Hsel.
  assert (Hshape : _eventType vm' = _eventType vm /\ existingEvent vm' = existingEvent vm
                   /\ _mailAddresses vm' = _mailAddresses vm
                   /\ exists own, findOwn (_mailAddresses vm') (attendees vm') = Some own).
  { unfold _findOwnAttendee in Hsel. simpl in Hsel.
    destruct (findOwn (_mailAddresses vm) (attendees vm)) as [own|] eqn:Hfind.
    - injection Hsel as <-. simpl. repeat split.
      eexists. apply find_setStatusOfFirst; [reflexivity|exact Hfind].
    - destruct (_mailAddresses vm) as [|a rest] eqn:Hm; [discriminate|].
      injection Hsel as <-. simpl. repeat split; [now rewrite Hm|].
      rewrite Hm. eexists. unfold findOwn. simpl. unfold addressOf at 1. simpl.
      now rewrite String.eqb_refl. }
  destruct Hshape as (Hty & Hex & Hmail & own & Hown).
  assert (Hview : _viewingOwnEvent vm' = _viewingOwnEvent vm).
  { unfold _viewingOwnEvent. now rewrite Hex, Hmail. }
  split; [exact Hview|].
  assert (Hcan' : canModifyOwnAttendance vm' = true).
  { unfold canModifyOwnAttendance in *. rewrite Hty.
    apply andb_true_iff in Hcan as (-> & _). simpl.
    unfold _findOwnAttendee. rewrite Hown. apply orb_true_r. }
  unfold selectGoing. rewrite Hcan'. unfold _findOwnAttendee. simpl. rewrite Hown.
  eexists. split; [reflexivity|]. simpl. split; [reflexivity|].
  apply setStatusOfFirst_addresses.
Qed.

End AttendeeOperations.


(** ** What a view-model allows *)

Section Capabilities.
Context {utils : CalendarUtils}.

Lemma map_clone {A} (l : list A) : map clone l = l.
Proof. unfold clone. apply map_id. Qed.

(** More of the fields the constructor computes. *)
Lemma new_CalendarEventViewModel_guests uc mb date zone calendarMap existing vm :
  new_CalendarEventViewModel uc mb date zone calendarMap existing = Some vm ->
  attendees vm = priorAttendees existing
  /\ _mailAddresses vm =
     getEnabledMailAddressesWithUser mb (IUserController.userGroupInfo uc)
  /\ match existing with
     | Some ev =>
         match truthy (CalendarEvent.organizer ev) with
         | Some o =>
             organizer vm = Some o
             /\ possibleOrganizers vm =
                if canModifyOrganizer vm then _mailAddresses vm else [o]
         | None =>
             organizer vm = Some (getDefaultSenderFromUser uc)
             /\ possibleOrganizers vm = _mailAddresses vm
         end
     | None =>
         organizer vm = Some (getDefaultSenderFromUser uc)
         /\ possibleOrganizers vm = _mailAddresses vm
     end.
Proof.
  unfold new_CalendarEventViewModel.
  destruct (readOnlyFor _ existing) as [b|]; [|discriminate].
  intros Hvm. injection Hvm as <-.
  destruct existing as [ev|]; simpl; [|auto].
  rewrite map_clone. split; [reflexivity|]. split; [reflexivity|].
  destruct (truthy (CalendarEvent.organizer ev)); simpl; [|auto].
  split; [reflexivity|]. unfold canModifyOrganizer. simpl.
  destruct (canModifyOrganizerFor _ _ _); reflexivity.
Qed.

(** X7. A read-only view-model allows no change of the guests, of the own
    attendance or of the organizer, and [selectGoing] leaves it as it is; it
    always has an existing event. The alarms are locked exactly for
    SHARED_RO. *)
Theorem readOnly_locks_guests_and_organizer uc mb date zone calendarMap existing :
  exists vm,
    new_CalendarEventViewModel uc mb date zone calendarMap existing = Some vm
    /\ (readOnly vm = true ->
        canModifyGuests vm = false
        /\ canModifyOwnAttendance vm = false
        /\ canModifyOrganizer vm = false
        /\ (forall status, selectGoing vm status = Some vm)
        /\ existing <> None)
    /\ (canModifyAlarms vm = false <-> _eventType vm = SHARED_RO).
Proof.
  destruct (new_CalendarEventViewModel_succeeds uc mb date zone calendarMap existing)
    as [vm Hvm].
  exists vm. split; [exact Hvm|].
  apply new_CalendarEventViewModel_fields in Hvm as (Hty & Hro & _).
  unfold readOnlyFor in Hro. split.
  - intros Htrue. rewrite Htrue in Hro.
    unfold canModifyGuests, canModifyOwnAttendance, canModifyOrganizer,
      canModifyOrganizerFor, selectGoing, canModifyOwnAttendance, ownOrInvite.
    destruct (_eventType vm) eqn:Ety; simpl in *; try discriminate; repeat split;
      intros Hnone; subst existing; simpl in Hty; discriminate.
  - unfold canModifyAlarms. destruct (_eventType vm); simpl; split; congruence.
Qed.

(** X8. An event of a shared calendar: whatever the capability and whether it
    is a copy or not, the viewer can change neither the guests, nor the own
    attendance, nor the organizer; the alarms can be changed exactly with the
    Write capability; the view-model is read-only without it, and with it as
    soon as the event has guests. *)
Theorem shared_calendar_locks_guests uc mb date zone calendarMap ev calendar :
  ownerGroupWellFormed (Some ev) ->
  owningCalendar calendarMap ev = Some calendar ->
  CalendarInfo.shared calendar = true ->
  exists vm,
    new_CalendarEventViewModel uc mb date zone calendarMap (Some ev) = Some vm
    /\ canModifyGuests vm = false
    /\ canModifyOwnAttendance vm = false
    /\ canModifyOrganizer vm = false
    /\ canModifyAlarms vm =
       hasCapabilityOnGroup (IUserController.user uc) (CalendarInfo.group calendar) Write
    /\ readOnly vm =
       negb (hasCapabilityOnGroup (IUserController.user uc)
               (CalendarInfo.group calendar) Write)
       || negb (isEmpty (CalendarEvent.attendees ev)).
Proof.
  intros Hwf Hcal Hshared.
  destruct (new_CalendarEventViewModel_succeeds uc mb date zone calendarMap (Some ev))
    as [vm Hvm].
  exists vm. split; [exact Hvm|].
  apply new_CalendarEventViewModel_fields in Hvm as (Hty & Hro & _).
  unfold eventTypeFor in Hty. rewrite (truthy_wellFormed (Hwf ev eq_refl)) in Hty.
  unfold owningCalendar in Hcal.
  destruct (CalendarEvent._ownerGroup ev) as [g|]; [|discriminate].
  rewrite Hcal, Hshared in Hty. unfold readOnlyFor in Hro.
  unfold canModifyGuests, canModifyOwnAttendance, canModifyOrganizer,
    canModifyOrganizerFor, canModifyAlarms, ownOrInvite.
  destruct (hasCapabilityOnGroup _ _ _); rewrite Hty in *; simpl in *;
    injection Hro as <-; repeat split.
Qed.

(** X9. The organizer of an existing event that has one is the organizer of
    the view-model; when the event is a copy or already has guests the
    organizer cannot be changed and is the only one offered. *)
Theorem organizer_locked_for_copies_and_guests uc mb date zone calendarMap ev o :
  truthy (CalendarEvent.organizer ev) = Some o ->
  CalendarEvent.isCopy ev = true \/ CalendarEvent.attendees ev <> [] ->
  exists vm,
    new_CalendarEventViewModel uc mb date zone calendarMap (Some ev) = Some vm
    /\ organizer vm = Some o
    /\ canModifyOrganizer vm = false
    /\ possibleOrganizers vm = [o].
Proof.
  intros Horg Hlocked.
  destruct (new_CalendarEventViewModel_succeeds uc mb date zone calendarMap (Some ev))
    as [vm Hvm].
  exists vm. split; [exact Hvm|].
  pose proof (new_CalendarEventViewModel_fields _ _ _ _ _ _ Hvm) as (_ & _ & Hex & _).
  apply new_CalendarEventViewModel_guests in Hvm as (Hatt & _ & Hposs).
  rewrite Horg in Hposs. destruct Hposs as (Ho & Hp).
  assert (Hcannot : canModifyOrganizer vm = false).
  { unfold canModifyOrganizer, canModifyOrganizerFor, notACopy.
    rewrite Hex, Hatt. simpl.
    destruct Hlocked as [Hcopy|Hguests].
    - rewrite Hcopy. simpl. now rewrite andb_false_r.
    - apply isEmpty_false in Hguests. rewrite Hguests. apply andb_false_r. }
  rewrite Hcannot in Hp. auto.
Qed.

End Capabilities.

(** ** More on the save flow *)

Section SaveFlowMore.
Context {utils : CalendarUtils}.

Lemma setExistingEvent_existingEvent vm : setExistingEvent vm (existingEvent vm) = vm.
Proof. destruct vm; reflexivity. Qed.

Lemma setStatusOfFirst_address p s l :
  map CalendarEventAttendee.address (setStatusOfFirst p s l)
  = map CalendarEventAttendee.address l.
Proof.
  induction l as [|a l IH]; simpl; [reflexivity|].
  destruct (p a); simpl; [reflexivity|now rewrite IH].
Qed.

(** X10. All [onOkPressed] may change in the view-model is the existing
    event, and all it may change there is the status of attendees: every other
    field of the event, the number, the order and the addresses of its
    attendees stay, and so does whether the viewer is viewing an own event. *)
Theorem onOkPressed_frame now vm :
  fst (onOkPressed now vm) = setExistingEvent vm (existingEvent (fst (onOkPressed now vm)))
  /\ _viewingOwnEvent (fst (onOkPressed now vm)) = _viewingOwnEvent vm
  /\ match existingEvent vm, existingEvent (fst (onOkPressed now vm)) with
     | Some ev, Some ev' =>
         ev' = CalendarEvent.setAttendees ev (CalendarEvent.attendees ev')
         /\ map CalendarEventAttendee.address (CalendarEvent.attendees ev')
            = map CalendarEventAttendee.address (CalendarEvent.attendees ev)
     | None, None => True
     | _, _ => False
     end.
Proof.
  assert (Hsame : forall v, v = vm ->
            v = setExistingEvent vm (existingEvent v)
            /\ _viewingOwnEvent v = _viewingOwnEvent vm
            /\ match existingEvent vm, existingEvent v with
               | Some ev, Some ev' =>
                   ev' = CalendarEvent.setAttendees ev (CalendarEvent.attendees ev')
                   /\ map CalendarEventAttendee.address (CalendarEvent.attendees ev')
                      = map CalendarEventAttendee.address (CalendarEvent.attendees ev)
               | None, None => True
               | _, _ => False
               end).
  { intros v ->. split; [symmetry; apply setExistingEvent_existingEvent|].
    split; [reflexivity|].
    destruct (existingEvent vm) as [ev|]; [|exact I].
    split; [symmetry; apply setAttendees_same|reflexivity]. }
  unfold onOkPressed.
  destruct (assembleEvent now vm) as [key|e|newEvent groupRoot]; try (now apply Hsame).
  destruct (_viewingOwnEvent vm) eqn:Hown; [now apply Hsame|].
  unfold ownResponse.
  destruct (existingEvent vm) as [ev|] eqn:Hev; [|simpl; apply Hsame; reflexivity].
  destruct (findOwn _ _); [|simpl; apply Hsame; reflexivity].
  destruct (_ && _); [|simpl; apply Hsame; reflexivity].
  simpl. split; [reflexivity|]. split.
  - unfold _viewingOwnEvent in *. simpl. rewrite Hev in Hown. exact Hown.
  - split; [reflexivity|apply setStatusOfFirst_address].
Qed.

(** X11. The organizer's save with no guest kept and none removed: the event
    is persisted at once; only when that call is fulfilled and there are new
    guests, one invite goes to them; the promise is fulfilled with [ok] and no
    closure when every call made is fulfilled, and rejected with the failure of
    the first one that is not. Nothing else is called. *)
Theorem organizer_save_without_kept_or_removed_guests now vm newEvent groupRoot world trace :
  assembleEvent now vm = Assembled newEvent groupRoot ->
  _viewingOwnEvent vm = true ->
  existingAttendees (attendeeDiff (_mailAddresses vm) (existingEvent vm) (attendees vm)) = [] ->
  removedAttendees (attendeeDiff (_mailAddresses vm) (existingEvent vm) (attendees vm)) = [] ->
  let guests :=
    newAttendees (attendeeDiff (_mailAddresses vm) (existingEvent vm) (attendees vm)) in
  let persist := persistCall vm newEvent (alarms vm) groupRoot in
  let invite := Distributor_sendInvite newEvent (_distributionAddresses guests) in
  fst (onOkPressed now vm) = vm
  /\ snd (onOkPressed now vm) world trace =
     match world trace persist with
     | Rejected e => (trace ++ [persist], Rejected e)
     | Fulfilled _ =>
         match guests with
         | [] => (trace ++ [persist], Fulfilled (ok None))
         | _ :: _ =>
             (trace ++ [persist; invite],
              match world (trace ++ [persist]) invite with
              | Fulfilled _ => Fulfilled (ok None)
              | Rejected e => Rejected e
              end)
         end
     end.
Proof.
  intros Ha Hown Hkept Hremoved guests persist invite.
  rewrite (onOkPressed_organizer _ _ Ha Hown). split; [reflexivity|]. simpl.
  unfold dispatch. rewrite Hkept, Hremoved, Hown. simpl.
  rewrite doCreateEvent_perform, (seenThrough_assembled _ _ Ha).
  fold persist. fold guests. fold invite.
  unfold Promise_then, Promise_resolve, perform.
  destruct (world trace persist) as [[]|e]; [|reflexivity].
  destruct guests as [|g guests']; simpl; [reflexivity|].
  rewrite <- app_assoc. simpl.
  destruct (world (trace ++ [persist]) invite) as [[]|e]; reflexivity.
Qed.

(** X12. When the persist call of the closure is rejected, the closure calls
    nothing else, whatever the answer was, and its promise is rejected with
    the same failure. *)
Theorem askForUpdates_sends_nothing_after_failed_persist vm p sendOutUpdate world trace e :
  world trace (persistCall vm (pendingEvent p) (pendingAlarms p) (pendingGroupRoot p))
  = Rejected e ->
  askForUpdates vm p sendOutUpdate world trace =
  (trace ++ [persistCall vm (pendingEvent p) (pendingAlarms p) (pendingGroupRoot p)],
   Rejected e).
Proof.
  intros Hrejected. unfold askForUpdates. rewrite doCreateEvent_perform.
  unfold Promise_then, perform. now rewrite Hrejected.
Qed.

(** X13. The promise of the closure does not wait for the cancellation: when
    every call but a cancellation is fulfilled, all the mails due are sent and
    the promise is fulfilled, even if the cancellation is rejected. *)
Theorem askForUpdates_does_not_report_cancellation_failure vm p world trace :
  (forall t c, mailRank c <> 3 -> world t c = Fulfilled tt) ->
  askForUpdates vm p true world trace =
  (trace ++ persistCall vm (pendingEvent p) (pendingAlarms p) (pendingGroupRoot p)
     :: mailsDue (seenThrough vm (pendingEvent p)) (pendingDiff p),
   Fulfilled tt).
Proof.
  intros Hworld. unfold askForUpdates. rewrite doCreateEvent_perform.
  set (persist := persistCall _ _ _ _).
  assert (Hpersist : forall t, world t persist = Fulfilled tt).
  { intros t. apply Hworld. subst persist. unfold persistCall.
    destruct (existingEvent vm); discriminate. }
  unfold mailsDue, Promise_then, Promise_resolve, perform, performDetached, pendingDiff.
  simpl. rewrite Hpersist.
  destruct (isEmpty (pendingExisting p)); simpl;
    [|rewrite Hworld by discriminate];
    (destruct (isEmpty (pendingNew p)); simpl;
     [|rewrite Hworld by discriminate]);
    destruct (isEmpty (pendingRemoved p)); simpl;
    rewrite <- ?app_assoc; reflexivity.
Qed.

(** X14. After the save of an invited viewer, a second save of the same
    view-model sends no response again and does not touch the existing event
    again: it only persists. *)
Theorem second_save_sends_no_response now vm newEvent groupRoot later newEvent' groupRoot'
        world trace :
  assembleEvent now vm = Assembled newEvent groupRoot ->
  _viewingOwnEvent vm = false ->
  assembleEvent later (fst (onOkPressed now vm)) = Assembled newEvent' groupRoot' ->
  fst (onOkPressed later (fst (onOkPressed now vm))) = fst (onOkPressed now vm)
  /\ exists ev',
       existingEvent (fst (onOkPressed now vm)) = Some ev'
       /\ fst (snd (onOkPressed later (fst (onOkPressed now vm))) world trace) =
          trace ++ [CalendarModel_updateEvent newEvent' (alarms vm) (_zone vm)
                      groupRoot' ev'].
Proof.
  intros Ha Hown Ha'.
  remember (fst (onOkPressed now vm)) as vm' eqn:Hvm' in *.
  assert (Hshape : _viewingOwnEvent vm' = false /\ alarms vm' = alarms vm
                   /\ _zone vm' = _zone vm /\ _mailAddresses vm' = _mailAddresses vm
                   /\ going vm' = going vm
                   /\ exists ev', existingEvent vm' = Some ev'
                        /\ match findOwn (_mailAddresses vm) (CalendarEvent.attendees ev') with
                           | Some own =>
                               going vm = NEEDS_ACTION
                               \/ CalendarEventAttendee.status own = going vm
                           | None => True
                           end).
  { subst vm'. unfold onOkPressed. rewrite Ha, Hown. unfold ownResponse.
    assert (Hex : exists ev, existingEvent vm = Some ev).
    { unfold _viewingOwnEvent in Hown. destruct (existingEvent vm); [eauto|discriminate]. }
    destruct Hex as [ev Hev]. rewrite Hev.
    destruct (findOwn (_mailAddresses vm) (CalendarEvent.attendees ev)) as [own|] eqn:Hfind.
    - destruct (negb (status_eqb (going vm) NEEDS_ACTION)) eqn:Hna;
        [destruct (negb (status_eqb (CalendarEventAttendee.status own) (going vm))) eqn:Hst|];
        simpl.
      + repeat split.
        * unfold _viewingOwnEvent in *. simpl. rewrite Hev in Hown. exact Hown.
        * eexists. split; [reflexivity|]. simpl.
          pose proof (find_setStatusOfFirst
                        (fun a => includes (_mailAddresses vm) (addressOf a)) (going vm)
                        (CalendarEvent.attendees ev) (fun _ _ => eq_refl) Hfind) as Hf.
          unfold findOwn. rewrite Hf. now right.
      + repeat split; [exact Hown|]. exists ev. split; [exact Hev|]. rewrite Hfind.
        right. apply negb_false_iff, status_eqb_eq in Hst. exact Hst.
      + repeat split; [exact Hown|]. exists ev. split; [exact Hev|]. rewrite Hfind.
        left. apply negb_false_iff, status_eqb_eq in Hna. exact Hna.
    - simpl. repeat split; [exact Hown|]. exists ev. split; [exact Hev|].
      now rewrite Hfind. }
  destruct Hshape as (Hown' & Halarms & Hzone & Hmail & Hgoing & ev' & Hev' & Hfound).
  assert (Hquiet : ownResponse vm' newEvent' = (vm', Promise_resolve tt)).
  { unfold ownResponse. rewrite Hev', Hmail, Hgoing.
    destruct (findOwn (_mailAddresses vm) (CalendarEvent.attendees ev')) as [own|];
      [|reflexivity].
    destruct Hfound as [Hna|Hst].
    - rewrite Hna. reflexivity.
    - rewrite Hst. replace (status_eqb (going vm) (going vm)) with true
        by (symmetry; now apply status_eqb_eq).
      simpl. now rewrite andb_false_r. }
  unfold onOkPressed. rewrite Ha', Hown', Hquiet. simpl.
  split; [reflexivity|]. exists ev'. split; [exact Hev'|].
  unfold Promise_then, Promise_resolve, dispatch. rewrite Hown'. simpl.
  unfold doCreateEvent. rewrite Hev', (seenThrough_assembled _ _ Ha'), Halarms, Hzone.
  unfold Promise_then, perform.
  destruct (world trace _) as [[]|e]; reflexivity.
Qed.

(** X15. Every error [onOkPressed] answers has a cause in the times or in the
    end date of the repetition: the time format error only for a timed event
    with a time that does not parse, the start-after-end error only when the
    computed end is not after the computed start or the repetition ends on a
    date. A repetition that never ends or ends by count is never an error. *)
Theorem onOkPressed_error_causes now vm world trace trace' key :
  snd (onOkPressed now vm) world trace = (trace', Fulfilled (error key)) ->
  trace' = trace
  /\ fst (onOkPressed now vm) = vm
  /\ ((key = timeFormatInvalid_msg /\ allDay vm = false
       /\ (parseTime (startTime vm) = None \/ parseTime (endTime vm) = None))
      \/ (key = startAfterEnd_label
          /\ exists start end_,
               computeTimes vm = inr (start, end_)
               /\ (end_ <= start
                   \/ exists settings,
                        repeat vm = Some settings /\ endType settings = UntilDate))).
Proof.
  intros Herr.
  destruct (assembleEvent now vm) as [k|e|newEvent groupRoot] eqn:Ha.
  - unfold onOkPressed in *. rewrite Ha in *. unfold Promise_resolve in Herr.
    injection Herr as <- <-. split; [reflexivity|]. split; [reflexivity|].
    unfold assembleEvent in Ha.
    destruct (computeTimes vm) as [k'|[start end_]] eqn:Htimes.
    + injection Ha as <-. left. now apply computeTimes_error.
    + right. destruct (end_ <=? start) eqn:Hle.
      * injection Ha as <-. split; [reflexivity|]. exists start, end_.
        split; [reflexivity|]. left. now apply Z.leb_le.
      * destruct (selectedCalendar vm); [|discriminate].
        destruct (assembleRepeatRule vm _) as [k'|rule] eqn:Hrule; [|discriminate].
        injection Ha as <-. unfold assembleRepeatRule in Hrule.
        destruct (repeat vm) as [settings|]; [|discriminate].
        destruct (endType settings) eqn:Hend.
        -- discriminate.
        -- destruct (_ || _); discriminate.
        -- destruct (_ <? _); [|discriminate]. injection Hrule as <-.
           split; [reflexivity|]. exists start, end_. split; [reflexivity|].
           right. exists settings. split; reflexivity || assumption.
  - unfold onOkPressed in Herr. rewrite Ha in Herr. discriminate.
  - exfalso.
    apply (@onOkPressed_assembled_not_error _ now vm newEvent groupRoot world trace key Ha).
    now rewrite Herr.
Qed.

(** X16. A repetition that ends by count, with a count of at least 1, is saved
    as such: the rule of the assembled event ends by count and its end value
    is the count printed. *)
Theorem count_of_at_least_one_is_kept now vm settings count start end_ calendar :
  repeat vm = Some settings ->
  endType settings = Count ->
  endValue settings = Finite count ->
  (1 <= count)%Q ->
  computeTimes vm = inr (start, end_) ->
  start < end_ ->
  selectedCalendar vm = Some calendar ->
  exists newEvent,
    assembleEvent now vm = Assembled newEvent (CalendarInfo.groupRoot calendar)
    /\ CalendarEvent.repeatRule newEvent =
       Some (RepeatRule.setEndValue
               (RepeatRule.setEndType
                  (createRepeatRuleWithValues (frequency settings)
                     (if truthyNumber (interval settings) then interval settings else jsOne))
                  Count)
               (Some (numberToString (Finite count)))).
Proof.
  intros Hrepeat Hcount Hvalue Hge Htimes Hlt Hcal.
  assert (Hok : isNaN (endValue settings) || jsLt (endValue settings) jsOne = false).
  { rewrite Hvalue. simpl. apply negb_false_iff. now apply Qle_bool_iff. }
  assert (Hleb : (end_ <=? start) = false) by (apply Z.leb_gt; exact Hlt).
  eexists. split.
  - unfold assembleEvent. rewrite Htimes, Hleb, Hcal.
    unfold assembleRepeatRule. rewrite Hrepeat, Hcount, Hok. reflexivity.
  - rewrite Hvalue. destruct (existingEvent vm); reflexivity.
Qed.


End SaveFlowMore.


(** ** Times and alarms *)

Section FormProperties.
Context {utils : CalendarUtils} {dialogUtils : DialogUtils}.

Lemma onOkPressed_only_existingEvent now vm :
  exists e, fst (onOkPressed now vm) = setExistingEvent vm e.
Proof.
  assert (Hsame : exists e, vm = setExistingEvent vm e)
    by (exists (existingEvent vm); symmetry; apply setExistingEvent_existingEvent).
  unfold onOkPressed.
  destruct (assembleEvent now vm); try exact Hsame.
  destruct (_viewingOwnEvent vm); [exact Hsame|].
  unfold ownResponse.
  destruct (existingEvent vm); [|exact Hsame].
  destruct (findOwn _ _); [|exact Hsame].
  destruct (_ && _); [eexists; reflexivity|exact Hsame].
Qed.

Lemma selectGoing_oldStartTime vm status vm' :
  selectGoing vm status = Some vm' ->
  _oldStartTime vm' = _oldStartTime vm.
Proof.
  unfold selectGoing. destruct (canModifyOwnAttendance vm); [|now intros [= <-]].
  destruct (_findOwnAttendee _); [now intros [= <-]|].
  simpl. destruct (_mailAddresses vm); [discriminate|now intros [= <-]].
Qed.

Lemma adjustEndTime_without_old_start vm :
  _oldStartTime vm = None ->
  _adjustEndTime vm = vm.
Proof.
  unfold _adjustEndTime. intros ->. simpl.
  destruct (parseTime (startTime vm)); [destruct (parseTime (endTime vm))|]; reflexivity.
Qed.

Lemma Reachable_oldStartTime vm : Reachable vm -> _oldStartTime vm = None.
Proof.
  induction 1 as [uc mb date zone calendarMap existing vm Hnew
                 | | vm value _ IH | | vm a _ IH | | today vm date _ IH | vm date _ IH
                 | vm period _ IH | vm value _ IH | vm date _ IH | vm value _ IH
                 | today vm e _ IH | | vm identifier trigger _ IH | | vm status vm' _ IH Hsel
                 | now vm _ IH];
    try exact IHReachable.
  - unfold new_CalendarEventViewModel in Hnew.
    destruct (readOnlyFor _ existing); [|discriminate].
    injection Hnew as <-. destruct existing; reflexivity.
  - unfold onStartTimeSelected. simpl.
    destruct (_ =? _); [|exact IH].
    rewrite adjustEndTime_without_old_start; [exact IH|exact IH].
  - unfold addAttendee. destruct (findByAddress _ _); exact IH.
  - unfold onStartDateSelected. destruct date; [|exact IH].
    destruct (_ <? _); exact IH.
  - unfold onEndDateSelected. destruct date; exact IH.
  - unfold onRepeatPeriodSelected. destruct period; exact IH.
  - unfold onEndOccurencesSelected. destruct (repeat vm) as [r|]; [|exact IH].
    destruct (endType r); exact IH.
  - unfold onRepeatEndDateSelected. destruct date; [|exact IH].
    destruct (repeat vm) as [r|]; [|exact IH]. destruct (endType r); exact IH.
  - unfold onRepeatIntervalChanged. destruct (repeat vm); exact IH.
  - unfold onRepeatEndTypeChanged. destruct (repeat vm); exact IH.
  - unfold changeAlarm. destruct (changeFirstAlarm _ _ _); exact IH.
  - rewrite (selectGoing_oldStartTime _ _ Hsel). exact IH.
  - destruct (onOkPressed_only_existingEvent now vm) as [e ->]. exact IH.
Qed.

(** X18. On a view-model reached from the constructor through the methods of
    the class, the old start time is never set, so choosing a start time only
    sets the start time: the end time is never moved along, also when start
    and end are on the same day. *)
Theorem onStartTimeSelected_never_moves_the_end vm value :
  Reachable vm ->
  _oldStartTime vm = None
  /\ onStartTimeSelected vm value = setTimes vm value (endTime vm) None
  /\ Reachable (onStartTimeSelected vm value).
Proof.
  intros Hreach. pose proof (Reachable_oldStartTime Hreach) as Hold.
  split; [exact Hold|]. split; [|now constructor].
  unfold onStartTimeSelected. rewrite Hold.
  destruct (_ =? _); [|reflexivity].
  now apply adjustEndTime_without_old_start.
Qed.

(** X19. [_adjustEndTime] with an old start time: when the three times parse
    and the start time is a time of day, the end time written is a time of day
    as well (hours up to 23, minutes up to 59), it is the start plus the span
    between the old start and the end whenever that is before midnight, and
    the start time becomes the old start time. *)
Theorem adjustEndTime_keeps_the_span vm old parsedOld parsedStart parsedEnd :
  _oldStartTime vm = Some old ->
  old <> "" ->
  parseTime old = Some parsedOld ->
  parseTime (startTime vm) = Some parsedStart ->
  parseTime (endTime vm) = Some parsedEnd ->
  0 <= hours parsedStart <= 23 ->
  0 <= minutes parsedStart <= 59 ->
  let span :=
    Z.abs (hours parsedEnd * 60 + minutes parsedEnd
           - (hours parsedOld * 60 + minutes parsedOld)) in
  exists h m,
    _adjustEndTime vm =
    setTimes vm (startTime vm) (timeStringFromParts h m (amPmFormat vm))
      (Some (startTime vm))
    /\ 0 <= h <= 23
    /\ 0 <= m <= 59
    /\ (hours parsedStart * 60 + minutes parsedStart + span < 24 * 60 ->
        h * 60 + m = hours parsedStart * 60 + minutes parsedStart + span).
Proof.
  intros Hold Hne Hpo Hps Hpe Hh Hm span.
  unfold _adjustEndTime. rewrite Hold. simpl.
  destruct (String.eqb_spec old ""); [contradiction|].
  rewrite Hps, Hpe, Hpo.
  set (total := hours parsedStart * 60 + minutes parsedStart
                + Z.abs (hours parsedEnd * 60 + minutes parsedEnd
                         - hours parsedOld * 60 - minutes parsedOld)).
  assert (Hspan : total = hours parsedStart * 60 + minutes parsedStart + span).
  { subst total span. f_equal. f_equal. lia. }
  assert (Htotal : 0 <= total) by (subst total; lia).
  assert (Hrem : Z.rem total 60 = total mod 60) by (apply Z.rem_mod_nonneg; lia).
  pose proof (Z.mod_pos_bound total 60 ltac:(lia)) as Hbound.
  pose proof (Z.div_mod total 60 ltac:(lia)) as Hdiv.
  assert (Hquot : 0 <= total / 60) by (apply Z.div_pos; lia).
  eexists _, _. split; [reflexivity|].
  rewrite Hrem. split; [|split; [lia|]].
  - destruct (23 <? total / 60) eqn:E; [lia|]. apply Z.ltb_ge in E. lia.
  - intros Hday. rewrite <- Hspan in *.
    destruct (23 <? total / 60) eqn:E.
    + apply Z.ltb_lt in E. lia.
    + lia.
Qed.

Lemma changeFirstAlarm_unknown identifier trigger l :
  ~ In identifier (map AlarmInfo.alarmIdentifier l) ->
  changeFirstAlarm identifier trigger l = None.
Proof.
  induction l as [|a l IH]; simpl; [reflexivity|]. intros Hout.
  destruct (String.eqb_spec (AlarmInfo.alarmIdentifier a) identifier) as [Heq|Hne].
  - exfalso. apply Hout. now left.
  - rewrite IH; [reflexivity|]. intros Hin. apply Hout. now right.
Qed.

Lemma setAlarms_alarms vm : setAlarms vm (alarms vm) = vm.
Proof. destruct vm; reflexivity. Qed.

(** X20. [changeAlarm]: with an identifier no alarm has, nothing changes; with
    a trigger, the alarms keep their number, order and identifiers, and an
    alarm with the identifier has the new trigger; with no trigger or the
    empty one, exactly one alarm with the identifier is dropped. *)
Theorem changeAlarm_cases vm identifier trigger :
  (~ In identifier (map AlarmInfo.alarmIdentifier (alarms vm)) ->
   changeAlarm vm identifier trigger = vm)
  /\ (In identifier (map AlarmInfo.alarmIdentifier (alarms vm)) ->
      match truthy trigger with
      | Some t =>
          map AlarmInfo.alarmIdentifier (alarms (changeAlarm vm identifier trigger))
          = map AlarmInfo.alarmIdentifier (alarms vm)
          /\ In (AlarmInfo.create identifier t) (alarms (changeAlarm vm identifier trigger))
      | None =>
          exists before after a,
            alarms vm = before ++ a :: after
            /\ AlarmInfo.alarmIdentifier a = identifier
            /\ ~ In identifier (map AlarmInfo.alarmIdentifier before)
            /\ alarms (changeAlarm vm identifier trigger) = before ++ after
      end).
Proof.
  unfold changeAlarm. split.
  - intros Hout. now rewrite (changeFirstAlarm_unknown _ trigger _ Hout).
  - generalize (alarms vm) as l. intros l Hin.
    assert (Hshape :
              match truthy trigger with
              | Some t =>
                  exists l', changeFirstAlarm identifier trigger l = Some l'
                    /\ map AlarmInfo.alarmIdentifier l' = map AlarmInfo.alarmIdentifier l
                    /\ In (AlarmInfo.create identifier t) l'
              | None =>
                  exists before after a,
                    l = before ++ a :: after
                    /\ AlarmInfo.alarmIdentifier a = identifier
                    /\ ~ In identifier (map AlarmInfo.alarmIdentifier before)
                    /\ changeFirstAlarm identifier trigger l = Some (before ++ after)
              end).
    { induction l as [|a l IH]; [contradiction|]. simpl.
      destruct (String.eqb_spec (AlarmInfo.alarmIdentifier a) identifier) as [Heq|Hne].
      - destruct (truthy trigger) as [t|].
        + eexists. split; [reflexivity|]. simpl. split; [reflexivity|].
          left. now rewrite Heq.
        + exists [], l, a. simpl. auto.
      - destruct Hin as [Hin|Hin]; [contradiction|]. specialize (IH Hin).
        destruct (truthy trigger) as [t|].
        + destruct IH as (l' & -> & Hids & Hnew). eexists. split; [reflexivity|].
          simpl. split; [now rewrite Hids|now right].
        + destruct IH as (before & after & b & -> & Hb & Hfirst & ->).
          exists (a :: before), after, b. simpl. repeat split; [exact Hb|].
          intros [H|H]; [contradiction|now apply Hfirst]. }
    destruct (truthy trigger) as [t|].
    + destruct Hshape as (l' & -> & Hids & Hnew). simpl. auto.
    + destruct Hshape as (before & after & a & Hl & Ha & Hfirst & ->).
      exists before, after, a. simpl. auto.
Qed.

(** X21. Removing the alarm just added gives the view-model back, when no
    other alarm has the identifier generated. *)
Theorem changeAlarm_removes_the_alarm_added now vm trigger :
  ~ In (generateEventElementId now) (map AlarmInfo.alarmIdentifier (alarms vm)) ->
  changeAlarm (addAlarm now vm trigger) (generateEventElementId now) None = vm.
Proof.
  intros Hfresh. unfold changeAlarm, addAlarm. simpl.
  assert (Hremove : changeFirstAlarm (generateEventElementId now) None
                      (alarms vm ++
                       [createCalendarAlarm (generateEventElementId now) trigger])
                    = Some (alarms vm)).
  { induction (alarms vm) as [|a l IH]; simpl.
    - now rewrite String.eqb_refl.
    - destruct (String.eqb_spec (AlarmInfo.alarmIdentifier a) (generateEventElementId now))
        as [Heq|Hne].
      + exfalso. apply Hfresh. now left.
      + rewrite IH; [reflexivity|]. intros Hin. apply Hfresh. now right. }
  rewrite Hremove. destruct vm; reflexivity.
Qed.

End FormProperties.


(** ** The distributor *)

Section DistributorProperties.
Context {utils : CalendarUtils} {dialogUtils : DialogUtils}
        {distributorUtils : DistributorUtils}.

(** X22. An event without organizer: the invite is rejected after the mailbox
    details were asked for and the response is rejected before anything is
    done, and neither sends a mail; the update and the cancellation are sent
    all the same. *)
Theorem distributor_without_organizer event details today recipients sender status :
  CalendarEvent.organizer event = None ->
  (exists e, sendInvite (Fulfilled details) today event recipients
             = ([GetUserMailboxDetails], Rejected e))
  /\ (exists e, forall mailbox,
         sendResponse mailbox today event sender status = ([], Rejected e))
  /\ (exists mail, sendUpdate (Fulfilled details) today event recipients
                   = ([GetUserMailboxDetails; Send mail], Fulfilled tt))
  /\ (exists mail, sendCancellation (Fulfilled details) today event recipients
                   = ([GetUserMailboxDetails; Send mail], Fulfilled tt)).
Proof.
  intros Hnone. unfold sendInvite, sendResponse, sendUpdate, sendCancellation.
  rewrite Hnone. repeat split; eexists; reflexivity.
Qed.

Lemma asBcc_addresses recipients :
  map Recipient.address (asBcc recipients) = map EncryptedMailAddress.address recipients.
Proof. unfold asBcc. rewrite map_map. reflexivity. Qed.

(** X23. Who gets what, for an event with an organizer and a mailbox that
    loads: an invite, an update and a cancellation are one mail each, to
    nobody openly and with all the recipients, in their order, as blind
    copies; a response is one mail to the organizer alone. Each mail has one
    calendar file attached; only the cancellation is sent with the method
    CANCEL, invite and update with REQUEST, the response with REPLY. *)
Theorem distributor_routing event o details today recipients sender status c :
  CalendarEvent.organizer event = Some o ->
  In c [Distributor_sendInvite event recipients;
        Distributor_sendUpdate event recipients;
        Distributor_sendCancellation event recipients;
        Distributor_sendResponse event sender status] ->
  exists mail,
    distribute (Fulfilled details) today c = ([GetUserMailboxDetails; Send mail], Fulfilled tt)
    /\ List.length (attachments mail) = 1%nat
    /\ match c with
       | Distributor_sendResponse _ _ _ =>
           to mail = [Recipient.create (Some "") o] /\ bcc mail = []
           /\ calendarFileMethod mail = REPLY
       | _ =>
           to mail = []
           /\ map Recipient.address (bcc mail)
              = map EncryptedMailAddress.address recipients
           /\ calendarFileMethod mail =
              match c with
              | Distributor_sendCancellation _ _ => CANCEL
              | _ => REQUEST
              end
       end.
Proof.
  intros Horg Hc. simpl in Hc.
  destruct Hc as [<-|[<-|[<-|[<-|[]]]]]; simpl;
    unfold sendInvite, sendUpdate, sendCancellation, sendResponse; rewrite ?Horg;
    eexists; (split; [reflexivity|]); simpl; repeat split; apply asBcc_addresses.
Qed.

Lemma selectGoing_organizer vm status vm' :
  selectGoing vm status = Some vm' ->
  organizer vm' = organizer vm.
Proof.
  unfold selectGoing. destruct (canModifyOwnAttendance vm); [|now intros [= <-]].
  destruct (_findOwnAttendee _); [now intros [= <-]|].
  simpl. destruct (_mailAddresses vm); [discriminate|now intros [= <-]].
Qed.

Lemma Reachable_organizer vm : Reachable vm -> organizer vm <> None.
Proof.
  induction 1 as [uc mb date zone calendarMap existing vm Hnew
                 | | vm value _ IH | | vm a _ IH | | today vm date _ IH | vm date _ IH
                 | vm period _ IH | vm value _ IH | vm date _ IH | vm value _ IH
                 | today vm e _ IH | | vm identifier trigger _ IH | | vm status vm' _ IH Hsel
                 | now vm _ IH];
    try exact IHReachable.
  - unfold new_CalendarEventViewModel in Hnew.
    destruct (readOnlyFor _ existing); [|discriminate].
    injection Hnew as <-. destruct existing; discriminate.
  - unfold onStartTimeSelected, _adjustEndTime. simpl.
    destruct (_ =? _); [|exact IH].
    destruct (parseTime value); [|exact IH].
    destruct (parseTime (endTime vm)); [|exact IH].
    destruct (match truthy (_oldStartTime vm) with Some _ => _ | None => _ end); exact IH.
  - unfold addAttendee. destruct (findByAddress _ _); exact IH.
  - unfold onStartDateSelected. destruct date; [|exact IH].
    destruct (_ <? _); exact IH.
  - unfold onEndDateSelected. destruct date; exact IH.
  - unfold onRepeatPeriodSelected. destruct period; exact IH.
  - unfold onEndOccurencesSelected. destruct (repeat vm) as [r|]; [|exact IH].
    destruct (endType r); exact IH.
  - unfold onRepeatEndDateSelected. destruct date; [|exact IH].
    destruct (repeat vm) as [r|]; [|exact IH]. destruct (endType r); exact IH.
  - unfold onRepeatIntervalChanged. destruct (repeat vm); exact IH.
  - unfold onRepeatEndTypeChanged. destruct (repeat vm); exact IH.
  - unfold changeAlarm. destruct (changeFirstAlarm _ _ _); exact IH.
  - rewrite (selectGoing_organizer _ _ Hsel). exact IH.
  - destruct (onOkPressed_only_existingEvent now vm) as [e ->]. exact IH.
Qed.

Lemma assembleEvent_organizer now vm newEvent groupRoot :
  assembleEvent now vm = Assembled newEvent groupRoot ->
  CalendarEvent.organizer newEvent = organizer vm.
Proof.
  unfold assembleEvent.
  destruct (computeTimes vm) as [key|[start end_]]; [discriminate|].
  destruct (end_ <=? start); [discriminate|].
  destruct (selectedCalendar vm); [|discriminate].
  destruct (assembleRepeatRule vm _); [discriminate|].
  intros H. injection H as <- _. reflexivity.
Qed.

(** X24. The event assembled on a view-model reached through the methods of
    the class always has an organizer, the view-model's; so, with a mailbox
    that loads, the distributor sends the invite and the response asked for
    it: the two rejections for a missing organizer cannot happen. *)
Theorem reachable_saves_carry_an_organizer now vm newEvent groupRoot :
  Reachable vm ->
  assembleEvent now vm = Assembled newEvent groupRoot ->
  exists o,
    organizer vm = Some o
    /\ CalendarEvent.organizer newEvent = Some o
    /\ forall details today recipients sender status,
         snd (sendInvite (Fulfilled details) today newEvent recipients) = Fulfilled tt
         /\ snd (sendResponse (Fulfilled details) today newEvent sender status)
            = Fulfilled tt.
Proof.
  intros Hreach Ha. pose proof (Reachable_organizer Hreach) as Horg.
  destruct (organizer vm) as [o|] eqn:Ho; [|contradiction].
  exists o. split; [reflexivity|].
  pose proof (assembleEvent_organizer _ _ Ha) as He. rewrite Ho in He.
  split; [exact He|].
  intros. unfold sendInvite, sendResponse. rewrite He. split; reflexivity.
Qed.

End DistributorProperties.

(** ** Events from files *)

Section InvitesProperties.
Context {utils : CalendarUtils}.
Variable FileData : Type.
Variable parseCalendarFile : FileData -> option (list (CalendarEvent.t * list AlarmInfo.t)).

(** X25. A file yields an event exactly when it parses, has a first event and
    that event has a non-empty uid; the event and the uid answered are those
    of the first event, whatever follows it in the file. *)
Theorem getParsedEvent_iff fileData event uid :
  getParsedEvent parseCalendarFile fileData = Some (event, uid) <->
  exists alarmList others,
    parseCalendarFile fileData = Some ((event, alarmList) :: others)
    /\ CalendarEvent.uid event = Some uid
    /\ uid <> "".
Proof.
  unfold getParsedEvent. split.
  - destruct (parseCalendarFile fileData) as [[|[first alarmList] others]|];
      try discriminate. simpl.
    destruct (CalendarEvent.uid first) as [u|] eqn:Hu; simpl; [|discriminate].
    destruct (String.eqb_spec u ""); [discriminate|].
    intros H. injection H as <- <-. exists alarmList, others. auto.
  - intros (alarmList & others & -> & Hu & Hne). simpl. rewrite Hu. simpl.
    destruct (String.eqb_spec uid ""); [contradiction|reflexivity].
Qed.

(** X26. An event of a file that is not stored yet is shown as a copy, and
    the view-model built for it is never of type OWN, whatever the calendars:
    the viewer can change neither its guests nor its organizer and is not
    treated as its organizer when saving. *)
Theorem event_from_file_is_never_own fileData getEventByUid calendarInfo mailboxDetails
        parsedEvent uid :
  getParsedEvent parseCalendarFile fileData = Some (parsedEvent, uid) ->
  getEventByUid uid = None ->
  exists event,
    showEventDetailsFromFile parseCalendarFile fileData getEventByUid calendarInfo
      mailboxDetails
    = ShowCalendarEventDialog (CalendarEvent.startTime parsedEvent) calendarInfo
        mailboxDetails event
    /\ CalendarEvent.isCopy event = true
    /\ forall uc zone,
       exists vm,
         new_CalendarEventViewModel uc mailboxDetails (CalendarEvent.startTime parsedEvent)
           zone calendarInfo (Some event) = Some vm
         /\ _eventType vm <> OWN
         /\ canModifyGuests vm = false
         /\ canModifyOrganizer vm = false
         /\ _viewingOwnEvent vm = false.
Proof.
  intros Hparsed Hunknown. unfold showEventDetailsFromFile. rewrite Hparsed, Hunknown.
  eexists. split; [reflexivity|]. split; [reflexivity|].
  intros uc zone.
  destruct (new_CalendarEventViewModel_succeeds uc mailboxDetails
              (CalendarEvent.startTime parsedEvent) zone calendarInfo
              (Some (withIsCopy parsedEvent true))) as [vm Hvm].
  exists vm. split; [exact Hvm|].
  apply new_CalendarEventViewModel_fields in Hvm as (Hty & _ & Hex & _).
  unfold canModifyGuests, canModifyOrganizer, canModifyOrganizerFor, _viewingOwnEvent,
    notACopy.
  rewrite Hex. simpl. rewrite !andb_false_r. simpl.
  split; [|repeat split].
  rewrite Hty. unfold eventTypeFor. simpl.
  destruct (truthy (CalendarEvent._ownerGroup parsedEvent)); [|discriminate].
  destruct (Map_get calendarInfo s) as [info|]; [|discriminate].
  destruct (CalendarInfo.shared info); [|discriminate].
  destruct (hasCapabilityOnGroup _ _ _); discriminate.
Qed.

End InvitesProperties.

(** ** Mails about shared calendars *)

Section SharingProperties.
Variable userMailboxDetails : MailboxDetail.t.
Variable getEnabledMailAddresses : MailboxDetail.t -> list string.
Variable getDefaultSender : MailboxDetail.t -> string.
Variable translate : string -> option (list (string * string)) -> string.
Variable getCalendarName : string -> string.

(** X27. The invitation to a shared calendar goes as blind copy to all the
    recipients and to nobody openly, and always from the default sender; the
    mails about an acceptance, a rejection and a deletion go openly to their
    recipients, from the sender given when it is an enabled address and from
    the default sender otherwise. All four are confidential. *)
Theorem notification_mail_routing sharedGroupName recipient recipients senderMailAddress :
  let share :=
    sendShareNotificationEmail userMailboxDetails getEnabledMailAddresses getDefaultSender
      translate getCalendarName sharedGroupName recipients in
  let others :=
    [(sendAcceptNotificationEmail userMailboxDetails getEnabledMailAddresses
        getDefaultSender translate sharedGroupName recipient senderMailAddress,
      [recipient]);
     (sendRejectNotificationEmail userMailboxDetails getEnabledMailAddresses
        getDefaultSender translate sharedGroupName recipient senderMailAddress,
      [recipient]);
     (sendDeletionNotificationEmail userMailboxDetails getEnabledMailAddresses
        getDefaultSender translate sharedGroupName recipients senderMailAddress,
      recipients)] in
  NotificationMail.to share = []
  /\ NotificationMail.bcc share = asRecipients recipients
  /\ NotificationMail.sender share = getDefaultSender userMailboxDetails
  /\ NotificationMail.confidential share = true
  /\ forall mail addressed,
       In (mail, addressed) others ->
       NotificationMail.to mail = asRecipients addressed
       /\ NotificationMail.bcc mail = []
       /\ NotificationMail.confidential mail = true
       /\ (In senderMailAddress (getEnabledMailAddresses userMailboxDetails) ->
           NotificationMail.sender mail = senderMailAddress)
       /\ (~ In senderMailAddress (getEnabledMailAddresses userMailboxDetails) ->
           NotificationMail.sender mail = getDefaultSender userMailboxDetails).
Proof.
  intros share others. subst share others.
  unfold sendShareNotificationEmail, sendAcceptNotificationEmail,
    sendRejectNotificationEmail, sendDeletionNotificationEmail, _sendNotificationEmail.
  simpl. repeat split.
  - destruct (includes _ _); reflexivity.
  - destruct H as [H|[H|[H|[]]]]; injection H as <- <-; reflexivity.
  - destruct H as [H|[H|[H|[]]]]; injection H as <- <-; reflexivity.
  - destruct H as [H|[H|[H|[]]]]; injection H as <- <-; reflexivity.
  - intros Hin. apply includes_In in Hin.
    destruct H as [H|[H|[H|[]]]]; injection H as <- <-; simpl; now rewrite Hin.
  - intros Hout. apply includes_not_In in Hout.
    destruct H as [H|[H|[H|[]]]]; injection H as <- <-; simpl; now rewrite Hout.
Qed.

End SharingProperties.


(** ** The OK button *)

Section DialogProperties.
Context {utils : CalendarUtils}.

Lemma dispatch_ok_none vm newEvent newAlarms groupRoot d world trace trace' :
  dispatch vm newEvent newAlarms groupRoot d world trace = (trace', Fulfilled (ok None)) ->
  exists rest,
    trace' = trace ++ persistCall vm newEvent newAlarms groupRoot :: rest
    /\ world trace (persistCall vm newEvent newAlarms groupRoot) = Fulfilled tt.
Proof.
  unfold dispatch. destruct (_ || _); [discriminate|].
  rewrite doCreateEvent_perform. unfold Promise_then, Promise_resolve, perform.
  destruct (world trace _) as [[]|e] eqn:E; [|discriminate].
  destruct (negb _).
  - destruct (world (trace ++ _) _) as [[]|e]; simpl; [|discriminate].
    intros H. inversion H; subst. eexists [_]. split; [|reflexivity].
    now rewrite <- app_assoc.
  - simpl. intros H. inversion H; subst. exists []. split; reflexivity.
Qed.

Lemma askForUpdates_fulfilled vm p sendOutUpdate world trace trace' value :
  askForUpdates vm p sendOutUpdate world trace = (trace', Fulfilled value) ->
  exists rest,
    trace' = trace ++ persistCall vm (pendingEvent p) (pendingAlarms p) (pendingGroupRoot p)
                   :: rest
    /\ world trace (persistCall vm (pendingEvent p) (pendingAlarms p) (pendingGroupRoot p))
       = Fulfilled tt.
Proof.
  intros Hrun.
  destruct (askForUpdates_trace vm p sendOutUpdate world trace)
    as (mails & rest & Htrace & _ & _).
  rewrite Hrun in Htrace. simpl in Htrace. exists mails. split; [exact Htrace|].
  unfold askForUpdates in Hrun. rewrite doCreateEvent_perform in Hrun.
  unfold Promise_then, perform in Hrun.
  destruct (world trace _) as [[]|e]; [reflexivity|discriminate].
Qed.

Lemma ownResponse_run vm newEvent world trace :
  exists e responses,
    fst (ownResponse vm newEvent) = setExistingEvent vm e
    /\ snd (ownResponse vm newEvent) world trace = (trace ++ responses, Fulfilled tt)
    /\ forallb isMail responses = true.
Proof.
  unfold ownResponse.
  assert (Hsame : exists e responses,
             vm = setExistingEvent vm e
             /\ Promise_resolve tt world trace = (trace ++ responses, Fulfilled tt)
             /\ forallb isMail responses = true).
  { exists (existingEvent vm), []. split; [symmetry; apply setExistingEvent_existingEvent|].
    split; [|reflexivity]. unfold Promise_resolve. now rewrite app_nil_r. }
  destruct (existingEvent vm); [|exact Hsame].
  destruct (findOwn _ _); [|exact Hsame].
  destruct (_ && _); [|exact Hsame].
  eexists _, [_]. simpl. repeat split.
Qed.

Lemma assembleEvent_description now vm newEvent groupRoot :
  assembleEvent now vm = Assembled newEvent groupRoot ->
  CalendarEvent.description newEvent = note vm.
Proof.
  unfold assembleEvent.
  destruct (computeTimes vm) as [key|[start end_]]; [discriminate|].
  destruct (end_ <=? start); [discriminate|].
  destruct (selectedCalendar vm); [|discriminate].
  destruct (assembleRepeatRule vm _); [discriminate|].
  intros H. injection H as <- _. destruct (existingEvent vm); reflexivity.
Qed.

Lemma persistCall_description vm newEvent newAlarms groupRoot :
  CalendarEvent.description (eventOfCall (persistCall vm newEvent newAlarms groupRoot))
  = CalendarEvent.description newEvent.
Proof. unfold persistCall. destruct (existingEvent vm); reflexivity. Qed.

Lemma okAction_result now vm editorValue answer world trace vm' trace' state :
  okAction now vm editorValue answer world trace = (vm', trace', state) ->
  match state with
  | DialogClosed =>
      exists before persist rest,
        trace' = trace ++ before ++ persist :: rest
        /\ forallb isMail before = true
        /\ isPersist persist = true
        /\ world (trace ++ before) persist = Fulfilled tt
        /\ CalendarEvent.description (eventOfCall persist) = editorValue
  | DialogError _ => trace' = trace /\ vm' = changeDescription vm editorValue
  | DialogOpen => True
  end.
Proof.
  unfold okAction.
  set (vm1 := changeDescription vm editorValue).
  assert (Hnote : note vm1 = editorValue) by reflexivity.
  unfold onOkPressed.
  destruct (assembleEvent now vm1) as [key|e|newEvent groupRoot] eqn:Ha.
  - simpl. intros H. injection H as <- <- <-. split; reflexivity.
  - simpl. intros H. injection H as <- <- <-. exact I.
  - pose proof (assembleEvent_description _ _ Ha) as Hdescr. rewrite Hnote in Hdescr.
    assert (Hrun : forall v before,
               forallb isMail before = true ->
               match dispatch v newEvent (alarms vm1) groupRoot
                       (if _viewingOwnEvent vm1
                        then attendeeDiff (_mailAddresses vm1) (existingEvent vm1)
                               (attendees vm1)
                        else {| existingAttendees := []; newAttendees := [];
                                removedAttendees := [] |})
                       world (trace ++ before) with
               | (trace1, Fulfilled (ok (Some pending))) =>
                   match askForUpdates v pending answer world trace1 with
                   | (trace2, Fulfilled _) => (v, trace2, DialogClosed)
                   | (trace2, Rejected _) => (v, trace2, DialogOpen)
                   end
               | (trace1, Fulfilled (ok None)) => (v, trace1, DialogClosed)
               | (trace1, Fulfilled (error key)) => (v, trace1, DialogError key)
               | (trace1, Rejected _) => (v, trace1, DialogOpen)
               end = (vm', trace', state) ->
               match state with
               | DialogClosed =>
                   exists before persist rest,
                     trace' = trace ++ before ++ persist :: rest
                     /\ forallb isMail before = true
                     /\ isPersist persist = true
                     /\ world (trace ++ before) persist = Fulfilled tt
                     /\ CalendarEvent.description (eventOfCall persist) = editorValue
               | DialogError _ => trace' = trace /\ vm' = changeDescription vm editorValue
               | DialogOpen => True
               end).
    { intros v before Hmails.
      destruct (dispatch v newEvent (alarms vm1) groupRoot _ world (trace ++ before))
        as [trace1 [[[pending|]|key]|err]] eqn:Hd.
      - apply dispatch_pending in Hd as (-> & Hev & _).
        destruct (askForUpdates v pending answer world (trace ++ before))
          as [trace2 [value|err]] eqn:Hask.
        + intros H. injection H as <- <- <-.
          apply askForUpdates_fulfilled in Hask as (rest & -> & Hok).
          exists before, (persistCall v (pendingEvent pending) (pendingAlarms pending)
                            (pendingGroupRoot pending)), rest.
          rewrite <- app_assoc. split; [reflexivity|]. split; [exact Hmails|].
          split; [apply isPersist_persistCall|]. split; [exact Hok|].
          rewrite persistCall_description, Hev. exact Hdescr.
        + intros H. injection H as <- <- <-. exact I.
      - intros H. injection H as <- <- <-.
        apply dispatch_ok_none in Hd as (rest & -> & Hok).
        exists before, (persistCall v newEvent (alarms vm1) groupRoot), rest.
        rewrite <- app_assoc. split; [reflexivity|]. split; [exact Hmails|].
        split; [apply isPersist_persistCall|]. split; [exact Hok|].
        rewrite persistCall_description. exact Hdescr.
      - exfalso. eapply dispatch_not_error. rewrite Hd. reflexivity.
      - intros H. injection H as <- <- <-. exact I. }
    destruct (_viewingOwnEvent vm1) eqn:Hown.
    + simpl. intros H. apply (Hrun vm1 []); [reflexivity|].
      rewrite app_nil_r. exact H.
    + destruct (ownResponse_run vm1 newEvent world trace)
        as (e' & responses & Hfst & Hsnd & Hmails).
      destruct (ownResponse vm1 newEvent) as [vm2 response]. simpl in *.
      unfold Promise_then. rewrite Hsnd.
      intros H. apply (Hrun vm2 responses Hmails). exact H.
Qed.

(** X28. The OK button of the dialog. When it closes the dialog, the event was
    persisted by a call that was fulfilled, preceded by nothing but mails, and
    the description persisted is what the editor held when OK was pressed.
    When it shows an error, nothing was called and the view-model only took
    the description. *)
Theorem okAction_closes_only_after_persist now vm editorValue answer world trace :
  let '(vm', trace', state) := okAction now vm editorValue answer world trace in
  match state with
  | DialogClosed =>
      exists before persist rest,
        trace' = trace ++ before ++ persist :: rest
        /\ forallb isMail before = true
        /\ isPersist persist = true
        /\ world (trace ++ before) persist = Fulfilled tt
        /\ CalendarEvent.description (eventOfCall persist) = editorValue
  | DialogError _ => trace' = trace /\ vm' = changeDescription vm editorValue
  | DialogOpen => True
  end.
Proof.
  destruct (okAction now vm editorValue answer world trace) as [[vm' trace'] state] eqn:H.
  exact (okAction_result _ _ _ _ _ _ H).
Qed.

End DialogProperties.


(** * The properties on the scenarios *)

Module ScenarioFacts.
Import Scenario.
#[local] Existing Instance Scenario.utils.

(** A viewer with the Write capability on the shared calendar opens an event
    of that calendar: SHARED_RW. *)
Lemma eventType_first_match_witness :
  ownerGroupWellFormed (Some sharedEvent)
  /\ exists vm,
       init (makeUserController [GroupMembership.create calendarGroupId (Some Write)])
         (makeCalendars true) (Some sharedEvent) = Some vm
       /\ _eventType vm = SHARED_RW.
Proof.
  assert (Hwf : ownerGroupWellFormed (Some sharedEvent)).
  { intros ev H. injection H as <-. discriminate. }
  split; [exact Hwf|].
  destruct (eventType_first_match
              (makeUserController [GroupMembership.create calendarGroupId (Some Write)])
              makeMailboxDetail now zone (makeCalendars true) Hwf) as (vm & Hvm & Hty).
  exists vm. split; [exact Hvm|exact Hty].
Defined.

(** Why the owner group id has to be well formed: with the empty string as id
    the calendar is not even looked up, although the map has it. *)
Example empty_owner_group_is_not_looked_up :
  let calendarMap :=
    [("", CalendarInfo.create groupRoot (Group.create "" CalendarGroup None) false)] in
  let event :=
    CalendarEvent.create None (Some "") "" "" "" 0 0 None "0" None [] None [] false in
  owningCalendar calendarMap event <> None
  /\ eventTypeFor (User.create userId []) calendarMap (Some event) = INVITE.
Proof. split; [discriminate|reflexivity]. Qed.

(** The edited own event: one guest kept, one added, one removed. *)
Lemma organizer_save_asks_before_persisting_witness :
  assembleEvent now editedVm = Assembled editedEvent groupRoot
  /\ _viewingOwnEvent editedVm = true
  /\ (existingAttendees
        (attendeeDiff (_mailAddresses editedVm) (existingEvent editedVm) (attendees editedVm))
      <> []
      \/ removedAttendees
           (attendeeDiff (_mailAddresses editedVm) (existingEvent editedVm)
              (attendees editedVm))
         <> [])
  /\ exists pending,
       (forall world trace,
           snd (onOkPressed now editedVm) world trace
           = (trace, Fulfilled (ok (Some pending))))
       /\ forall world trace,
           exists mails,
             fst (askForUpdates editedVm pending false world trace)
             = trace ++ persistCall editedVm editedEvent (alarms editedVm) groupRoot :: mails
             /\ mails = [].
Proof.
  assert (Ha : assembleEvent now editedVm = Assembled editedEvent groupRoot)
    by (vm_compute; reflexivity).
  assert (Hown : _viewingOwnEvent editedVm = true) by (vm_compute; reflexivity).
  assert (Hdiff :
            existingAttendees
              (attendeeDiff (_mailAddresses editedVm) (existingEvent editedVm)
                 (attendees editedVm)) <> []
            \/ removedAttendees
                 (attendeeDiff (_mailAddresses editedVm) (existingEvent editedVm)
                    (attendees editedVm)) <> [])
    by (left; vm_compute; discriminate).
  split; [exact Ha|]. split; [exact Hown|]. split; [exact Hdiff|].
  destruct (organizer_save_asks_before_persisting now editedVm Ha Hown Hdiff)
    as (pending & _ & Hok & _ & _ & Hrun).
  exists pending. split; [exact Hok|].
  intros world trace.
  destruct (Hrun editedVm false world trace) as (mails & Htrace & _ & _ & _ & Hnone).
  exists mails. split; [exact Htrace|exact (Hnone eq_refl)].
Defined.

Lemma confirmed_save_mails_in_order_witness :
  snd (onOkPressed now editedVm) allFulfilled [] = ([], Fulfilled (ok (Some editedPending)))
  /\ exists persist mails,
       fst (askForUpdates editedVm editedPending true allFulfilled []) = persist :: mails
       /\ mails = mailsDue editedEvent
                    (attendeeDiff (_mailAddresses editedVm) (existingEvent editedVm)
                       (attendees editedVm))
       /\ StronglySorted (fun a b => mailRank a < mailRank b) mails.
Proof.
  assert (Hok : snd (onOkPressed now editedVm) allFulfilled []
                = ([], Fulfilled (ok (Some editedPending))))
    by (vm_compute; reflexivity).
  split; [exact Hok|].
  destruct (confirmed_save_mails_in_order now editedVm allFulfilled [] editedVm
              allFulfilled [] Hok)
    as (persist & mails & rest & Htrace & _ & Hdue & Hsorted & Hall).
  exists persist, mails. split; [exact Htrace|]. split; [|exact Hsorted].
  rewrite (Hall (fun _ _ => eq_refl)), app_nil_r in Hdue. symmetry. exact Hdue.
Defined.

(** Scenario C: the update goes to the guest kept, then the invite to the
    guest added, then the cancellation to the guest removed. *)
Example confirmed_save_of_edited_event :
  fst (askForUpdates editedVm editedPending true allFulfilled []) =
  [CalendarModel_updateEvent editedEvent [] zone groupRoot ownEvent;
   Distributor_sendUpdate editedEvent
     [EncryptedMailAddress.create None "old-attendee@example.com"];
   Distributor_sendInvite editedEvent
     [EncryptedMailAddress.create None "new-attendee@example.com"];
   Distributor_sendCancellation editedEvent
     [EncryptedMailAddress.create None "remove-attendee@example.com"]].
Proof. vm_compute. reflexivity. Qed.

(** The invitation the viewer accepts. *)
Lemma invited_save_responds_then_persists_witness :
  assembleEvent now invitedVm = Assembled invitedEvent groupRoot
  /\ _viewingOwnEvent invitedVm = false
  /\ exists ev ev' responses,
       existingEvent invitedVm = Some ev
       /\ existingEvent (fst (onOkPressed now invitedVm)) = Some ev'
       /\ snd (onOkPressed now invitedVm) allFulfilled [] =
          (responses ++ [CalendarModel_updateEvent invitedEvent [] zone groupRoot ev'],
           Fulfilled (ok None)).
Proof.
  assert (Ha : assembleEvent now invitedVm = Assembled invitedEvent groupRoot)
    by (vm_compute; reflexivity).
  assert (Hown : _viewingOwnEvent invitedVm = false) by (vm_compute; reflexivity).
  split; [exact Ha|]. split; [exact Hown|].
  destruct (invited_save_responds_then_persists now invitedVm allFulfilled [] Ha Hown)
    as (ev & ev' & responses & Hev & Hev' & Hrun & _).
  exists ev, ev', responses. split; [exact Hev|]. split; [exact Hev'|exact Hrun].
Defined.

(** The response is the first call, the update the second. *)
Example accepted_invitation_trace :
  fst (snd (onOkPressed now invitedVm) allFulfilled []) =
  [Distributor_sendResponse invitedEvent (MailAddress.create None mailAddress) ACCEPTED;
   CalendarModel_updateEvent invitedEvent [] zone groupRoot
     (CalendarEvent.setAttendees invitation
        [makeAttendee mailAddress ACCEPTED;
         makeAttendee "another-attendee@example.com" DECLINED])].
Proof. vm_compute. reflexivity. Qed.

(** Scenario A: deleting the viewer's own event with guests. *)
Lemma deleteEvent_cancels_then_deletes_witness :
  existingEvent ownVm = Some ownEvent
  /\ deleteEvent ownVm allFulfilled [] =
     ([Distributor_sendCancellation ownEvent
         [EncryptedMailAddress.create None "old-attendee@example.com";
          EncryptedMailAddress.create None "remove-attendee@example.com"];
       CalendarModel_deleteEvent ownEvent],
      Fulfilled None).
Proof.
  assert (Hev : existingEvent ownVm = Some ownEvent) by reflexivity.
  split; [exact Hev|].
  refine (proj1 (deleteEvent_cancels_then_deletes ownVm allFulfilled [] Hev) _).
  split; [reflexivity|discriminate].
Defined.

(** A store that no longer has the event: the delete still succeeds. *)
Example deleteEvent_of_missing_event :
  deleteEvent ownVm
    (fun _ c => match c with
                | CalendarModel_deleteEvent _ => Rejected NotFoundError
                | _ => Fulfilled tt
                end) []
  = ([Distributor_sendCancellation ownEvent
        [EncryptedMailAddress.create None "old-attendee@example.com";
         EncryptedMailAddress.create None "remove-attendee@example.com"];
      CalendarModel_deleteEvent ownEvent],
     Fulfilled None).
Proof. vm_compute. reflexivity. Qed.

(** A new daily event whose count is not a number. *)
Lemma count_below_one_saved_as_never_witness :
  repeat countlessVm
  = Some {| frequency := DAILY; interval := jsOne; endType := Count; endValue := NaN |}
  /\ computeTimes countlessVm = inr (1590364800000, 1590451200000)
  /\ 1590364800000 < 1590451200000
  /\ selectedCalendar countlessVm
     = Some (CalendarInfo.create groupRoot
               (Group.create calendarGroupId CalendarGroup None) false)
  /\ exists newEvent,
       assembleEvent now countlessVm = Assembled newEvent groupRoot
       /\ option_map RepeatRule.endType (CalendarEvent.repeatRule newEvent) = Some Never.
Proof.
  assert (Hrepeat : repeat countlessVm
                    = Some {| frequency := DAILY; interval := jsOne;
                              endType := Count; endValue := NaN |})
    by reflexivity.
  assert (Htimes : computeTimes countlessVm = inr (1590364800000, 1590451200000))
    by (vm_compute; reflexivity).
  assert (Hlt : 1590364800000 < 1590451200000) by reflexivity.
  assert (Hcal : selectedCalendar countlessVm
                 = Some (CalendarInfo.create groupRoot
                           (Group.create calendarGroupId CalendarGroup None) false))
    by reflexivity.
  split; [exact Hrepeat|]. split; [exact Htimes|]. split; [exact Hlt|].
  split; [exact Hcal|].
  destruct (count_below_one_saved_as_never now countlessVm Hrepeat eq_refl
              (or_introl eq_refl) Htimes Hlt Hcal) as (newEvent & Ha & Hrule & _).
  exists newEvent. split; [exact Ha|].
  rewrite Hrule. reflexivity.
Defined.

(** C8. The existing event is written to by [onOkPressed]: on the invitation
    the viewer accepts, the status saved for the viewer on the existing event
    itself is needs-action before the call and accepted after it. *)
Theorem existingEvent_status_overwritten_by_response :
  exists vm0 ev',
    init (makeUserController []) (makeCalendars false) (Some invitation) = Some vm0
    /\ existingEvent vm0 = Some invitation
    /\ selectGoing vm0 ACCEPTED = Some invitedVm
    /\ existingEvent invitedVm = Some invitation
    /\ existingEvent (fst (onOkPressed now invitedVm)) = Some ev'
    /\ map CalendarEventAttendee.status (CalendarEvent.attendees invitation)
       = [NEEDS_ACTION; DECLINED]
    /\ map CalendarEventAttendee.status (CalendarEvent.attendees ev')
       = [ACCEPTED; DECLINED]
    /\ ev' <> invitation.
Proof.
  eexists. eexists.
  split; [vm_compute; reflexivity|].
  split; [reflexivity|].
  split; [vm_compute; reflexivity|].
  split; [reflexivity|].
  split; [vm_compute; reflexivity|].
  split; [reflexivity|].
  split; [reflexivity|].
  discriminate.
Qed.

End ScenarioFacts.


(** * More properties on the scenarios *)

Module ScenarioMore.
Import Scenario.
#[local] Existing Instance Scenario.utils.
#[local] Existing Instance Scenario.dialogUtils.
#[local] Existing Instance Scenario.distributorUtils.

Lemma ownVm_addresses_distinct : NoDup (map addressOf (attendees ownVm)).
Proof. repeat constructor; simpl; intuition discriminate. Defined.

Lemma ownVm_reachable : Reachable ownVm.
Proof.
  apply (reach_new (makeUserController []) makeMailboxDetail now zone (makeCalendars false)
           (Some ownEvent)).
  reflexivity.
Defined.

Lemma editedVm_reachable : Reachable editedVm.
Proof.
  exact (reach_removeAttendee "remove-attendee@example.com"
           (reach_addAttendee "new-attendee@example.com" ownVm_reachable)).
Defined.

Lemma addAttendee_keeps_addresses_distinct_witness :
  NoDup (map addressOf (attendees ownVm))
  /\ NoDup (map addressOf (attendees (addAttendee ownVm "new-attendee@example.com"))).
Proof.
  split; [exact ownVm_addresses_distinct|].
  exact (addAttendee_keeps_addresses_distinct ownVm "new-attendee@example.com"
           ownVm_addresses_distinct).
Defined.

Lemma removeAttendee_undoes_addAttendee_witness :
  ~ In "new-attendee@example.com" (map addressOf (attendees ownVm))
  /\ removeAttendee (addAttendee ownVm "new-attendee@example.com")
       "new-attendee@example.com" = ownVm.
Proof.
  assert (Hnew : ~ In "new-attendee@example.com" (map addressOf (attendees ownVm)))
    by (simpl; intuition discriminate).
  split; [exact Hnew|].
  exact (removeAttendee_undoes_addAttendee ownVm "new-attendee@example.com" Hnew).
Defined.

Lemma removeAttendee_drops_the_address_witness :
  NoDup (map addressOf (attendees ownVm))
  /\ ~ In "remove-attendee@example.com"
         (map addressOf (attendees (removeAttendee ownVm "remove-attendee@example.com"))).
Proof.
  split; [exact ownVm_addresses_distinct|].
  intros Hin.
  apply (proj1 (removeAttendee_drops_the_address ownVm "remove-attendee@example.com"
                  ownVm_addresses_distinct)) in Hin.
  destruct Hin as [_ Hne]. now apply Hne.
Defined.

Lemma selectGoing_sets_own_status_witness :
  canModifyOwnAttendance ownVm = true
  /\ _mailAddresses ownVm <> []
  /\ exists vm' own,
       selectGoing ownVm ACCEPTED = Some vm'
       /\ going vm' = ACCEPTED
       /\ _findOwnAttendee vm' = Some own
       /\ CalendarEventAttendee.status own = ACCEPTED.
Proof.
  assert (Hcan : canModifyOwnAttendance ownVm = true) by reflexivity.
  assert (Hmail : _mailAddresses ownVm <> []) by discriminate.
  split; [exact Hcan|]. split; [exact Hmail|].
  destruct (selectGoing_sets_own_status ownVm ACCEPTED Hcan Hmail)
    as (vm' & own & Hsel & Hgoing & Hfind & Hstatus & _).
  exists vm', own. auto.
Defined.

Lemma selectGoing_twice_witness :
  canModifyOwnAttendance ownVm = true
  /\ selectGoing ownVm ACCEPTED = Some (valueOf (selectGoing ownVm ACCEPTED) eq_refl)
  /\ exists vm'',
       selectGoing (valueOf (selectGoing ownVm ACCEPTED) eq_refl) DECLINED = Some vm''
       /\ going vm'' = DECLINED.
Proof.
  assert (Hcan : canModifyOwnAttendance ownVm = true) by reflexivity.
  assert (Hsel : selectGoing ownVm ACCEPTED
                 = Some (valueOf (selectGoing ownVm ACCEPTED) eq_refl)) by reflexivity.
  split; [exact Hcan|]. split; [exact Hsel|].
  destruct (selectGoing_twice ownVm ACCEPTED DECLINED Hcan Hsel)
    as (_ & vm'' & Hsecond & Hgoing & _).
  exists vm''. auto.
Defined.

Lemma shared_calendar_locks_guests_witness :
  ownerGroupWellFormed (Some sharedEvent)
  /\ owningCalendar (makeCalendars true) sharedEvent = Some sharedCalendar
  /\ CalendarInfo.shared sharedCalendar = true
  /\ exists vm,
       init (makeUserController []) (makeCalendars true) (Some sharedEvent) = Some vm
       /\ canModifyGuests vm = false
       /\ canModifyAlarms vm = false
       /\ readOnly vm = true.
Proof.
  assert (Hwf : ownerGroupWellFormed (Some sharedEvent)).
  { intros ev H. injection H as <-. discriminate. }
  assert (Hcal : owningCalendar (makeCalendars true) sharedEvent = Some sharedCalendar)
    by reflexivity.
  split; [exact Hwf|]. split; [exact Hcal|]. split; [reflexivity|].
  destruct (shared_calendar_locks_guests (makeUserController []) makeMailboxDetail now zone
              (makeCalendars true) Hwf Hcal eq_refl)
    as (vm & Hvm & Hguests & _ & _ & Halarms & Hro).
  exists vm. split; [exact Hvm|]. split; [exact Hguests|].
  split; [exact Halarms|exact Hro].
Defined.

Lemma organizer_locked_for_copies_and_guests_witness :
  truthy (CalendarEvent.organizer invitation) = Some "another-address@example.com"
  /\ (CalendarEvent.isCopy invitation = true \/ CalendarEvent.attendees invitation <> [])
  /\ exists vm,
       init (makeUserController []) (makeCalendars false) (Some invitation) = Some vm
       /\ possibleOrganizers vm = ["another-address@example.com"].
Proof.
  assert (Horg : truthy (CalendarEvent.organizer invitation)
                 = Some "another-address@example.com") by reflexivity.
  assert (Hlocked : CalendarEvent.isCopy invitation = true
                    \/ CalendarEvent.attendees invitation <> []) by (left; reflexivity).
  split; [exact Horg|]. split; [exact Hlocked|].
  destruct (organizer_locked_for_copies_and_guests (makeUserController []) makeMailboxDetail
              now zone (makeCalendars false) invitation Horg Hlocked)
    as (vm & Hvm & _ & _ & Hposs).
  exists vm. auto.
Defined.

Lemma organizer_save_without_kept_or_removed_guests_witness :
  assembleEvent now guestVm = Assembled guestEvent groupRoot
  /\ _viewingOwnEvent guestVm = true
  /\ snd (onOkPressed now guestVm) allFulfilled [] =
     ([CalendarModel_createEvent guestEvent [] zone groupRoot;
       Distributor_sendInvite guestEvent
         [EncryptedMailAddress.create None "new-attendee@example.com"]],
      Fulfilled (ok None)).
Proof.
  assert (Ha : assembleEvent now guestVm = Assembled guestEvent groupRoot)
    by (vm_compute; reflexivity).
  assert (Hown : _viewingOwnEvent guestVm = true) by reflexivity.
  split; [exact Ha|]. split; [exact Hown|].
  exact (proj2 (organizer_save_without_kept_or_removed_guests now guestVm allFulfilled []
                  Ha Hown eq_refl eq_refl)).
Defined.

Lemma askForUpdates_sends_nothing_after_failed_persist_witness :
  storeFails [] (persistCall editedVm (pendingEvent editedPending)
                   (pendingAlarms editedPending) (pendingGroupRoot editedPending))
  = Rejected (OtherError "offline")
  /\ askForUpdates editedVm editedPending true storeFails [] =
     ([CalendarModel_updateEvent editedEvent [] zone groupRoot ownEvent],
      Rejected (OtherError "offline")).
Proof.
  assert (Hfails : storeFails [] (persistCall editedVm (pendingEvent editedPending)
                                    (pendingAlarms editedPending)
                                    (pendingGroupRoot editedPending))
                   = Rejected (OtherError "offline")) by reflexivity.
  split; [exact Hfails|].
  exact (askForUpdates_sends_nothing_after_failed_persist editedVm editedPending true
           storeFails [] Hfails).
Defined.

Lemma askForUpdates_does_not_report_cancellation_failure_witness :
  (forall t c, mailRank c <> 3 -> cancellationFails t c = Fulfilled tt)
  /\ snd (askForUpdates editedVm editedPending true cancellationFails []) = Fulfilled tt
  /\ List.length (fst (askForUpdates editedVm editedPending true cancellationFails []))
     = 4%nat.
Proof.
  assert (Hworld : forall t c, mailRank c <> 3 -> cancellationFails t c = Fulfilled tt).
  { intros t c Hrank. destruct c; try reflexivity. exfalso. apply Hrank. reflexivity. }
  split; [exact Hworld|].
  rewrite (askForUpdates_does_not_report_cancellation_failure editedVm editedPending
             cancellationFails [] Hworld).
  split; reflexivity.
Defined.

Lemma second_save_sends_no_response_witness :
  assembleEvent now invitedVm = Assembled invitedEvent groupRoot
  /\ _viewingOwnEvent invitedVm = false
  /\ assembleEvent now (fst (onOkPressed now invitedVm))
     = Assembled savedInvitedEvent groupRoot
  /\ fst (onOkPressed now (fst (onOkPressed now invitedVm)))
     = fst (onOkPressed now invitedVm).
Proof.
  assert (Ha : assembleEvent now invitedVm = Assembled invitedEvent groupRoot)
    by (vm_compute; reflexivity).
  assert (Hown : _viewingOwnEvent invitedVm = false) by reflexivity.
  assert (Ha' : assembleEvent now (fst (onOkPressed now invitedVm))
                = Assembled savedInvitedEvent groupRoot) by (vm_compute; reflexivity).
  split; [exact Ha|]. split; [exact Hown|]. split; [exact Ha'|].
  exact (proj1 (second_save_sends_no_response now invitedVm now allFulfilled [] Ha Hown Ha')).
Defined.

Lemma onOkPressed_error_causes_witness :
  snd (onOkPressed now badTimeVm) allFulfilled []
  = ([], Fulfilled (error timeFormatInvalid_msg))
  /\ fst (onOkPressed now badTimeVm) = badTimeVm.
Proof.
  assert (Herr : snd (onOkPressed now badTimeVm) allFulfilled []
                 = ([], Fulfilled (error timeFormatInvalid_msg)))
    by (vm_compute; reflexivity).
  split; [exact Herr|].
  exact (proj1 (proj2 (onOkPressed_error_causes now badTimeVm allFulfilled [] Herr))).
Defined.

Lemma count_of_at_least_one_is_kept_witness :
  repeat countedVm
  = Some {| frequency := DAILY; interval := jsOne; endType := Count; endValue := Finite 3 |}
  /\ (1 <= 3)%Q
  /\ computeTimes countedVm = inr (1590364800000, 1590451200000)
  /\ exists newEvent,
       assembleEvent now countedVm = Assembled newEvent groupRoot
       /\ option_map RepeatRule.endValue (CalendarEvent.repeatRule newEvent)
          = Some (Some "3").
Proof.
  assert (Hrepeat : repeat countedVm
                    = Some {| frequency := DAILY; interval := jsOne;
                              endType := Count; endValue := Finite 3 |}) by reflexivity.
  assert (Hge : (1 <= 3)%Q) by (unfold Qle; simpl; lia).
  assert (Htimes : computeTimes countedVm = inr (1590364800000, 1590451200000))
    by (vm_compute; reflexivity).
  split; [exact Hrepeat|]. split; [exact Hge|]. split; [exact Htimes|].
  destruct (count_of_at_least_one_is_kept now countedVm
              (calendar := CalendarInfo.create groupRoot
                             (Group.create calendarGroupId CalendarGroup None) false)
              Hrepeat eq_refl eq_refl Hge Htimes eq_refl eq_refl)
    as (newEvent & Ha & Hrule).
  exists newEvent. split; [exact Ha|]. rewrite Hrule. reflexivity.
Defined.


Lemma onStartTimeSelected_never_moves_the_end_witness :
  Reachable editedVm
  /\ onStartTimeSelected editedVm "18:00" = setTimes editedVm "18:00" (endTime editedVm) None.
Proof.
  split; [exact editedVm_reachable|].
  exact (proj1 (proj2 (onStartTimeSelected_never_moves_the_end "18:00" editedVm_reachable))).
Defined.

Lemma adjustEndTime_keeps_the_span_witness :
  _oldStartTime movedVm = Some "16:00"
  /\ parseTime "16:00" = Some {| hours := 16; minutes := 0 |}
  /\ parseTime (startTime movedVm) = Some {| hours := 17; minutes := 0 |}
  /\ parseTime (endTime movedVm) = Some {| hours := 20; minutes := 0 |}
  /\ exists h m,
       _adjustEndTime movedVm =
       setTimes movedVm (startTime movedVm) (timeStringFromParts h m (amPmFormat movedVm))
         (Some (startTime movedVm))
       /\ h * 60 + m = 21 * 60.
Proof.
  assert (Hold : _oldStartTime movedVm = Some "16:00") by reflexivity.
  assert (Hpo : parseTime "16:00" = Some {| hours := 16; minutes := 0 |}) by reflexivity.
  assert (Hps : parseTime (startTime movedVm) = Some {| hours := 17; minutes := 0 |})
    by reflexivity.
  assert (Hpe : parseTime (endTime movedVm) = Some {| hours := 20; minutes := 0 |})
    by reflexivity.
  split; [exact Hold|]. split; [exact Hpo|]. split; [exact Hps|]. split; [exact Hpe|].
  destruct (adjustEndTime_keeps_the_span movedVm Hold ltac:(discriminate) Hpo Hps Hpe
              ltac:(simpl; lia) ltac:(simpl; lia))
    as (h & m & Hadjust & _ & _ & Hspan).
  exists h, m. split; [exact Hadjust|]. apply Hspan. simpl. lia.
Defined.

Lemma changeAlarm_removes_the_alarm_added_witness :
  ~ In (generateEventElementId now) (map AlarmInfo.alarmIdentifier (alarms ownVm))
  /\ changeAlarm (addAlarm now ownVm "5M") (generateEventElementId now) None = ownVm.
Proof.
  assert (Hfresh : ~ In (generateEventElementId now)
                     (map AlarmInfo.alarmIdentifier (alarms ownVm)))
    by (simpl; intuition).
  split; [exact Hfresh|].
  exact (changeAlarm_removes_the_alarm_added now ownVm "5M" Hfresh).
Defined.

Lemma distributor_without_organizer_witness :
  CalendarEvent.organizer blankEvent = None
  /\ exists e, forall mailbox,
       sendResponse mailbox now blankEvent (MailAddress.create None mailAddress) ACCEPTED
       = ([], Rejected e).
Proof.
  assert (Hnone : CalendarEvent.organizer blankEvent = None) by reflexivity.
  split; [exact Hnone|].
  exact (proj1 (proj2 (distributor_without_organizer blankEvent makeMailboxDetail now []
                         (MailAddress.create None mailAddress) ACCEPTED Hnone))).
Defined.

Lemma distributor_routing_witness :
  CalendarEvent.organizer ownEvent = Some mailAddress
  /\ exists mail,
       distribute (Fulfilled makeMailboxDetail) now
         (Distributor_sendCancellation ownEvent
            [EncryptedMailAddress.create None "remove-attendee@example.com"])
       = ([GetUserMailboxDetails; Send mail], Fulfilled tt)
       /\ to mail = []
       /\ calendarFileMethod mail = CANCEL.
Proof.
  assert (Horg : CalendarEvent.organizer ownEvent = Some mailAddress) by reflexivity.
  split; [exact Horg|].
  destruct (distributor_routing makeMailboxDetail now
              (sender := MailAddress.create None mailAddress) (status := ACCEPTED)
              (c := Distributor_sendCancellation ownEvent
                      [EncryptedMailAddress.create None "remove-attendee@example.com"])
              Horg ltac:(simpl; auto))
    as (mail & Hrun & _ & Hto & _ & Hmethod).
  exists mail. auto.
Defined.

Lemma reachable_saves_carry_an_organizer_witness :
  Reachable editedVm
  /\ assembleEvent now editedVm = Assembled editedEvent groupRoot
  /\ exists o,
       organizer editedVm = Some o /\ CalendarEvent.organizer editedEvent = Some o.
Proof.
  assert (Ha : assembleEvent now editedVm = Assembled editedEvent groupRoot)
    by (vm_compute; reflexivity).
  split; [exact editedVm_reachable|]. split; [exact Ha|].
  destruct (reachable_saves_carry_an_organizer now editedVm_reachable Ha)
    as (o & Ho & He & _).
  exists o. auto.
Defined.

Lemma event_from_file_is_never_own_witness :
  getParsedEvent parseFile "BEGIN:VCALENDAR" = Some (fileEvent, "uid-1")
  /\ exists event,
       showEventDetailsFromFile parseFile "BEGIN:VCALENDAR" (fun _ => None)
         (makeCalendars false) makeMailboxDetail
       = ShowCalendarEventDialog (CalendarEvent.startTime fileEvent) (makeCalendars false)
           makeMailboxDetail event
       /\ CalendarEvent.isCopy event = true.
Proof.
  assert (Hparsed : getParsedEvent parseFile "BEGIN:VCALENDAR" = Some (fileEvent, "uid-1"))
    by reflexivity.
  split; [exact Hparsed|].
  destruct (event_from_file_is_never_own (utils := Scenario.utils) parseFile
              "BEGIN:VCALENDAR" (fun _ => None) (makeCalendars false) makeMailboxDetail
              Hparsed eq_refl)
    as (event & Hshow & Hcopy & _).
  exists event. auto.
Defined.

(** A start time chosen on the view-model of the own event: the end stays. *)
Example start_time_chosen_on_own_event :
  endTime (onStartTimeSelected ownVm "17:00") = "20:00"
  /\ startTime (onStartTimeSelected ownVm "17:00") = "17:00".
Proof. split; reflexivity. Qed.

(** With two attendees of the same address, [removeAttendee] leaves one. *)
Example removeAttendee_leaves_a_duplicate :
  map addressOf
    (attendees
       (removeAttendee
          (setAttendees ownVm [makeAttendee "twice@example.com" NEEDS_ACTION;
                               makeAttendee "twice@example.com" ACCEPTED])
          "twice@example.com"))
  = ["twice@example.com"].
Proof. reflexivity. Qed.

End ScenarioMore.
